(** * SnakeGameRoom: the authoritative simulation core of the snake arena

    A shallow embedding of [server/src/rooms/SnakeGameRoom.ts] and the
    properties of its movement, collision, food and life-cycle code.

    Numbers.  JavaScript numbers are modelled by exact rationals [Q]: the
    operations [+], [-], [*], [%] and the comparisons are taken with their
    exact value.  The distance [Math.sqrt(dx * dx + dy * dy)] of the three
    proximity tests is not: it is a rounded number that decides on which
    side of a radius a point falls, so it is read from the environment and
    compared with the radius as the code compares it.  Scores, kill counts
    and food values are integers ([Z]); lengths are [nat].

    Objects.  Players live in a [MapSchema] that iterates in insertion
    order: an association list keyed by session id.  A player object is
    named by its key, and every mutation of a player is an update of the
    store at that key, so that all the readers of the same object see it.
    Foods live in a [gmap] keyed by food id. *)

From Stdlib Require Import QArith Qround Lqa ZArith Lia List.
From stdpp Require Import base strings pretty gmap.

Local Open Scope Q_scope.

(** ** Exact arithmetic helpers *)

Module JS.

(** [a < b] on numbers, as a boolean. *)
Definition ltb (a b : Q) : bool := negb (Qle_bool b a).

(** [a <= b] and [a >= b]. *)
Definition leb (a b : Q) : bool := Qle_bool a b.
Definition geb (a b : Q) : bool := Qle_bool b a.

(** Truncation toward zero of an exact quotient. *)
Definition trunc (q : Q) : Z := Z.quot (Qnum q) (Zpos (Qden q)).

(** The remainder operator [a % b]: the result has the sign of the
    dividend, [a - b * trunc (a / b)]. *)
Definition rem (a b : Q) : Q := a - b * inject_Z (trunc (a / b)).

(** [Math.floor]. *)
Definition floor (q : Q) : Z := Qfloor q.

End JS.

(** [wrapCoordinate(value, max)].  The sum [max + value % max] of the first
    branch is taken exactly; as a double it is rounded, within [(0, max]]. *)
Definition wrapCoordinate (value max : Q) : Q :=
  if JS.ltb value 0 then max + JS.rem value max
  else if JS.geb value max then JS.rem value max
  else value.

(** ** The schema: [Vector2], [SnakeSegment], [Food], [Player]

    The schema classes are used by the room through their fields; one
    module per class, the record being [t] and the constructor [mk]. *)

Module Vector2.
Record t : Type := mk { x : Q; y : Q }.
End Vector2.

Module SnakeSegment.
Record t : Type := mk { position : Vector2.t }.

(** [new SnakeSegment(x, y)]. *)
Definition new (x y : Q) : t := mk (Vector2.mk x y).
End SnakeSegment.

Module Food.
Record t : Type := mk { id : string; position : Vector2.t; value : Z }.

(** [new Food(id, x, y, value)]. *)
Definition new (id : string) (x y : Q) (value : Z) : t :=
  mk id (Vector2.mk x y) value.
End Food.

Module Player.
Record t : Type := mk {
  id : string;
  name : string;
  color : string;
  skinId : Z;
  angle : Q;
  speed : Q;
  boosting : bool;
  boostTime : Z;
  score : Z;
  kills : Z;
  alive : bool;
  invulnerable : bool;
  segments : list SnakeSegment.t
}.

(** Field assignments [player.f = v]. *)
Definition set_angle (v : Q) (p : t) : t :=
  mk (id p) (name p) (color p) (skinId p) v (speed p) (boosting p)
     (boostTime p) (score p) (kills p) (alive p) (invulnerable p) (segments p).

Definition set_boosting (v : bool) (p : t) : t :=
  mk (id p) (name p) (color p) (skinId p) (angle p) (speed p) v
     (boostTime p) (score p) (kills p) (alive p) (invulnerable p) (segments p).

Definition set_boostTime (v : Z) (p : t) : t :=
  mk (id p) (name p) (color p) (skinId p) (angle p) (speed p) (boosting p)
     v (score p) (kills p) (alive p) (invulnerable p) (segments p).

Definition set_score (v : Z) (p : t) : t :=
  mk (id p) (name p) (color p) (skinId p) (angle p) (speed p) (boosting p)
     (boostTime p) v (kills p) (alive p) (invulnerable p) (segments p).

Definition set_kills (v : Z) (p : t) : t :=
  mk (id p) (name p) (color p) (skinId p) (angle p) (speed p) (boosting p)
     (boostTime p) (score p) v (alive p) (invulnerable p) (segments p).

Definition set_alive (v : bool) (p : t) : t :=
  mk (id p) (name p) (color p) (skinId p) (angle p) (speed p) (boosting p)
     (boostTime p) (score p) (kills p) v (invulnerable p) (segments p).

Definition set_invulnerable (v : bool) (p : t) : t :=
  mk (id p) (name p) (color p) (skinId p) (angle p) (speed p) (boosting p)
     (boostTime p) (score p) (kills p) (alive p) v (segments p).

Definition set_segments (v : list SnakeSegment.t) (p : t) : t :=
  mk (id p) (name p) (color p) (skinId p) (angle p) (speed p) (boosting p)
     (boostTime p) (score p) (kills p) (alive p) (invulnerable p) v.

(** Modelled from the spec: the schema file with the [head] accessor is
    not part of the sources at hand.  The head position is always the
    position of [segments[0]]; a player without segments has none. *)
Definition head (p : t) : option Vector2.t :=
  match segments p with
  | [] => None
  | s :: _ => Some (SnakeSegment.position s)
  end.

(** Modelled from the spec: [updateHeadPosition] refreshes the synchronised
    copy of the head position, which is derived from [segments[0]]; the
    fields of the player are left as they are. *)
Definition updateHeadPosition (p : t) : t := p.

(** Modelled from the spec: [addSegment] is declared in the missing schema
    file.  A new segment is appended at the current tail position. *)
Definition addSegment (p : t) : t :=
  match last (segments p) with
  | Some tail =>
      let pos := SnakeSegment.position tail in
      set_segments
        (segments p ++ [SnakeSegment.new (Vector2.x pos) (Vector2.y pos)]) p
  | None => p
  end.
End Player.

(** ** Events broadcast to the sessions *)

Inductive Event : Type :=
| EvPlayerDied (playerId : string)
    (** [broadcast("playerDied", { playerId })] *)
| EvPlayerDiedNoKiller (playerId : string)
    (** [broadcast("playerDied", { playerId, killerSessionId: null })] *)
| EvPlayerKilled (killed killer : string)
| EvFoodSpawned (foodId : string) (x y : Q) (value : Z)
| EvFoodConsumed (foodId playerId : string) (value : Z).

(** ** The room

    The synchronised state together with what the room itself owns: the
    events broadcast so far (oldest first), the timeouts scheduled on the
    clock (delay in ms and the session whose player they clear), and the
    number of random draws taken so far. *)

Record Room : Type := mkRoom {
  players : list (string * Player.t);
  foods : gmap string Food.t;
  worldWidth : Q;
  worldHeight : Q;
  maxFoods : nat;
  worldBoundaryCollisions : bool;
  broadcasts : list Event;
  timeouts : list (Z * string);
  draws : nat
}.

Definition set_players (v : list (string * Player.t)) (r : Room) : Room :=
  mkRoom v (foods r) (worldWidth r) (worldHeight r) (maxFoods r)
         (worldBoundaryCollisions r) (broadcasts r) (timeouts r) (draws r).

Definition set_foods (v : gmap string Food.t) (r : Room) : Room :=
  mkRoom (players r) v (worldWidth r) (worldHeight r) (maxFoods r)
         (worldBoundaryCollisions r) (broadcasts r) (timeouts r) (draws r).

Definition set_broadcasts (v : list Event) (r : Room) : Room :=
  mkRoom (players r) (foods r) (worldWidth r) (worldHeight r) (maxFoods r)
         (worldBoundaryCollisions r) v (timeouts r) (draws r).

Definition set_timeouts (v : list (Z * string)) (r : Room) : Room :=
  mkRoom (players r) (foods r) (worldWidth r) (worldHeight r) (maxFoods r)
         (worldBoundaryCollisions r) (broadcasts r) v (draws r).

Definition set_draws (v : nat) (r : Room) : Room :=
  mkRoom (players r) (foods r) (worldWidth r) (worldHeight r) (maxFoods r)
         (worldBoundaryCollisions r) (broadcasts r) (timeouts r) v.

(** [this.tickRate]. *)
Definition tickRate : Z := 16.

(** [this.state.players.get(key)]. *)
Fixpoint getPlayer (key : string) (ps : list (string * Player.t))
  : option Player.t :=
  match ps with
  | [] => None
  | (k, p) :: rest => if String.eqb key k then Some p else getPlayer key rest
  end.

(** A mutation [f] of the player object stored under [key]. *)
Fixpoint alterPlayer (f : Player.t -> Player.t) (key : string)
  (ps : list (string * Player.t)) : list (string * Player.t) :=
  match ps with
  | [] => []
  | (k, p) :: rest =>
      if String.eqb key k then (k, f p) :: rest
      else (k, p) :: alterPlayer f key rest
  end.

Definition mutPlayer (key : string) (f : Player.t -> Player.t) (r : Room)
  : Room :=
  set_players (alterPlayer f key (players r)) r.

(** [this.broadcast(type, message)]. *)
Definition broadcast (e : Event) (r : Room) : Room :=
  set_broadcasts (broadcasts r ++ [e]) r.

(** [this.clock.setTimeout(..., delay)] for the player of session [key]. *)
Definition setTimeout (delay : Z) (key : string) (r : Room) : Room :=
  set_timeouts (timeouts r ++ [(delay, key)]) r.

(** ** The environment of the room

    What the room reads from outside and cannot compute with exact
    numbers: the trigonometry of a heading given in degrees, the successive
    values of [Math.random()] (each in [[0, 1)]), the food identifier
    built from [Date.now()] and a random draw, and the distance that the
    three proximity tests compare with their radius.

    [distance dx dy] is the number the code obtains for
    [Math.sqrt(dx * dx + dy * dy)] when the difference of the coordinates
    is [dx] on one axis and [dy] on the other: the differences, the
    products, their sum and the root are each rounded to a double, so the
    value may sit on a threshold that the exact distance misses by a
    rounding error.  The tests below compare this number, as the code
    does, and not the exact sum of squares. *)

Record Env : Type := mkEnv {
  cosDeg : Q -> Q;          (** [Math.cos(angle * DEG_TO_RAD)] *)
  sinDeg : Q -> Q;          (** [Math.sin(angle * DEG_TO_RAD)] *)
  random : nat -> Q;        (** the [n]-th value returned by [Math.random()] *)
  foodIdAt : nat -> string; (** the food id made with the [n]-th draw *)
  distance : Q -> Q -> Q    (** [Math.sqrt(dx * dx + dy * dy)] *)
}.

(** [players.forEach(callback)]: the keys in insertion order, the callback
    reading the objects from the current store. *)
Definition forEachPlayer (callback : string -> Room -> Room) (r : Room)
  : Room :=
  fold_left (fun acc key => callback key acc) (map fst (players r)) r.

(** ** Food economy *)

(** [getRandomPosition()]: two draws, [x] first. *)
Definition getRandomPosition (env : Env) (r : Room) : Vector2.t * Room :=
  let c := draws r in
  (Vector2.mk (random env c * worldWidth r)
              (random env (S c) * worldHeight r),
   set_draws (S (S c)) r).

(** [spawnFood()]. *)
Definition spawnFood (env : Env) (r : Room) : Room :=
  let '(position, r1) := getRandomPosition env r in
  let foodId := foodIdAt env (draws r1) in
  let r2 := set_draws (S (draws r1)) r1 in
  let value := if JS.ltb (random env (draws r2)) (5 # 100) then 5%Z else 1%Z in
  let r3 := set_draws (S (draws r2)) r2 in
  let food :=
    Food.new foodId (Vector2.x position) (Vector2.y position) value in
  let r4 := set_foods (<[foodId := food]> (foods r3)) r3 in
  broadcast
    (EvFoodSpawned foodId (Vector2.x position) (Vector2.y position) value) r4.

(** The replenishing step that closes [gameLoop]. *)
Definition topUp (env : Env) (r : Room) : Room :=
  if (size (foods r) <? maxFoods r)%nat then spawnFood env r else r.

(** One round of the loop of [spawnFoodFromDeadPlayer]: four draws (segment
    index, food id, the two jitters).  A draw in [[0, 1)] always names a
    segment; the default segment stands for the index that cannot occur. *)
Definition dropOne (env : Env) (segs : list SnakeSegment.t) (r : Room)
  : Room :=
  let c := draws r in
  let segmentIndex :=
    Z.to_nat (JS.floor (random env c * inject_Z (Z.of_nat (length segs)))) in
  let segment := nth segmentIndex segs (SnakeSegment.new 0 0) in
  let foodId := foodIdAt env (S c) in
  let foodX :=
    Vector2.x (SnakeSegment.position segment)
    + (random env (S (S c)) * 40 - 20) in
  let foodY :=
    Vector2.y (SnakeSegment.position segment)
    + (random env (S (S (S c))) * 40 - 20) in
  let food := Food.new foodId foodX foodY 1 in
  let r1 := set_draws (S (S (S (S c)))) r in
  let r2 := set_foods (<[foodId := food]> (foods r1)) r1 in
  broadcast (EvFoodSpawned foodId foodX foodY 1) r2.

Fixpoint dropLoop (env : Env) (n : nat) (segs : list SnakeSegment.t)
  (r : Room) : Room :=
  match n with
  | O => r
  | S n' => dropLoop env n' segs (dropOne env segs r)
  end.

(** [spawnFoodFromDeadPlayer(player)]. *)
Definition spawnFoodFromDeadPlayer (env : Env) (key : string) (r : Room)
  : Room :=
  match getPlayer key (players r) with
  | None => r
  | Some player =>
      let segs := Player.segments player in
      let foodPerSegment := Nat.min (length segs / 3) 20 in
      dropLoop env foodPerSegment segs r
  end.

(** ** Life cycle *)

(** [killPlayer(player)]. *)
Definition killPlayer (key : string) (r : Room) : Room :=
  match getPlayer key (players r) with
  | None => r
  | Some player =>
      broadcast (EvPlayerDied (Player.id player))
                (mutPlayer key (Player.set_alive false) r)
  end.

(** [killer.score += Math.floor(player.score / 2); killer.kills += 1],
    where [player] is the object under [victim]. *)
Definition creditKill (victim killer : string) (r : Room) : Room :=
  match getPlayer victim (players r) with
  | None => r
  | Some player =>
      mutPlayer killer
        (fun k =>
           Player.set_kills (Player.kills k + 1)%Z
             (Player.set_score
                (Player.score k + Player.score player / 2)%Z k))
        r
  end.

(** The five segments pushed by [respawnPlayer]. *)
Definition initialSegments (spawnPosition : Vector2.t)
  : list SnakeSegment.t :=
  fold_left
    (fun segs i =>
       segs ++ [SnakeSegment.new
                  (Vector2.x spawnPosition - inject_Z (Z.of_nat i) * 20)
                  (Vector2.y spawnPosition)])
    (seq 0 5) [].

(** [respawnPlayer(client)]. *)
Definition respawnPlayer (env : Env) (sessionId : string) (r : Room)
  : Room :=
  match getPlayer sessionId (players r) with
  | None => r
  | Some _ =>
      let '(spawnPosition, r1) := getRandomPosition env r in
      let r2 :=
        mutPlayer sessionId
          (fun p =>
             Player.set_segments []
               (Player.set_kills 0
                  (Player.set_score 0 (Player.set_alive true p)))) r1 in
      let r3 := mutPlayer sessionId (Player.set_invulnerable true) r2 in
      let r4 := setTimeout 3000 sessionId r3 in
      mutPlayer sessionId
        (fun p =>
           Player.set_segments
             (Player.segments p ++ initialSegments spawnPosition) p) r4
  end.

(** ** Movement *)

(** The boost block of [movePlayer]. *)
Definition boostCost (player : Player.t) : Player.t :=
  if Player.boosting player then
    let p1 :=
      Player.set_boostTime (Player.boostTime player + tickRate)%Z player in
    if (500 <=? Player.boostTime p1)%Z then
      let p2 := Player.set_boostTime 0 p1 in
      if (5 <? length (Player.segments p2))%nat then
        let p3 :=
          Player.set_score (Z.max 0 (Player.score p2 - 1)) p2 in
        if (5 <? length (Player.segments p3))%nat then
          Player.set_segments (removelast (Player.segments p3)) p3
        else Player.set_boosting false p3
      else Player.set_boosting false p2
    else p1
  else Player.set_boostTime 0 player.

(** The body loop of [movePlayer]: [i] runs from [segments.length - 1]
    down to [1], and [segments[i]] takes the coordinates of
    [segments[i - 1]]. *)
Fixpoint followLoop (i : nat) (segs : list SnakeSegment.t)
  : list SnakeSegment.t :=
  match i with
  | O => segs
  | S j =>
      match segs !! j with
      | Some prevSegment =>
          let pos := SnakeSegment.position prevSegment in
          followLoop j
            (<[S j := SnakeSegment.new (Vector2.x pos) (Vector2.y pos)]> segs)
      | None => segs
      end
  end.

(** [movePlayer(player)], on the player object; the room is read for the
    world size. *)
Definition movePlayer (env : Env) (r : Room) (player : Player.t) : Player.t :=
  if negb (Player.alive player)
     || (length (Player.segments player) =? 0)%nat
  then player
  else
    match Player.segments player with
    | [] => player
    | head :: _ =>
        let speedMultiplier := if Player.boosting player then 6 else 3 in
        let p1 := boostCost player in
        let dx :=
          cosDeg env (Player.angle player) * Player.speed p1
          * speedMultiplier in
        let dy :=
          sinDeg env (Player.angle player) * Player.speed p1
          * speedMultiplier in
        let newX :=
          wrapCoordinate (Vector2.x (SnakeSegment.position head) + dx)
                         (worldWidth r) in
        let newY :=
          wrapCoordinate (Vector2.y (SnakeSegment.position head) + dy)
                         (worldHeight r) in
        let followed :=
          followLoop (length (Player.segments p1) - 1) (Player.segments p1) in
        Player.updateHeadPosition
          (Player.set_segments (<[O := SnakeSegment.new newX newY]> followed)
             p1)
    end.

(** ** Collisions *)

(** [distance < headRadius + segmentRadius] for the head and one segment,
    with [distance = Math.sqrt(dx * dx + dy * dy)]. *)
Definition collides (env : Env) (head segment : SnakeSegment.t) : bool :=
  let dx :=
    Vector2.x (SnakeSegment.position head)
    - Vector2.x (SnakeSegment.position segment) in
  let dy :=
    Vector2.y (SnakeSegment.position head)
    - Vector2.y (SnakeSegment.position segment) in
  let distance := distance env dx dy in
  let headRadius := 8 in
  let segmentRadius := 6 in
  JS.ltb distance (headRadius + segmentRadius).

(** The scan of the segments of the other player from index 1 on: does it
    reach a collision? *)
Fixpoint scanBody (env : Env) (head : SnakeSegment.t)
  (body : list SnakeSegment.t) : bool :=
  match body with
  | [] => false
  | segment :: rest =>
      if collides env head segment then true else scanBody env head rest
  end.

(** The callback given to [players.forEach] in [checkPlayerCollisions];
    its [return] leaves the callback, and [forEach] goes on with the next
    player. *)
Definition collisionCallback (env : Env) (key : string)
  (head : SnakeSegment.t) (otherPlayerId : string) (r : Room) : Room :=
  match getPlayer key (players r), getPlayer otherPlayerId (players r) with
  | Some player, Some otherPlayer =>
      if String.eqb otherPlayerId (Player.id player)
         || negb (Player.alive otherPlayer)
      then r
      else if Player.invulnerable player then r
      else if scanBody env head (skipn 1 (Player.segments otherPlayer)) then
        let r1 := killPlayer key r in
        let r2 := creditKill key otherPlayerId r1 in
        let r3 :=
          broadcast
            (EvPlayerKilled (Player.id player) (Player.id otherPlayer)) r2 in
        spawnFoodFromDeadPlayer env key r3
      else r
  | _, _ => r
  end.

(** The test of the boundary branch. *)
Definition outOfWorld (head : SnakeSegment.t) (r : Room) : bool :=
  let pos := SnakeSegment.position head in
  JS.ltb (Vector2.x pos) 0 || JS.ltb (worldWidth r) (Vector2.x pos)
  || JS.ltb (Vector2.y pos) 0 || JS.ltb (worldHeight r) (Vector2.y pos).

(** [checkPlayerCollisions(player)]. *)
Definition checkPlayerCollisions (env : Env) (key : string) (r : Room)
  : Room :=
  match getPlayer key (players r) with
  | None => r
  | Some player =>
      if negb (Player.alive player) then r
      else
        match Player.segments player with
        | [] => r
        | head :: _ =>
            let r1 := forEachPlayer (collisionCallback env key head) r in
            if worldBoundaryCollisions r1 && outOfWorld head r1 then
              let r2 := killPlayer key r1 in
              let r3 :=
                broadcast (EvPlayerDiedNoKiller (Player.id player)) r2 in
              spawnFoodFromDeadPlayer env key r3
            else r1
        end
  end.

(** ** The tick *)

(** The callback of [gameLoop] for one player. *)
Definition gameLoopCallback (env : Env) (key : string) (r : Room) : Room :=
  match getPlayer key (players r) with
  | None => r
  | Some player =>
      if negb (Player.alive player) then r
      else
        checkPlayerCollisions env key (mutPlayer key (movePlayer env r) r)
  end.

(** [gameLoop()]. *)
Definition gameLoop (env : Env) (r : Room) : Room :=
  topUp env (forEachPlayer (gameLoopCallback env) r).

(** ** Message handlers *)

(** [onMessage("move")]. *)
Definition onMove (sessionId : string) (angle : Q) (r : Room) : Room :=
  match getPlayer sessionId (players r) with
  | None => r
  | Some player =>
      if Player.alive player
      then mutPlayer sessionId (Player.set_angle angle) r
      else r
  end.

(** [onMessage("boost")]. *)
Definition onBoost (sessionId : string) (active : bool) (r : Room) : Room :=
  match getPlayer sessionId (players r) with
  | None => r
  | Some player =>
      if Player.alive player then
        if active && (1 <=? Player.score player)%Z
        then mutPlayer sessionId (Player.set_boosting true) r
        else mutPlayer sessionId (Player.set_boosting false) r
      else r
  end.

(** [onMessage("respawn")]. *)
Definition onRespawn (env : Env) (sessionId : string) (r : Room) : Room :=
  respawnPlayer env sessionId r.

(** [distance <= maxDistance] for the offsets [dx], [dy], with
    [distance = Math.sqrt(dx * dx + dy * dy)]. *)
Definition withinDistance (env : Env) (dx dy maxDistance : Q) : bool :=
  let distance := distance env dx dy in
  JS.leb distance maxDistance.

(** [onMessage("eatFood")].  A living player without segments has no head
    to read: the handler stops there, before any change. *)
Definition onEatFood (env : Env) (sessionId foodId : string) (r : Room)
  : Room :=
  match getPlayer sessionId (players r) with
  | None => r
  | Some player =>
      if negb (Player.alive player) then r
      else
        match foods r !! foodId, Player.head player with
        | Some food, Some head =>
            let dx := Vector2.x head - Vector2.x (Food.position food) in
            let dy := Vector2.y head - Vector2.y (Food.position food) in
            let maxDistance := 250 in
            if withinDistance env dx dy maxDistance then
              let r1 :=
                mutPlayer sessionId
                  (fun p =>
                     Player.set_score
                       (Player.score p + Food.value food)%Z p) r in
              let segmentsToAdd :=
                if (1 <? Food.value food)%Z then 3%nat else 1%nat in
              let r2 :=
                mutPlayer sessionId
                  (Nat.iter segmentsToAdd Player.addSegment) r1 in
              let r3 :=
                broadcast
                  (EvFoodConsumed foodId (Player.id player) (Food.value food))
                  r2 in
              let r4 := set_foods (delete foodId (foods r3)) r3 in
              spawnFood env r4
            else r
        | _, _ => r
        end
  end.

(** A killer id is taken into account when it is a non-empty string. *)
Definition truthy (s : string) : bool := negb (String.eqb s EmptyString).

(** [onMessage("playerDied")] for a message that is an object:
    [killerSessionId] is its field of that name, [None] when the object has
    none.  (A killer id that is not a string names no player of the map and
    is handled as an absent one.) *)
Definition onPlayerDied (env : Env) (sessionId : string)
  (killerSessionId : option string) (r : Room) : Room :=
  match getPlayer sessionId (players r) with
  | None => r
  | Some player =>
      if negb (Player.alive player) then r
      else
        let r1 := killPlayer sessionId r in
        let r2 :=
          match killerSessionId with
          | Some killerId =>
              if truthy killerId then
                match getPlayer killerId (players r1) with
                | Some _ =>
                    broadcast (EvPlayerKilled (Player.id player) killerId)
                              (creditKill sessionId killerId r1)
                | None => r1
                end
              else r1
          | None => r1
          end in
        spawnFoodFromDeadPlayer env sessionId r2
  end.

(** ** Counting events *)

Definition isDeathOf (playerId : string) (e : Event) : bool :=
  match e with
  | EvPlayerDied p => String.eqb p playerId
  | EvPlayerDiedNoKiller p => String.eqb p playerId
  | _ => false
  end.

Definition isBoundaryDeath (e : Event) : bool :=
  match e with
  | EvPlayerDiedNoKiller _ => true
  | _ => false
  end.

Definition isFoodSpawned (e : Event) : bool :=
  match e with
  | EvFoodSpawned _ _ _ _ => true
  | _ => false
  end.

Definition countEvents (f : Event -> bool) (es : list Event) : nat :=
  length (List.filter f es).

(** ** Observations used in the statements *)

(** What the boost accounting reads and writes of a living player:
    the boosting flag, the accumulator, the score and the body length. *)
Definition BoostState (p : Player.t) (boosting : bool) (boostTime score : Z)
  (len : nat) : Prop :=
  Player.alive p = true
  /\ Player.boosting p = boosting
  /\ Player.boostTime p = boostTime
  /\ Player.score p = score
  /\ length (Player.segments p) = len.

(** [n] consecutive movement steps of one player. *)
Definition ticks (env : Env) (r : Room) (n : nat) (p : Player.t) : Player.t :=
  Nat.iter n (movePlayer env r) p.

(** The player object left by [respawnPlayer] when it finds [p] and draws
    the position [spawnPosition]. *)
Definition respawned (spawnPosition : Vector2.t) (p : Player.t) : Player.t :=
  Player.mk (Player.id p) (Player.name p) (Player.color p) (Player.skinId p)
            (Player.angle p) (Player.speed p) (Player.boosting p)
            (Player.boostTime p) 0 0 true true
            (initialSegments spawnPosition).

(** The food made by [spawnFood] in the room [r], and its event: position
    from draws [c] and [c + 1], id from draw [c + 2], value from draw
    [c + 3], where [c] counts the draws taken before. *)
Definition spawnedFood (env : Env) (r : Room) : Food.t :=
  let c := draws r in
  Food.new (foodIdAt env (S (S c)))
           (random env c * worldWidth r)
           (random env (S c) * worldHeight r)
           (if JS.ltb (random env (S (S (S c)))) (5 # 100) then 5%Z else 1%Z).

Definition spawnedEvent (f : Food.t) : Event :=
  EvFoodSpawned (Food.id f) (Vector2.x (Food.position f))
                (Vector2.y (Food.position f)) (Food.value f).

(** Between [r] and [r'] the world keeps its size and no boundary death is
    broadcast. *)
Definition Quiet (r r' : Room) : Prop :=
  worldWidth r' = worldWidth r
  /\ worldHeight r' = worldHeight r
  /\ exists es,
       broadcasts r' = broadcasts r ++ es
       /\ Forall (fun e => isBoundaryDeath e = false) es.

(** The player under [key] is dead, with the given heading angle, boosting
    flag and boost accumulator. *)
Definition Frozen (key : string) (a : Q) (b : bool) (t : Z) (r : Room)
  : Prop :=
  exists q,
    getPlayer key (players r) = Some q
    /\ Player.alive q = false
    /\ Player.angle q = a
    /\ Player.boosting q = b
    /\ Player.boostTime q = t.

(** ** Joining, leaving and starting the room *)

(** The palette [colors]. *)
Definition colors : list string :=
  ["#FF5733"; "#33FF57"; "#3357FF"; "#F3FF33";
   "#FF33F3"; "#33FFF3"; "#9933FF"; "#FF3333"].

(** [this.colors[skinId % this.colors.length]] for an integer skin id.
    The remainder has the sign of [skinId]; a negative index names no
    entry of the array, and the color is [undefined]. *)
Definition colorOf (skinId : Z) : option string :=
  let i := Z.rem skinId (Z.of_nat (length colors)) in
  if (i <? 0)%Z then None else colors !! Z.to_nat i.

(** [player.skinId = skinId]. *)
Definition set_skinId (v : Z) (p : Player.t) : Player.t :=
  Player.mk (Player.id p) (Player.name p) (Player.color p) v
            (Player.angle p) (Player.speed p) (Player.boosting p)
            (Player.boostTime p) (Player.score p) (Player.kills p)
            (Player.alive p) (Player.invulnerable p) (Player.segments p).

(** [this.state.players.set(key, player)]: an existing key keeps its place
    in the iteration order, a new key comes last. *)
Fixpoint setPlayer (key : string) (player : Player.t)
  (ps : list (string * Player.t)) : list (string * Player.t) :=
  match ps with
  | [] => [(key, player)]
  | (k, p) :: rest =>
      if String.eqb key k then (k, player) :: rest
      else (k, p) :: setPlayer key player rest
  end.

(** [this.state.players.delete(key)]. *)
Fixpoint deletePlayer (key : string) (ps : list (string * Player.t))
  : list (string * Player.t) :=
  match ps with
  | [] => []
  | (k, p) :: rest =>
      if String.eqb key k then deletePlayer key rest
      else (k, p) :: deletePlayer key rest
  end.

(** What [client.send] delivers to the joining client. *)
Inductive ClientMessage : Type :=
| MsgWelcome (id : string) (position : Vector2.t) (color : option string)
| MsgInitialFoods (foods : list (string * Food.t)).

(** [options.name || `Player ${client.sessionId.substr(0, 4)}`]. *)
Definition joinName (sessionId : string) (name : option string) : string :=
  let fallback := String.append "Player " (String.substring 0 4 sessionId) in
  match name with
  | Some n => if truthy n then n else fallback
  | None => fallback
  end.

(** [onJoin(client, options)].  The constructor of [Player] belongs to the
    schema file and is taken as the parameter [construct] (session id,
    name, x, y, color).  The foods sent to the client are listed with
    their keys; the order of the list is that of the [gmap], not the
    insertion order of the room. *)
Definition onJoin (env : Env)
  (construct : string -> string -> Q -> Q -> option string -> Player.t)
  (sessionId : string) (name : option string) (skinId : option Z) (r : Room)
  : Room * list ClientMessage :=
  let '(spawnPosition, r1) := getRandomPosition env r in
  let skin := match skinId with Some s => s | None => 0%Z end in
  let color := colorOf skin in
  let player :=
    set_skinId skin
      (construct sessionId (joinName sessionId name)
                 (Vector2.x spawnPosition) (Vector2.y spawnPosition) color) in
  let r2 := set_players (setPlayer sessionId player (players r1)) r1 in
  (r2,
   [MsgWelcome sessionId spawnPosition color;
    MsgInitialFoods (map_to_list (foods r2))]).

(** [onLeave(client, consented)]. *)
Definition onLeave (sessionId : string) (r : Room) : Room :=
  set_players (deletePlayer sessionId (players r)) r.

(** The loop of [initializeFood], [n] rounds to go. *)
Fixpoint initLoop (env : Env) (n : nat) (r : Room) : Room :=
  match n with
  | O => r
  | S n' => initLoop env n' (spawnFood env r)
  end.

(** [initializeFood()]. *)
Definition initializeFood (env : Env) (r : Room) : Room :=
  initLoop env (maxFoods r) r.

Definition set_worldBoundaryCollisions (v : bool) (r : Room) : Room :=
  mkRoom (players r) (foods r) (worldWidth r) (worldHeight r) (maxFoods r)
         v (broadcasts r) (timeouts r) (draws r).

(** [onCreate(options)], from the state made by [new SnakeGameState()]:
    the boundary flag is set and the food pool is filled.  (The handlers
    registered here are the [on...] functions; the interval runs
    [gameLoop].) *)
Definition onCreate (env : Env) (fresh : Room) : Room :=
  initializeFood env (set_worldBoundaryCollisions true fresh).

(** ** The unused killer lookup *)

(** What a call gives: a value, or a [TypeError] thrown on the way. *)
Inductive Outcome (A : Type) : Type :=
| Returns (a : A)
| Throws.

Arguments Returns {A} a.
Arguments Throws {A}.

(** [distance < collisionRadius + 8] in [getKillerSessionId], with
    [distance = Math.sqrt(dx * dx + dy * dy)]. *)
Definition withinKillRadius (env : Env) (headPosition : Vector2.t)
  (segment : SnakeSegment.t) : bool :=
  let dx := Vector2.x headPosition
            - Vector2.x (SnakeSegment.position segment) in
  let dy := Vector2.y headPosition
            - Vector2.y (SnakeSegment.position segment) in
  let distance := distance env dx dy in
  let collisionRadius := 10 in
  JS.ltb distance (collisionRadius + 8).

(** The inner loop of [getKillerSessionId], from index 1 on: is there a
    segment in range? *)
Fixpoint scanKill (env : Env) (headPosition : Vector2.t)
  (body : list SnakeSegment.t) : bool :=
  match body with
  | [] => false
  | segment :: rest =>
      if withinKillRadius env headPosition segment then true
      else scanKill env headPosition rest
  end.

(** The loop over [this.state.players.entries()]. *)
Fixpoint findKiller (env : Env) (headPosition : Vector2.t)
  (deadPlayerSessionId : string) (entries : list (string * Player.t))
  : option string :=
  match entries with
  | [] => None
  | (sessionId, player) :: rest =>
      if String.eqb sessionId deadPlayerSessionId
      then findKiller env headPosition deadPlayerSessionId rest
      else if scanKill env headPosition (skipn 1 (Player.segments player))
      then Some sessionId
      else findKiller env headPosition deadPlayerSessionId rest
  end.

(** [getKillerSessionId(deadPlayerSessionId)].  Reading
    [segments[0].position] of a body without segments throws. *)
Definition getKillerSessionId (env : Env) (deadPlayerSessionId : string)
  (r : Room) : Outcome (option string) :=
  match getPlayer deadPlayerSessionId (players r) with
  | None => Returns None
  | Some deadPlayer =>
      match Player.segments deadPlayer with
      | [] => Throws
      | head :: _ =>
          Returns (findKiller env (SnakeSegment.position head)
                              deadPlayerSessionId (players r))
      end
  end.

(** ** The [playerDied] message, with or without payload *)

(** How a handler ends. *)
Inductive Completion : Type :=
| Completes
| ThrowsTypeError.

(** [onMessage("playerDied", (client, message) => ...)] for every message.
    The parameter [message] is untyped and a client may send the intent
    without payload: [message] is then [undefined] ([None] here, as is a
    [null] payload).  The guard
    and [killPlayer] do not read it; [message.killerSessionId] does, and
    throws a [TypeError] that leaves the handler before the killer block and
    before [spawnFoodFromDeadPlayer].  [Some killerSessionId] is a message
    object, as in [onPlayerDied].  The result is the room that the handler
    leaves and the way it ends. *)
Definition onMessagePlayerDied (env : Env) (sessionId : string)
  (message : option (option string)) (r : Room) : Room * Completion :=
  match getPlayer sessionId (players r) with
  | None => (r, Completes)
  | Some player =>
      if negb (Player.alive player) then (r, Completes)
      else
        let r1 := killPlayer sessionId r in
        match message with
        | None => (r1, ThrowsTypeError)
        | Some killerSessionId =>
            let r2 :=
              match killerSessionId with
              | Some killerId =>
                  if truthy killerId then
                    match getPlayer killerId (players r1) with
                    | Some _ =>
                        broadcast
                          (EvPlayerKilled (Player.id player) killerId)
                          (creditKill sessionId killerId r1)
                    | None => r1
                    end
                  else r1
              | None => r1
              end in
            (spawnFoodFromDeadPlayer env sessionId r2, Completes)
        end
  end.

(** ** Steps of the room and its invariant *)

(** One callback of the room: a tick, or one message of a session. *)
Inductive Step (env : Env) : Room -> Room -> Prop :=
| StepTick (r : Room) : Step env r (gameLoop env r)
| StepMove (sessionId : string) (angle : Q) (r : Room) :
    Step env r (onMove sessionId angle r)
| StepBoost (sessionId : string) (active : bool) (r : Room) :
    Step env r (onBoost sessionId active r)
| StepRespawn (sessionId : string) (r : Room) :
    Step env r (onRespawn env sessionId r)
| StepEatFood (sessionId foodId : string) (r : Room) :
    Step env r (onEatFood env sessionId foodId r)
| StepPlayerDied (sessionId : string) (message : option (option string))
    (r : Room) :
    Step env r (fst (onMessagePlayerDied env sessionId message r))
| StepLeave (sessionId : string) (r : Room) :
    Step env r (onLeave sessionId r).

(** A player stored under [key] is sound: it carries its key as id, its
    score and kills are not negative, and its body has at least five
    segments. *)
Definition SoundPlayer (key : string) (p : Player.t) : Prop :=
  Player.id p = key
  /\ (0 <= Player.score p)%Z
  /\ (0 <= Player.kills p)%Z
  /\ (5 <= length (Player.segments p))%nat.

(** A food stored under [key] is sound: it carries its key as id and its
    value is 1 or 5. *)
Definition SoundFood (key : string) (f : Food.t) : Prop :=
  Food.id f = key /\ (Food.value f = 1%Z \/ Food.value f = 5%Z).

Definition Healthy (r : Room) : Prop :=
  (forall key p, getPlayer key (players r) = Some p -> SoundPlayer key p)
  /\ (forall key f, foods r !! key = Some f -> SoundFood key f).

(** A [playerKilled] event names two different players. *)
Definition noSelfKill (e : Event) : Prop :=
  match e with
  | EvPlayerKilled killed killer => killed <> killer
  | _ => True
  end.

(** The player under [key] is alive and invulnerable. *)
Definition Shielded (key : string) (r : Room) : Prop :=
  exists p,
    getPlayer key (players r) = Some p
    /\ Player.alive p = true
    /\ Player.invulnerable p = true.

(** A food spawned with value 1 within 20 units, on each axis, of a
    segment of [segs]. *)
Definition droppedNear (segs : list SnakeSegment.t) (e : Event) : Prop :=
  match e with
  | EvFoodSpawned _ x y value =>
      value = 1%Z
      /\ exists segment,
           In segment segs
           /\ Vector2.x (SnakeSegment.position segment) - 20 <= x
           /\ x < Vector2.x (SnakeSegment.position segment) + 20
           /\ Vector2.y (SnakeSegment.position segment) - 20 <= y
           /\ y < Vector2.y (SnakeSegment.position segment) + 20
  | _ => False
  end.

(** All the draws of the environment are in [[0, 1)]. *)
Definition unitDraws (env : Env) : Prop :=
  forall n, 0 <= random env n /\ random env n < 1.

(** Between [r] and [r'] the same sessions are in the room, in the same
    order, and the constants of the world are the same. *)
Definition SameCast (r r' : Room) : Prop :=
  map fst (players r') = map fst (players r)
  /\ worldWidth r' = worldWidth r
  /\ worldHeight r' = worldHeight r
  /\ maxFoods r' = maxFoods r
  /\ worldBoundaryCollisions r' = worldBoundaryCollisions r.

(** The events added between [r] and [r'] all satisfy [P]. *)
Definition Emits (P : Event -> Prop) (r r' : Room) : Prop :=
  exists es, broadcasts r' = broadcasts r ++ es /\ Forall P es.

(** What movement may do to a player: identity, name, color, skin, heading,
    speed, kills, liveness and invulnerability stay; the body does not grow
    and is not cut below five segments; a score that is not negative stays
    so and does not grow. *)
Definition MoveFrame (p p' : Player.t) : Prop :=
  Player.id p' = Player.id p
  /\ Player.name p' = Player.name p
  /\ Player.color p' = Player.color p
  /\ Player.skinId p' = Player.skinId p
  /\ Player.angle p' = Player.angle p
  /\ Player.speed p' = Player.speed p
  /\ Player.kills p' = Player.kills p
  /\ Player.alive p' = Player.alive p
  /\ Player.invulnerable p' = Player.invulnerable p
  /\ (length (Player.segments p') <= length (Player.segments p))%nat
  /\ (Nat.min 5 (length (Player.segments p))
      <= length (Player.segments p'))%nat
  /\ ((0 <= Player.score p)%Z ->
      (0 <= Player.score p' <= Player.score p)%Z).

(** The ids of the [n] foods that [spawnFood] makes in a row when [c]
    draws were taken before: each spawn takes four draws and makes its id
    with the third. *)
Fixpoint spawnIds (env : Env) (c n : nat) : list string :=
  match n with
  | O => []
  | S n' => foodIdAt env (S (S c)) :: spawnIds env (S (S (S (S c)))) n'
  end.


(** What [checkPlayerCollisions] does to the room when the head of the
    player under [key] hits the body of the player under [killer]: the
    kill, the transfer, the [playerKilled] event and the death drop, once. *)
Definition collisionOutcome (env : Env) (key killer : string)
  (killed killerId : string) (r : Room) : Room :=
  spawnFoodFromDeadPlayer env key
    (broadcast (EvPlayerKilled killed killerId)
       (creditKill key killer (killPlayer key r))).

(** ** Sample rooms

    Concrete environments, players and rooms on which the code is run. *)

Module Sample.

(** The root of the sum of squares, cut after nine decimals: the root
    itself when it has no more than nine. *)
Definition distance (dx dy : Q) : Q :=
  inject_Z
    (Z.sqrt (JS.floor ((dx * dx + dy * dy) * 1000000000000000000)))
  / 1000000000.

(** Every heading is due east, every draw is [1/2], the food ids are
    numbered by the draw that makes them, and distances are cut after nine
    decimals. *)
Definition env : Env :=
  mkEnv (fun _ => 1) (fun _ => 0) (fun _ => 1 # 2)
        (fun n => String.append "food_" (pretty n))
        distance.

(** A horizontal body of [n] segments, head at [(x, y)], 20 apart. *)
Definition body (x y : Q) (n : nat) : list SnakeSegment.t :=
  map (fun i => SnakeSegment.new (x - inject_Z (Z.of_nat i) * 20) y)
      (seq 0 n).

(** A living player heading east at speed 1. *)
Definition snake (id : string) (score : Z) (segs : list SnakeSegment.t)
  : Player.t :=
  Player.mk id id "#FF5733" 0 0 1 false 0 score 0 true false segs.

Definition world (ps : list (string * Player.t)) (fs : gmap string Food.t)
  (maxFoods : nat) : Room :=
  mkRoom ps fs 1000 1000 maxFoods true [] [] 0.

(** Three snakes.  After its move the head of [A] is at [(103, 100)],
    5 units from segment 1 of [B] and 5 units from segment 1 of [C]. *)
Definition A : Player.t := snake "A" 10 (body 100 100 6).

Definition B : Player.t :=
  snake "B" 0
    (SnakeSegment.new 200 100 :: SnakeSegment.new 103 105
       :: body 103 125 3).

Definition C : Player.t :=
  snake "C" 0
    (SnakeSegment.new 300 300 :: SnakeSegment.new 103 95
       :: body 103 75 3).

Definition arena : Room := world [("A", A); ("B", B); ("C", C)] ∅ 0.

(** A snake of ten segments that boosts, alone in the world. *)
Definition booster : Player.t :=
  Player.set_boosting true (snake "A" 10 (body 500 500 10)).

Definition track : Room := world [("A", booster)] ∅ 0.

(** [n] ticks of [movePlayer] for [booster]. *)
Definition boosted (n : nat) : Player.t :=
  ticks env track n booster.

(** One food of value 5 at distance 100 from the head of [A]. *)
Definition apple : Food.t := Food.new "apple" 200 100 5.

Definition orchard : Room :=
  world [("A", A)] {[ "apple" := apple ]} 1.

(** The same snake, dead. *)
Definition graveyard : Room :=
  world [("A", Player.set_alive false A)] ∅ 0.

(** An empty pool with a target of three foods. *)
Definition meadow : Room := world [("A", A)] ∅ 3.

(** A boosting snake of six segments. *)
Definition shortBooster : Player.t :=
  Player.set_boosting true (snake "A" 10 (body 500 500 6)).

End Sample.

(** ** More sample rooms *)

Module Demo.

(** The head of [A] is already 5 units from segment 1 of [B] and of [C]. *)
Definition clash : Room :=
  Sample.world
    [("A", Sample.snake "A" 10 (Sample.body 103 100 6));
     ("B", Sample.B); ("C", Sample.C)] ∅ 0.

(** The arena with [A] invulnerable. *)
Definition shielded : Room :=
  Sample.world
    [("A", Player.set_invulnerable true
             (Sample.snake "A" 10 (Sample.body 103 100 6)));
     ("B", Sample.B); ("C", Sample.C)] ∅ 0.

(** A new state: nobody in, no food, a target of three foods, the
    boundary flag not yet set. *)
Definition blank : Room := mkRoom [] ∅ 1000 1000 3 false [] [] 0.

(** A constructor for joining players: five segments, score 0, alive. *)
Definition construct (id name : string) (x y : Q) (color : option string)
  : Player.t :=
  Player.mk id name
            (match color with Some c => c | None => EmptyString end)
            0 0 1 false 0 0 0 true false (Sample.body x y 5).

(** Two snakes: the head of [A] is 5 units from segment 1 of [B]. *)
Definition duel : Room :=
  Sample.world
    [("A", Sample.snake "A" 10 (Sample.body 103 100 6));
     ("B", Sample.B)] ∅ 0.

End Demo.
(** ** Facts on the arithmetic helpers *)

Lemma ltb_true (a b : Q) : JS.ltb a b = true <-> a < b.
Proof.
  unfold JS.ltb. rewrite negb_true_iff.
  split; intros H.
  - apply Qnot_le_lt. intros Hle. apply Qle_bool_iff in Hle. congruence.
  - destruct (Qle_bool b a) eqn:E; [|reflexivity].
    apply Qle_bool_iff in E. exfalso. apply (Qlt_not_le _ _ H E).
Qed.

Lemma ltb_false (a b : Q) : JS.ltb a b = false <-> b <= a.
Proof.
  unfold JS.ltb. rewrite negb_false_iff. apply Qle_bool_iff.
Qed.

Lemma geb_true (a b : Q) : JS.geb a b = true <-> b <= a.
Proof. unfold JS.geb. apply Qle_bool_iff. Qed.

Lemma geb_false (a b : Q) : JS.geb a b = false <-> a < b.
Proof.
  unfold JS.geb. split; intros H.
  - apply Qnot_le_lt. intros Hle. apply Qle_bool_iff in Hle. congruence.
  - destruct (Qle_bool b a) eqn:E; [|reflexivity].
    apply Qle_bool_iff in E. exfalso. apply (Qlt_not_le _ _ H E).
Qed.

Lemma trunc_nonneg (q : Q) :
  0 <= q -> inject_Z (JS.trunc q) <= q /\ q < inject_Z (JS.trunc q) + 1.
Proof.
  intros Hq.
  assert (Hn : (0 <= Qnum q)%Z).
  { destruct q as [n d]. unfold Qle in Hq. simpl in *. lia. }
  assert (Ht : JS.trunc q = Qfloor q).
  { destruct q as [n d]. unfold JS.trunc. simpl in *.
    apply Z.quot_div_nonneg; lia. }
  rewrite Ht. split.
  - apply Qfloor_le.
  - pose proof (Qlt_floor q) as H. rewrite inject_Z_plus in H. exact H.
Qed.

Lemma trunc_opp (q : Q) : JS.trunc (- q) = (- JS.trunc q)%Z.
Proof.
  destruct q as [n d]. unfold JS.trunc. simpl. apply Z.quot_opp_l. lia.
Qed.

Lemma trunc_neg (q : Q) :
  q <= 0 -> inject_Z (JS.trunc q) - 1 < q /\ q <= inject_Z (JS.trunc q).
Proof.
  intros Hq.
  assert (H0 : 0 <= - q) by lra.
  destruct (trunc_nonneg (- q) H0) as [H1 H2].
  rewrite trunc_opp in H1, H2. rewrite inject_Z_opp in H1, H2.
  split; lra.
Qed.

Lemma rem_factor (a b : Q) :
  ~ b == 0 -> JS.rem a b == b * (a / b - inject_Z (JS.trunc (a / b))).
Proof.
  intros Hb. unfold JS.rem. field. exact Hb.
Qed.

(** For a non-negative dividend the remainder lies in [[0, b)]. *)
Lemma rem_nonneg (a b : Q) :
  0 < b -> 0 <= a -> 0 <= JS.rem a b /\ JS.rem a b < b.
Proof.
  intros Hb Ha.
  assert (Hb0 : ~ b == 0) by (intros E; rewrite E in Hb; lra).
  assert (Hq : 0 <= a / b).
  { unfold Qdiv. apply Qmult_le_0_compat; [exact Ha|].
    apply Qlt_le_weak, Qinv_lt_0_compat, Hb. }
  destruct (trunc_nonneg _ Hq) as [H1 H2].
  rewrite (rem_factor a b Hb0).
  set (t := inject_Z (JS.trunc (a / b))) in *.
  set (q := a / b) in *.
  split; nra.
Qed.

(** For a negative dividend the remainder lies in [(-b, 0]]. *)
Lemma rem_neg (a b : Q) :
  0 < b -> a <= 0 -> - b < JS.rem a b /\ JS.rem a b <= 0.
Proof.
  intros Hb Ha.
  assert (Hb0 : ~ b == 0) by (intros E; rewrite E in Hb; lra).
  assert (Hq : a / b <= 0).
  { assert (Hi : 0 < / b) by (apply Qinv_lt_0_compat, Hb).
    unfold Qdiv. nra. }
  destruct (trunc_neg _ Hq) as [H1 H2].
  rewrite (rem_factor a b Hb0).
  set (t := inject_Z (JS.trunc (a / b))) in *.
  set (q := a / b) in *.
  split; nra.
Qed.

(** The wrapped coordinate never leaves the closed interval [[0, max]]. *)
Lemma wrapCoordinate_closed (value max : Q) :
  0 < max -> 0 <= wrapCoordinate value max /\ wrapCoordinate value max <= max.
Proof.
  intros Hm. unfold wrapCoordinate.
  destruct (JS.ltb value 0) eqn:E1.
  - apply ltb_true in E1.
    destruct (rem_neg value max Hm) as [H1 H2]; [lra|]. split; lra.
  - apply ltb_false in E1.
    destruct (JS.geb value max) eqn:E2.
    + destruct (rem_nonneg value max Hm E1) as [H1 H2]. split; lra.
    + apply geb_false in E2. split; lra.
Qed.

(** From [0] upward the wrapped coordinate is in the half-open [[0, max)]. *)
Lemma wrapCoordinate_nonneg_input (value max : Q) :
  0 < max -> 0 <= value ->
  0 <= wrapCoordinate value max /\ wrapCoordinate value max < max.
Proof.
  intros Hm Hv. unfold wrapCoordinate.
  destruct (JS.ltb value 0) eqn:E1.
  - apply ltb_true in E1. lra.
  - destruct (JS.geb value max) eqn:E2.
    + apply rem_nonneg; assumption.
    + apply geb_false in E2. split; lra.
Qed.


(** ** The player store *)

Lemma getPlayer_alter_eq (f : Player.t -> Player.t) (key : string)
  (ps : list (string * Player.t)) :
  getPlayer key (alterPlayer f key ps) = option_map f (getPlayer key ps).
Proof.
  induction ps as [|[k p] rest IH]; simpl; [reflexivity|].
  destruct (String.eqb key k) eqn:E; simpl; rewrite E; auto.
Qed.

Lemma getPlayer_alter_ne (f : Player.t -> Player.t) (key k : string)
  (ps : list (string * Player.t)) :
  k <> key -> getPlayer k (alterPlayer f key ps) = getPlayer k ps.
Proof.
  intros Hne.
  induction ps as [|[k' p] rest IH]; simpl; [reflexivity|].
  destruct (String.eqb key k') eqn:E; simpl.
  - apply String.eqb_eq in E. subst k'.
    destruct (String.eqb k key) eqn:E'; [|reflexivity].
    apply String.eqb_eq in E'. contradiction.
  - destruct (String.eqb k k'); auto.
Qed.

Lemma keys_alter (f : Player.t -> Player.t) (key : string)
  (ps : list (string * Player.t)) :
  map fst (alterPlayer f key ps) = map fst ps.
Proof.
  induction ps as [|[k p] rest IH]; simpl; [reflexivity|].
  destruct (String.eqb key k); simpl; congruence.
Qed.

Lemma alterPlayer_absent (f : Player.t -> Player.t) (key : string)
  (ps : list (string * Player.t)) :
  getPlayer key ps = None -> alterPlayer f key ps = ps.
Proof.
  induction ps as [|[k p] rest IH]; simpl; [reflexivity|].
  destruct (String.eqb key k); [discriminate|].
  intros H. rewrite (IH H). reflexivity.
Qed.

Lemma segment_eta (s : SnakeSegment.t) :
  SnakeSegment.new (Vector2.x (SnakeSegment.position s))
                   (Vector2.y (SnakeSegment.position s)) = s.
Proof. destruct s as [[a b]]. reflexivity. Qed.

(** ** The wrap of a coordinate at a negative multiple of the dimension *)

Lemma trunc_integer (q : Q) (z : Z) : q == inject_Z z -> JS.trunc q = z.
Proof.
  destruct q as [n d]. unfold Qeq, JS.trunc. simpl. intros H.
  rewrite Z.mul_1_r in H. rewrite H. apply Z.quot_mul. lia.
Qed.

Lemma wrapCoordinate_negative_multiple (max : Q) (k : positive) :
  0 < max -> wrapCoordinate (- (inject_Z (Zpos k) * max)) max == max.
Proof.
  intros Hm.
  assert (Hm0 : ~ max == 0) by (intros E; rewrite E in Hm; lra).
  assert (Hk : 0 < inject_Z (Zpos k)).
  { replace 0 with (inject_Z 0) by reflexivity. rewrite <- Zlt_Qlt. lia. }
  unfold wrapCoordinate.
  assert (Hneg : - (inject_Z (Zpos k) * max) < 0) by nra.
  apply ltb_true in Hneg. rewrite Hneg.
  unfold JS.rem.
  rewrite (trunc_integer _ (Zneg k)).
  - change (Zneg k) with (- Zpos k)%Z. rewrite inject_Z_opp. ring.
  - change (Zneg k) with (- Zpos k)%Z. rewrite inject_Z_opp.
    field. exact Hm0.
Qed.

(** C2.  The wrap of [movePlayer] does not keep every coordinate in the
    half-open interval [[0, dimension)]: at the input [-dimension] (here
    [-1000] in a world of width [1000]) the negative branch returns
    [dimension + (-0)], that is the dimension itself, although the branch
    for [value >= max] sends the dimension to [0]. *)
Theorem wrapCoordinate_minus_dimension :
  wrapCoordinate (-1000) 1000 == 1000
  /\ ~ (0 <= wrapCoordinate (-1000) 1000 /\ wrapCoordinate (-1000) 1000 < 1000)
  /\ wrapCoordinate 1000 1000 == 0.
Proof.
  split; [|split].
  - vm_compute. reflexivity.
  - intros [_ H]. vm_compute in H. discriminate.
  - vm_compute. reflexivity.
Qed.

(** ** The body follows the head *)

Lemma followLoop_length (k : nat) (segs : list SnakeSegment.t) :
  length (followLoop k segs) = length segs.
Proof.
  revert segs. induction k as [|j IH]; intros segs; simpl; [reflexivity|].
  destruct (segs !! j) as [prev|]; [|reflexivity].
  rewrite IH. apply length_insert.
Qed.

(** After the loop started at [k], the segments [1..k] hold what their
    predecessors held, the others are as before. *)
Lemma followLoop_lookup (k : nat) (segs : list SnakeSegment.t) (i : nat) :
  (k < length segs)%nat ->
  followLoop k segs !! i =
    if (0 <? i)%nat && (i <=? k)%nat then segs !! (i - 1)%nat else segs !! i.
Proof.
  revert segs. induction k as [|j IH]; intros segs Hk; simpl.
  - destruct (0 <? i)%nat eqn:E0; simpl; [|reflexivity].
    destruct (i <=? 0)%nat eqn:E1; [|reflexivity].
    apply Nat.ltb_lt in E0. apply Nat.leb_le in E1. lia.
  - destruct (lookup_lt_is_Some_2 segs j) as [prev Hprev]; [lia|].
    rewrite Hprev. rewrite IH by (rewrite length_insert; lia).
    rewrite segment_eta.
    destruct (0 <? i)%nat eqn:E0; simpl.
    + apply Nat.ltb_lt in E0.
      destruct (i <=? j)%nat eqn:E1.
      * apply Nat.leb_le in E1.
        assert (E2 : (i <=? S j)%nat = true) by (apply Nat.leb_le; lia).
        rewrite E2. apply list_lookup_insert_ne. lia.
      * apply Nat.leb_gt in E1.
        destruct (i <=? S j)%nat eqn:E2.
        -- apply Nat.leb_le in E2. assert (i = S j) by lia. subst i.
           rewrite list_lookup_insert_eq by lia.
           simpl. rewrite Nat.sub_0_r. symmetry. exact Hprev.
        -- apply Nat.leb_gt in E2. apply list_lookup_insert_ne. lia.
    + apply Nat.ltb_ge in E0. assert (i = O) by lia. subst i.
      apply list_lookup_insert_ne. lia.
Qed.

Lemma removelast_lookup {A : Type} (l : list A) (i : nat) :
  (S i < length l)%nat -> removelast l !! i = l !! i.
Proof.
  revert i. induction l as [|a l IH]; intros i Hi; simpl in *; [lia|].
  destruct l as [|b l]; simpl in *; [lia|].
  destruct i as [|i]; [reflexivity|].
  simpl. apply (IH i). lia.
Qed.

Lemma removelast_length {A : Type} (l : list A) :
  length (removelast l) = (length l - 1)%nat.
Proof.
  induction l as [|a l IH]; simpl; [reflexivity|].
  destruct l as [|b l]; simpl in *; [reflexivity|]. lia.
Qed.

(** The boost block leaves the body as it is or pops its last segment, and
    never pops from a body of five segments or less. *)
Lemma boostCost_segments (p : Player.t) :
  Player.segments (boostCost p) = Player.segments p
  \/ ((5 < length (Player.segments p))%nat
      /\ Player.segments (boostCost p) = removelast (Player.segments p)).
Proof.
  unfold boostCost.
  destruct (Player.boosting p); [|left; reflexivity].
  destruct (500 <=? _)%Z; [|left; reflexivity].
  simpl.
  destruct (5 <? length (Player.segments p))%nat eqn:E; simpl;
    [|left; reflexivity].
  right. split; [apply Nat.ltb_lt, E|reflexivity].
Qed.

Lemma boostCost_lookup (p : Player.t) (i : nat) :
  (S i < length (Player.segments (boostCost p)))%nat ->
  Player.segments (boostCost p) !! i = Player.segments p !! i.
Proof.
  destruct (boostCost_segments p) as [H|[H5 H]]; rewrite H; [reflexivity|].
  rewrite removelast_length. intros Hi. apply removelast_lookup. lia.
Qed.

(** The segments of a living player with a body after [movePlayer]. *)
Lemma movePlayer_segments (env : Env) (r : Room) (p : Player.t)
  (head : SnakeSegment.t) (rest : list SnakeSegment.t) :
  Player.alive p = true ->
  Player.segments p = head :: rest ->
  Player.segments (movePlayer env r p) =
    <[O := SnakeSegment.new
             (wrapCoordinate
                (Vector2.x (SnakeSegment.position head)
                 + cosDeg env (Player.angle p) * Player.speed p
                   * (if Player.boosting p then 6 else 3))
                (worldWidth r))
             (wrapCoordinate
                (Vector2.y (SnakeSegment.position head)
                 + sinDeg env (Player.angle p) * Player.speed p
                   * (if Player.boosting p then 6 else 3))
                (worldHeight r))]>
      (followLoop (length (Player.segments (boostCost p)) - 1)
                  (Player.segments (boostCost p))).
Proof.
  intros Ha Hs. unfold movePlayer. rewrite Ha, Hs. simpl.
  assert (Hsp : Player.speed (boostCost p) = Player.speed p).
  { unfold boostCost.
    repeat match goal with |- context [if ?c then _ else _] => destruct c end;
      reflexivity. }
  rewrite Hsp. reflexivity.
Qed.

Lemma boostCost_nonempty (p : Player.t) :
  Player.segments p <> [] -> Player.segments (boostCost p) <> [].
Proof.
  intros Hne. destruct (boostCost_segments p) as [H|[H5 H]]; rewrite H; auto.
  intros E. apply (f_equal (@length _)) in E.
  rewrite removelast_length in E. simpl in E. lia.
Qed.

(** The length of the body after the boost block: one segment less when a
    charge falls due on a body of more than five segments. *)
Lemma boostCost_length (p : Player.t) :
  length (Player.segments (boostCost p))
  = if Player.boosting p
       && (500 <=? Player.boostTime p + tickRate)%Z
       && (5 <? length (Player.segments p))%nat
    then (length (Player.segments p) - 1)%nat
    else length (Player.segments p).
Proof.
  unfold boostCost.
  destruct (Player.boosting p); [|reflexivity].
  simpl.
  destruct (500 <=? Player.boostTime p + tickRate)%Z; [|reflexivity].
  simpl.
  destruct (5 <? length (Player.segments p))%nat; simpl; [|reflexivity].
  apply removelast_length.
Qed.

(** C7.  Follow the leader: for a living player with at least one segment,
    one movement step keeps the length of the body (less the one segment
    popped from the tail when a boost charge falls due on a body of more
    than five), every segment of index [i > 0] of the body after the step
    holds exactly the position that segment [i - 1] held before the step,
    and the head, written last, holds the wrapped new position. *)
Theorem follow_the_leader (env : Env) (r : Room) (p : Player.t) :
  Player.alive p = true ->
  (1 <= length (Player.segments p))%nat ->
  length (Player.segments (movePlayer env r p))
  = (if Player.boosting p
        && (500 <=? Player.boostTime p + tickRate)%Z
        && (5 <? length (Player.segments p))%nat
     then (length (Player.segments p) - 1)%nat
     else length (Player.segments p))
  /\ (forall i : nat,
        (0 < i)%nat ->
        (i < length (Player.segments (movePlayer env r p)))%nat ->
        Player.segments (movePlayer env r p) !! i
        = Player.segments p !! (i - 1)%nat)
  /\ exists head,
       Player.segments p !! O = Some head
       /\ Player.segments (movePlayer env r p) !! O =
            Some (SnakeSegment.new
                    (wrapCoordinate
                       (Vector2.x (SnakeSegment.position head)
                        + cosDeg env (Player.angle p) * Player.speed p
                          * (if Player.boosting p then 6 else 3))
                       (worldWidth r))
                    (wrapCoordinate
                       (Vector2.y (SnakeSegment.position head)
                        + sinDeg env (Player.angle p) * Player.speed p
                          * (if Player.boosting p then 6 else 3))
                       (worldHeight r))).
Proof.
  intros Ha Hlen.
  pose proof (boostCost_length p) as Hbl.
  destruct (Player.segments p) as [|head rest] eqn:Hs; [simpl in Hlen; lia|].
  assert (Hne : Player.segments (boostCost p) <> []).
  { apply boostCost_nonempty. rewrite Hs. discriminate. }
  assert (Hpos : (0 < length (Player.segments (boostCost p)))%nat).
  { destruct (Player.segments (boostCost p)); [contradiction|simpl; lia]. }
  rewrite (movePlayer_segments env r p head rest Ha Hs).
  rewrite length_insert, followLoop_length.
  split; [exact Hbl|]. split.
  - intros i Hi Hi'.
    rewrite list_lookup_insert_ne by lia.
    rewrite followLoop_lookup by lia.
    assert (E0 : (0 <? i)%nat = true) by (apply Nat.ltb_lt; lia).
    assert (E1 : (i <=? length (Player.segments (boostCost p)) - 1)%nat = true)
      by (apply Nat.leb_le; lia).
    rewrite E0, E1. simpl.
    rewrite boostCost_lookup by lia. rewrite Hs. reflexivity.
  - exists head. split; [reflexivity|].
    apply list_lookup_insert_eq.
    rewrite followLoop_length. lia.
Qed.

(** ** The cost of boosting *)

Lemma movePlayer_boost_fields (env : Env) (r : Room) (p : Player.t) :
  Player.alive p = true ->
  Player.segments p <> [] ->
  Player.alive (movePlayer env r p) = true
  /\ Player.boosting (movePlayer env r p) = Player.boosting (boostCost p)
  /\ Player.boostTime (movePlayer env r p) = Player.boostTime (boostCost p)
  /\ Player.score (movePlayer env r p) = Player.score (boostCost p)
  /\ length (Player.segments (movePlayer env r p))
     = length (Player.segments (boostCost p)).
Proof.
  intros Ha Hne.
  destruct (Player.segments p) as [|head rest] eqn:Hs; [contradiction|].
  assert (Hal : Player.alive (boostCost p) = true).
  { unfold boostCost.
    repeat match goal with |- context [if ?c then _ else _] => destruct c end;
      exact Ha. }
  rewrite (movePlayer_segments env r p head rest Ha Hs).
  rewrite length_insert, followLoop_length.
  unfold movePlayer. rewrite Ha, Hs. simpl.
  repeat split; assumption.
Qed.

(** One tick of a boosting player: the accumulator grows by the tick
    interval; when it reaches 500 it is reset, and a body of more than five
    segments pays one segment and one point, a shorter one stops boosting. *)
Lemma boost_tick (env : Env) (r : Room) (p : Player.t) (t s : Z) (len : nat) :
  BoostState p true t s len ->
  (1 <= len)%nat ->
  BoostState (movePlayer env r p)
    (if (500 <=? t + 16)%Z then (5 <? len)%nat else true)
    (if (500 <=? t + 16)%Z then 0%Z else (t + 16)%Z)
    (if (500 <=? t + 16)%Z && (5 <? len)%nat then Z.max 0 (s - 1) else s)
    (if (500 <=? t + 16)%Z && (5 <? len)%nat then (len - 1)%nat else len).
Proof.
  intros (Ha & Hb & Ht & Hs & Hl) Hlen.
  assert (Hne : Player.segments p <> []).
  { intros E. rewrite E in Hl. simpl in Hl. lia. }
  destruct (movePlayer_boost_fields env r p Ha Hne)
    as (Ha' & Hb' & Ht' & Hs' & Hl').
  unfold BoostState. rewrite Ha', Hb', Ht', Hs', Hl'.
  split; [reflexivity|].
  unfold boostCost, tickRate. rewrite Hb. simpl. rewrite Ht.
  destruct (500 <=? t + 16)%Z; simpl; [|auto].
  rewrite Hl.
  destruct (5 <? len)%nat eqn:E; simpl; [|auto].
  rewrite removelast_length, Hl, Hs. auto.
Qed.

Lemma ticks_succ (env : Env) (r : Room) (n : nat) (p : Player.t) :
  ticks env r (S n) p = movePlayer env r (ticks env r n p).
Proof. reflexivity. Qed.

Lemma ticks_add (env : Env) (r : Room) (n m : nat) (p : Player.t) :
  ticks env r (n + m) p = ticks env r n (ticks env r m p).
Proof.
  induction n as [|n IH]; [reflexivity|].
  change (S n + m)%nat with (S (n + m)).
  rewrite !ticks_succ, IH. reflexivity.
Qed.

(** While the accumulator stays below 500 nothing is charged. *)
Lemma boost_idle (env : Env) (r : Room) (p : Player.t) (t s : Z) (len k : nat) :
  BoostState p true t s len ->
  (1 <= len)%nat ->
  (t + 16 * Z.of_nat k < 500)%Z ->
  BoostState (ticks env r k p) true (t + 16 * Z.of_nat k) s len.
Proof.
  intros Hp Hlen. induction k as [|k IH]; intros Hk.
  - simpl. replace (t + 16 * Z.of_nat 0)%Z with t by lia. exact Hp.
  - rewrite ticks_succ.
    pose proof (boost_tick env r _ _ _ _ (IH ltac:(lia)) Hlen) as H.
    assert (E : (500 <=? t + 16 * Z.of_nat k + 16)%Z = false)
      by (apply Z.leb_gt; lia).
    rewrite E in H. simpl in H.
    replace (t + 16 * Z.of_nat (S k))%Z with (t + 16 * Z.of_nat k + 16)%Z
      by lia.
    exact H.
Qed.

(** From an empty accumulator the charge falls on the 32nd tick: a body of
    more than five segments pays one segment and one point. *)
Lemma boost_period (env : Env) (r : Room) (p : Player.t) (s : Z) (len : nat) :
  BoostState p true 0 s len ->
  (5 < len)%nat ->
  BoostState (ticks env r 32 p) true 0 (Z.max 0 (s - 1)) (len - 1).
Proof.
  intros Hp Hlen.
  change 32%nat with (S 31). rewrite ticks_succ.
  pose proof (boost_idle env r p 0 s len 31 Hp ltac:(lia) ltac:(lia)) as H.
  pose proof (boost_tick env r _ _ _ _ H ltac:(lia)) as H'.
  assert (E : (5 <? len)%nat = true) by (apply Nat.ltb_lt; lia).
  rewrite E in H'. exact H'.
Qed.

(** With five segments or less, the 32nd tick switches boosting off and
    takes nothing. *)
Lemma boost_stop (env : Env) (r : Room) (p : Player.t) (s : Z) (len : nat) :
  BoostState p true 0 s len ->
  (1 <= len <= 5)%nat ->
  BoostState (ticks env r 32 p) false 0 s len.
Proof.
  intros Hp Hlen.
  change 32%nat with (S 31). rewrite ticks_succ.
  pose proof (boost_idle env r p 0 s len 31 Hp ltac:(lia) ltac:(lia)) as H.
  pose proof (boost_tick env r _ _ _ _ H ltac:(lia)) as H'.
  assert (E : (5 <? len)%nat = false) by (apply Nat.ltb_ge; lia).
  rewrite E in H'. exact H'.
Qed.

(** C4, amended.  A player that starts boosting with an empty accumulator
    is charged on every 32nd tick of 16 ms (the accumulator reaches 512),
    that is every 512 ms.  With at least seven segments, at every tick
    count from 64 to 95, among them the 93 and 94 ticks that surround
    1500 ms, exactly 2 segments and 2 score points (floored at 0) are gone
    and the player still boosts; the third is taken at tick 96, after
    1536 ms.  A charge that finds five segments or less takes nothing and
    switches boosting off; one that finds six leaves five and boosting on. *)
Theorem boost_cost_schedule (env : Env) (r : Room) (p : Player.t) :
  Player.alive p = true ->
  Player.boosting p = true ->
  Player.boostTime p = 0%Z ->
  let len := length (Player.segments p) in
  let s := Player.score p in
  ((7 <= len)%nat ->
   forall n, (64 <= n < 96)%nat ->
     length (Player.segments (ticks env r n p)) = (len - 2)%nat
     /\ Player.score (ticks env r n p) = Z.max 0 (s - 2)
     /\ Player.boosting (ticks env r n p) = true)
  /\ ((8 <= len)%nat ->
      length (Player.segments (ticks env r 96 p)) = (len - 3)%nat
      /\ Player.score (ticks env r 96 p) = Z.max 0 (s - 3))
  /\ ((1 <= len <= 5)%nat ->
      Player.boosting (ticks env r 32 p) = false
      /\ length (Player.segments (ticks env r 32 p)) = len
      /\ Player.score (ticks env r 32 p) = s)
  /\ (len = 6%nat ->
      Player.boosting (ticks env r 32 p) = true
      /\ length (Player.segments (ticks env r 32 p)) = 5%nat
      /\ Player.boosting (ticks env r 64 p) = false
      /\ length (Player.segments (ticks env r 64 p)) = 5%nat).
Proof.
  intros Ha Hb Ht len s.
  assert (Hp : BoostState p true 0 s len) by (repeat split; assumption).
  split; [|split; [|split]].
  - intros Hlen n Hn.
    pose proof (boost_period env r p s len Hp ltac:(lia)) as H1.
    pose proof (boost_period env r _ _ _ H1 ltac:(lia)) as H2.
    rewrite <- (ticks_add env r 32 32 p) in H2. simpl Nat.add in H2.
    pose proof (boost_idle env r _ _ _ _ (n - 64) H2 ltac:(lia) ltac:(lia))
      as H3.
    rewrite <- ticks_add in H3.
    replace (n - 64 + 64)%nat with n in H3 by lia.
    destruct H3 as (_ & Hb3 & _ & Hs3 & Hl3).
    rewrite Hl3, Hs3, Hb3. repeat split; lia.
  - intros Hlen.
    pose proof (boost_period env r p s len Hp ltac:(lia)) as H1.
    pose proof (boost_period env r _ _ _ H1 ltac:(lia)) as H2.
    pose proof (boost_period env r _ _ _ H2 ltac:(lia)) as H3.
    rewrite <- !ticks_add in H3. simpl Nat.add in H3.
    destruct H3 as (_ & _ & _ & Hs3 & Hl3).
    rewrite Hl3, Hs3. split; lia.
  - intros Hlen.
    destruct (boost_stop env r p s len Hp Hlen) as (_ & Hb1 & _ & Hs1 & Hl1).
    auto.
  - intros Hlen.
    pose proof (boost_period env r p s len Hp ltac:(lia)) as H1.
    pose proof (boost_stop env r _ _ _ H1 ltac:(lia)) as H2.
    rewrite <- ticks_add in H2. simpl Nat.add in H2.
    destruct H1 as (_ & Hb1 & _ & _ & Hl1).
    destruct H2 as (_ & Hb2 & _ & _ & Hl2).
    rewrite Hb1, Hl1, Hb2, Hl2. repeat split; lia.
Qed.

(** ** Death and respawn *)

Lemma getPlayer_mutPlayer_eq (key : string) (f : Player.t -> Player.t)
  (r : Room) :
  getPlayer key (players (mutPlayer key f r))
  = option_map f (getPlayer key (players r)).
Proof. apply getPlayer_alter_eq. Qed.

Lemma getPlayer_mutPlayer_ne (key k : string) (f : Player.t -> Player.t)
  (r : Room) :
  k <> key ->
  getPlayer k (players (mutPlayer key f r)) = getPlayer k (players r).
Proof. apply getPlayer_alter_ne. Qed.

Lemma killPlayer_found (key : string) (r : Room) (p : Player.t) :
  getPlayer key (players r) = Some p ->
  killPlayer key r
  = broadcast (EvPlayerDied (Player.id p))
              (mutPlayer key (Player.set_alive false) r).
Proof. intros H. unfold killPlayer. rewrite H. reflexivity. Qed.

Lemma killPlayer_victim (key : string) (r : Room) (p : Player.t) :
  getPlayer key (players r) = Some p ->
  getPlayer key (players (killPlayer key r))
  = Some (Player.set_alive false p).
Proof.
  intros H. rewrite (killPlayer_found key r p H). simpl.
  rewrite getPlayer_alter_eq, H. reflexivity.
Qed.

Lemma killPlayer_others (key k : string) (r : Room) :
  k <> key ->
  getPlayer k (players (killPlayer key r)) = getPlayer k (players r).
Proof.
  intros Hne. unfold killPlayer.
  destruct (getPlayer key (players r)); [|reflexivity].
  simpl. apply getPlayer_alter_ne, Hne.
Qed.

Lemma respawnPlayer_player (env : Env) (sessionId : string) (r : Room)
  (p : Player.t) :
  getPlayer sessionId (players r) = Some p ->
  getPlayer sessionId (players (respawnPlayer env sessionId r))
  = Some (respawned (fst (getRandomPosition env r)) p).
Proof.
  intros H. unfold respawnPlayer. rewrite H. simpl.
  rewrite !getPlayer_alter_eq, H. reflexivity.
Qed.

Lemma respawnPlayer_others (env : Env) (sessionId k : string) (r : Room) :
  k <> sessionId ->
  getPlayer k (players (respawnPlayer env sessionId r))
  = getPlayer k (players r).
Proof.
  intros Hne. unfold respawnPlayer.
  destruct (getPlayer sessionId (players r)); [|reflexivity].
  simpl. rewrite !getPlayer_alter_ne by exact Hne. reflexivity.
Qed.

Lemma respawnPlayer_timeouts (env : Env) (sessionId : string) (r : Room)
  (p : Player.t) :
  getPlayer sessionId (players r) = Some p ->
  timeouts (respawnPlayer env sessionId r)
  = timeouts r ++ [(3000%Z, sessionId)].
Proof. intros H. unfold respawnPlayer. rewrite H. reflexivity. Qed.

(** C3, amended.  A respawn request is handled for every player that is in
    the room, dead or alive: the player is made Alive and Invulnerable with
    a fresh body of 5 segments laid out 20 apart from the drawn position,
    score and kills are zeroed, and the timeout of 3000 ms is scheduled.
    Only a session without a player leaves the room as it is. *)
Theorem respawn_from_any_state (env : Env) (sessionId : string) (r : Room) :
  (forall p,
     getPlayer sessionId (players r) = Some p ->
     exists p',
       getPlayer sessionId (players (onRespawn env sessionId r)) = Some p'
       /\ Player.alive p' = true
       /\ Player.invulnerable p' = true
       /\ Player.score p' = 0%Z
       /\ Player.kills p' = 0%Z
       /\ length (Player.segments p') = 5%nat
       /\ (forall i,
             (i < 5)%nat ->
             Player.segments p' !! i
             = Some (SnakeSegment.new
                       (Vector2.x (fst (getRandomPosition env r))
                        - inject_Z (Z.of_nat i) * 20)
                       (Vector2.y (fst (getRandomPosition env r)))))
       /\ timeouts (onRespawn env sessionId r)
          = timeouts r ++ [(3000%Z, sessionId)])
  /\ (getPlayer sessionId (players r) = None ->
      onRespawn env sessionId r = r).
Proof.
  split.
  - intros p H. exists (respawned (fst (getRandomPosition env r)) p).
    unfold onRespawn.
    split; [apply respawnPlayer_player, H|].
    repeat (split; [reflexivity|]).
    split.
    + intros i Hi.
      do 5 (destruct i as [|i]; [reflexivity|]). lia.
    + apply (respawnPlayer_timeouts env sessionId r p H).
  - intros H. unfold onRespawn, respawnPlayer. rewrite H. reflexivity.
Qed.

(** *** A dead player keeps its heading and its boost state *)

Lemma Frozen_players (key : string) (a : Q) (b : bool) (t : Z)
  (r r' : Room) :
  players r' = players r -> Frozen key a b t r -> Frozen key a b t r'.
Proof. intros Hp (q & Hq). exists q. rewrite Hp. exact Hq. Qed.

Lemma Frozen_mutPlayer (key k : string) (f : Player.t -> Player.t)
  (a : Q) (b : bool) (t : Z) (r : Room) :
  (forall q,
     Player.alive q = false ->
     Player.alive (f q) = false
     /\ Player.angle (f q) = Player.angle q
     /\ Player.boosting (f q) = Player.boosting q
     /\ Player.boostTime (f q) = Player.boostTime q) ->
  Frozen key a b t r -> Frozen key a b t (mutPlayer k f r).
Proof.
  intros Hf (q & Hq & Ha & Hang & Hb & Ht).
  destruct (String.eqb_spec key k) as [->|Hne].
  - exists (f q). rewrite getPlayer_mutPlayer_eq, Hq.
    destruct (Hf q Ha) as (H1 & H2 & H3 & H4).
    split; [reflexivity|]. repeat split; congruence.
  - exists q. rewrite getPlayer_mutPlayer_ne by exact Hne.
    repeat split; assumption.
Qed.

Lemma Frozen_killPlayer (key k : string) (a : Q) (b : bool) (t : Z)
  (r : Room) :
  Frozen key a b t r -> Frozen key a b t (killPlayer k r).
Proof.
  intros H. unfold killPlayer.
  destruct (getPlayer k (players r)) as [p|]; [|exact H].
  apply (Frozen_players key a b t (mutPlayer k (Player.set_alive false) r));
    [reflexivity|].
  apply Frozen_mutPlayer; [|exact H].
  intros q Hq. repeat split; reflexivity.
Qed.

Lemma Frozen_creditKill (key victim killer : string) (a : Q) (b : bool)
  (t : Z) (r : Room) :
  Frozen key a b t r -> Frozen key a b t (creditKill victim killer r).
Proof.
  intros H. unfold creditKill.
  destruct (getPlayer victim (players r)) as [p|]; [|exact H].
  apply Frozen_mutPlayer; [|exact H].
  intros q Hq. repeat split; assumption.
Qed.

Lemma dropLoop_players (env : Env) (n : nat) (segs : list SnakeSegment.t)
  (r : Room) :
  players (dropLoop env n segs r) = players r.
Proof.
  revert r. induction n as [|n IH]; intros r; simpl; [reflexivity|].
  rewrite IH. reflexivity.
Qed.

Lemma Frozen_spawnFoodFromDeadPlayer (env : Env) (key k : string) (a : Q)
  (b : bool) (t : Z) (r : Room) :
  Frozen key a b t r -> Frozen key a b t (spawnFoodFromDeadPlayer env k r).
Proof.
  intros H. unfold spawnFoodFromDeadPlayer.
  destruct (getPlayer k (players r)) as [p|]; [|exact H].
  apply (Frozen_players key a b t r); [apply dropLoop_players|exact H].
Qed.

Lemma Frozen_collisionCallback (env : Env) (key k : string)
  (head : SnakeSegment.t) (other : string) (a : Q) (b : bool) (t : Z)
  (r : Room) :
  Frozen key a b t r ->
  Frozen key a b t (collisionCallback env k head other r).
Proof.
  intros H. unfold collisionCallback.
  destruct (getPlayer k (players r)) as [p|]; [|exact H].
  destruct (getPlayer other (players r)) as [o|]; [|exact H].
  destruct (_ || _); [exact H|].
  destruct (Player.invulnerable p); [exact H|].
  destruct (scanBody _ _ _); [|exact H].
  apply Frozen_spawnFoodFromDeadPlayer.
  apply (Frozen_players key a b t (creditKill k other (killPlayer k r)));
    [reflexivity|].
  apply Frozen_creditKill, Frozen_killPlayer, H.
Qed.

Lemma Frozen_fold (callback : string -> Room -> Room) (key : string)
  (a : Q) (b : bool) (t : Z) :
  (forall k r, Frozen key a b t r -> Frozen key a b t (callback k r)) ->
  forall (keys : list string) (r : Room),
    Frozen key a b t r ->
    Frozen key a b t (fold_left (fun acc k => callback k acc) keys r).
Proof.
  intros Hcb keys. induction keys as [|k keys IH]; intros r H; simpl.
  - exact H.
  - apply IH, Hcb, H.
Qed.

Lemma Frozen_checkPlayerCollisions (env : Env) (key k : string) (a : Q)
  (b : bool) (t : Z) (r : Room) :
  Frozen key a b t r -> Frozen key a b t (checkPlayerCollisions env k r).
Proof.
  intros H. unfold checkPlayerCollisions.
  destruct (getPlayer k (players r)) as [p|]; [|exact H].
  destruct (negb (Player.alive p)); [exact H|].
  destruct (Player.segments p) as [|head rest]; [exact H|].
  assert (H1 : Frozen key a b t
                 (forEachPlayer (collisionCallback env k head) r)).
  { unfold forEachPlayer. apply Frozen_fold; [|exact H].
    intros k0 r0. apply Frozen_collisionCallback. }
  destruct (_ && _); [|exact H1].
  apply Frozen_spawnFoodFromDeadPlayer.
  apply (Frozen_players key a b t
           (killPlayer k (forEachPlayer (collisionCallback env k head) r)));
    [reflexivity|].
  apply Frozen_killPlayer, H1.
Qed.

Lemma movePlayer_dead (env : Env) (r : Room) (q : Player.t) :
  Player.alive q = false -> movePlayer env r q = q.
Proof. intros H. unfold movePlayer. rewrite H. reflexivity. Qed.

Lemma Frozen_gameLoopCallback (env : Env) (key k : string) (a : Q)
  (b : bool) (t : Z) (r : Room) :
  Frozen key a b t r -> Frozen key a b t (gameLoopCallback env k r).
Proof.
  intros H. unfold gameLoopCallback.
  destruct (getPlayer k (players r)) as [p|]; [|exact H].
  destruct (negb (Player.alive p)); [exact H|].
  apply Frozen_checkPlayerCollisions, Frozen_mutPlayer; [|exact H].
  intros q Hq. rewrite (movePlayer_dead env r q Hq).
  repeat split; assumption.
Qed.

Lemma Frozen_gameLoop (env : Env) (key : string) (a : Q) (b : bool) (t : Z)
  (r : Room) :
  Frozen key a b t r -> Frozen key a b t (gameLoop env r).
Proof.
  intros H. unfold gameLoop, topUp.
  assert (H1 : Frozen key a b t (forEachPlayer (gameLoopCallback env) r)).
  { unfold forEachPlayer. apply Frozen_fold; [|exact H].
    intros k0 r0. apply Frozen_gameLoopCallback. }
  destruct (_ <? _)%nat; [|exact H1].
  apply (Frozen_players key a b t (forEachPlayer (gameLoopCallback env) r));
    [reflexivity|exact H1].
Qed.

Lemma Frozen_ticks (env : Env) (key : string) (a : Q) (b : bool) (t : Z)
  (n : nat) (r : Room) :
  Frozen key a b t r -> Frozen key a b t (Nat.iter n (gameLoop env) r).
Proof.
  intros H. induction n as [|n IH]; simpl; [exact H|].
  apply Frozen_gameLoop, IH.
Qed.

(** C10.  Respawn writes only the alive flag, the score, the kills, the
    invulnerable flag and the segment list of the player: identity, name,
    color, skin, heading angle, speed, boosting flag and boost accumulator
    are those found.  Death writes only the alive flag, and the ticks that
    pass while the player is dead leave its heading and boost state alone.
    Hence a player killed while boosting respawns, after any number of
    ticks, still boosting, with the old heading and accumulator; the other
    players are not touched by the two transitions. *)
Theorem respawn_frame (env : Env) (sessionId : string) (r : Room)
  (p : Player.t) :
  getPlayer sessionId (players r) = Some p ->
  (exists spawnPosition,
     getPlayer sessionId (players (respawnPlayer env sessionId r))
     = Some (Player.mk (Player.id p) (Player.name p) (Player.color p)
                       (Player.skinId p) (Player.angle p) (Player.speed p)
                       (Player.boosting p) (Player.boostTime p)
                       0 0 true true (initialSegments spawnPosition)))
  /\ getPlayer sessionId (players (killPlayer sessionId r))
     = Some (Player.mk (Player.id p) (Player.name p) (Player.color p)
                       (Player.skinId p) (Player.angle p) (Player.speed p)
                       (Player.boosting p) (Player.boostTime p)
                       (Player.score p) (Player.kills p) false
                       (Player.invulnerable p) (Player.segments p))
  /\ (forall n,
      exists q,
        getPlayer sessionId
          (players (respawnPlayer env sessionId
                      (Nat.iter n (gameLoop env) (killPlayer sessionId r))))
        = Some q
        /\ Player.alive q = true
        /\ Player.angle q = Player.angle p
        /\ Player.boosting q = Player.boosting p
        /\ Player.boostTime q = Player.boostTime p)
  /\ (forall k,
        k <> sessionId ->
        getPlayer k (players (respawnPlayer env sessionId r))
        = getPlayer k (players r)
        /\ getPlayer k (players (killPlayer sessionId r))
           = getPlayer k (players r)).
Proof.
  intros H. split; [|split; [|split]].
  - exists (fst (getRandomPosition env r)).
    apply (respawnPlayer_player env sessionId r p H).
  - apply (killPlayer_victim sessionId r p H).
  - intros n.
    assert (Hd : Frozen sessionId (Player.angle p) (Player.boosting p)
                   (Player.boostTime p) (killPlayer sessionId r)).
    { exists (Player.set_alive false p).
      split; [apply (killPlayer_victim sessionId r p H)|].
      repeat split; reflexivity. }
    destruct (Frozen_ticks env _ _ _ _ n _ Hd) as (d & Hg & _ & Ha & Hb & Ht).
    eexists. split.
    + apply (respawnPlayer_player env sessionId _ _ Hg).
    + simpl. repeat split; assumption.
  - intros k Hne. split.
    + apply respawnPlayer_others, Hne.
    + apply killPlayer_others, Hne.
Qed.

(** ** Food: spawn, top-up and consumption *)

Lemma spawnFood_room (env : Env) (r : Room) :
  spawnFood env r
  = mkRoom (players r)
           (<[Food.id (spawnedFood env r) := spawnedFood env r]> (foods r))
           (worldWidth r) (worldHeight r) (maxFoods r)
           (worldBoundaryCollisions r)
           (broadcasts r ++ [spawnedEvent (spawnedFood env r)])
           (timeouts r) (S (S (S (S (draws r))))).
Proof. reflexivity. Qed.

Lemma spawnedFood_value (env : Env) (r : Room) :
  (random env (S (S (S (draws r)))) < 5 # 100 ->
   Food.value (spawnedFood env r) = 5%Z)
  /\ (5 # 100 <= random env (S (S (S (draws r)))) ->
      Food.value (spawnedFood env r) = 1%Z).
Proof.
  unfold spawnedFood. simpl. split; intros H.
  - apply ltb_true in H. rewrite H. reflexivity.
  - apply ltb_false in H. rewrite H. reflexivity.
Qed.

Lemma unit_draw_scaled (u d : Q) :
  0 <= u -> u < 1 -> 0 < d -> 0 <= u * d /\ u * d < d.
Proof. intros H0 H1 Hd. split; nra. Qed.

(** C6.  The tick ends with the top-up, run once after all the players:
    when the food count is below the target it spawns exactly one food
    (one insertion, one [foodSpawned] event) and the count does not pass
    the target; otherwise it spawns none and leaves the room as it is.
    The food spawned has value 5 when its uniform draw is below 0.05 and
    value 1 otherwise, and sits at the two further draws scaled by the world
    size, inside the world. *)
Theorem topUp_one_per_tick (env : Env) (r : Room) :
  gameLoop env r = topUp env (forEachPlayer (gameLoopCallback env) r)
  /\ ((size (foods r) < maxFoods r)%nat ->
      foods (topUp env r)
      = <[Food.id (spawnedFood env r) := spawnedFood env r]> (foods r)
      /\ broadcasts (topUp env r)
         = broadcasts r ++ [spawnedEvent (spawnedFood env r)]
      /\ players (topUp env r) = players r
      /\ (size (foods (topUp env r)) <= S (size (foods r)))%nat
      /\ (size (foods (topUp env r)) <= maxFoods r)%nat)
  /\ ((maxFoods r <= size (foods r))%nat -> topUp env r = r)
  /\ (Food.value (spawnedFood env r)
      = if JS.ltb (random env (S (S (S (draws r))))) (5 # 100)
        then 5%Z else 1%Z)
  /\ (random env (S (S (S (draws r)))) < 5 # 100 ->
      Food.value (spawnedFood env r) = 5%Z)
  /\ (5 # 100 <= random env (S (S (S (draws r)))) ->
      Food.value (spawnedFood env r) = 1%Z)
  /\ (Food.position (spawnedFood env r)
      = Vector2.mk (random env (draws r) * worldWidth r)
                   (random env (S (draws r)) * worldHeight r))
  /\ (0 <= random env (draws r) -> random env (draws r) < 1 ->
      0 <= random env (S (draws r)) -> random env (S (draws r)) < 1 ->
      0 < worldWidth r -> 0 < worldHeight r ->
      0 <= Vector2.x (Food.position (spawnedFood env r))
      /\ Vector2.x (Food.position (spawnedFood env r)) < worldWidth r
      /\ 0 <= Vector2.y (Food.position (spawnedFood env r))
      /\ Vector2.y (Food.position (spawnedFood env r)) < worldHeight r).
Proof.
  split; [reflexivity|].
  split.
  { intros Hlt. unfold topUp.
    assert (E : (size (foods r) <? maxFoods r)%nat = true)
      by (apply Nat.ltb_lt, Hlt).
    rewrite E, spawnFood_room. simpl.
    repeat (split; [reflexivity|]).
    rewrite map_size_insert.
    destruct (foods r !! _); simpl; split; lia. }
  split.
  { intros Hge. unfold topUp.
    assert (E : (size (foods r) <? maxFoods r)%nat = false)
      by (apply Nat.ltb_ge, Hge).
    rewrite E. reflexivity. }
  split; [reflexivity|].
  split; [apply spawnedFood_value|].
  split; [apply spawnedFood_value|].
  split; [reflexivity|].
  intros Hx0 Hx1 Hy0 Hy1 Hw Hh. simpl.
  destruct (unit_draw_scaled _ _ Hx0 Hx1 Hw).
  destruct (unit_draw_scaled _ _ Hy0 Hy1 Hh).
  auto.
Qed.








(** ** The death drop *)

Lemma dropLoop_frame (env : Env) (n : nat) (segs : list SnakeSegment.t)
  (r : Room) :
  players (dropLoop env n segs r) = players r
  /\ worldWidth (dropLoop env n segs r) = worldWidth r
  /\ worldHeight (dropLoop env n segs r) = worldHeight r
  /\ exists drops,
       broadcasts (dropLoop env n segs r) = broadcasts r ++ drops
       /\ length drops = n
       /\ Forall (fun e => isFoodSpawned e = true) drops.
Proof.
  revert r. induction n as [|n IH]; intros r; simpl.
  - repeat (split; [reflexivity|]).
    exists []. rewrite app_nil_r. repeat split. constructor.
  - destruct (IH (dropOne env segs r)) as (Hp & Hw & Hh & es & He & Hn & Hf).
    rewrite Hp, Hw, Hh, He.
    repeat (split; [reflexivity|]).
    eexists (_ :: es). simpl. rewrite <- app_assoc. simpl.
    split; [reflexivity|].
    split; [rewrite Hn; reflexivity|].
    constructor; [reflexivity|exact Hf].
Qed.

Lemma spawnFoodFromDeadPlayer_frame (env : Env) (key : string) (r : Room)
  (v : Player.t) :
  getPlayer key (players r) = Some v ->
  players (spawnFoodFromDeadPlayer env key r) = players r
  /\ worldWidth (spawnFoodFromDeadPlayer env key r) = worldWidth r
  /\ worldHeight (spawnFoodFromDeadPlayer env key r) = worldHeight r
  /\ exists drops,
       broadcasts (spawnFoodFromDeadPlayer env key r) = broadcasts r ++ drops
       /\ length drops = Nat.min (length (Player.segments v) / 3) 20
       /\ Forall (fun e => isFoodSpawned e = true) drops.
Proof.
  intros H. unfold spawnFoodFromDeadPlayer. rewrite H. apply dropLoop_frame.
Qed.

Lemma countEvents_app (f : Event -> bool) (a b : list Event) :
  countEvents f (a ++ b) = (countEvents f a + countEvents f b)%nat.
Proof.
  unfold countEvents. rewrite List.filter_app. apply length_app.
Qed.

Lemma countEvents_all (f : Event -> bool) (es : list Event) :
  Forall (fun e => f e = true) es -> countEvents f es = length es.
Proof.
  unfold countEvents. induction 1 as [|e es He _ IH]; simpl; [reflexivity|].
  rewrite He. simpl. rewrite IH. reflexivity.
Qed.

Lemma countEvents_none (f : Event -> bool) (es : list Event) :
  Forall (fun e => f e = false) es -> countEvents f es = 0%nat.
Proof.
  unfold countEvents. induction 1 as [|e es He _ IH]; simpl; [reflexivity|].
  rewrite He. exact IH.
Qed.

Lemma foodSpawned_not_death (playerId : string) (es : list Event) :
  Forall (fun e => isFoodSpawned e = true) es ->
  Forall (fun e => isDeathOf playerId e = false) es.
Proof.
  intros Hall. eapply Forall_impl; [exact Hall|].
  intros [] H; simpl in *; congruence.
Qed.

Lemma foodSpawned_not_boundary (es : list Event) :
  Forall (fun e => isFoodSpawned e = true) es ->
  Forall (fun e => isBoundaryDeath e = false) es.
Proof.
  intros Hall. eapply Forall_impl; [exact Hall|].
  intros [] H; simpl in *; congruence.
Qed.

(** The score and kill transfer, seen from the killer. *)
Lemma creditKill_killer (victim killer : string) (r : Room)
  (v k : Player.t) :
  getPlayer victim (players r) = Some v ->
  getPlayer killer (players r) = Some k ->
  exists k',
    getPlayer killer (players (creditKill victim killer r)) = Some k'
    /\ Player.score k' = (Player.score k + Player.score v / 2)%Z
    /\ Player.kills k' = (Player.kills k + 1)%Z
    /\ Player.alive k' = Player.alive k
    /\ Player.segments k' = Player.segments k.
Proof.
  intros Hv Hk. unfold creditKill. rewrite Hv.
  rewrite getPlayer_mutPlayer_eq, Hk. simpl.
  eexists. split; [reflexivity|]. repeat split; reflexivity.
Qed.

(** The transfer keeps the liveness and the body of every player. *)
Lemma creditKill_others (victim killer key : string) (r : Room)
  (p : Player.t) :
  getPlayer key (players r) = Some p ->
  exists p',
    getPlayer key (players (creditKill victim killer r)) = Some p'
    /\ Player.alive p' = Player.alive p
    /\ Player.segments p' = Player.segments p
    /\ Player.id p' = Player.id p
    /\ (key <> killer -> p' = p).
Proof.
  intros Hp. unfold creditKill.
  destruct (getPlayer victim (players r)) as [v|].
  - destruct (String.eqb_spec key killer) as [->|Hne].
    + rewrite getPlayer_mutPlayer_eq, Hp. simpl.
      eexists. split; [reflexivity|].
      repeat split; try reflexivity. intros H. contradiction.
    + rewrite getPlayer_mutPlayer_ne by exact Hne.
      exists p. repeat split; auto.
  - exists p. repeat split; auto.
Qed.

(** ** The self-reported death *)

(** Killing the player under [key] keeps score, kills, body and identity of
    every player. *)
Lemma killPlayer_lookup (key k : string) (r : Room) (q : Player.t) :
  getPlayer k (players r) = Some q ->
  exists q',
    getPlayer k (players (killPlayer key r)) = Some q'
    /\ Player.score q' = Player.score q
    /\ Player.kills q' = Player.kills q
    /\ Player.segments q' = Player.segments q
    /\ Player.id q' = Player.id q.
Proof.
  intros Hq. unfold killPlayer.
  destruct (getPlayer key (players r)) as [p|] eqn:Hp.
  - simpl. destruct (String.eqb_spec k key) as [->|Hne].
    + rewrite getPlayer_alter_eq, Hq. simpl.
      eexists. split; [reflexivity|]. repeat split; reflexivity.
    + rewrite getPlayer_alter_ne by exact Hne.
      exists q. repeat split; auto.
  - exists q. repeat split; auto.
Qed.

Lemma killPlayer_broadcasts (key : string) (r : Room) (p : Player.t) :
  getPlayer key (players r) = Some p ->
  broadcasts (killPlayer key r) = broadcasts r ++ [EvPlayerDied (Player.id p)]
  /\ worldWidth (killPlayer key r) = worldWidth r
  /\ worldHeight (killPlayer key r) = worldHeight r.
Proof.
  intros H. rewrite (killPlayer_found key r p H). repeat split; reflexivity.
Qed.

Lemma truthy_true (s : string) : truthy s = true <-> s <> EmptyString.
Proof.
  unfold truthy. rewrite negb_true_iff.
  destruct (String.eqb_spec s EmptyString); split; intros; congruence.
Qed.

(** The killer block of the [playerDied] handler, run after the victim [p]
    under [sessionId] was killed. *)
Lemma killer_block (sessionId : string) (killerSessionId : option string)
  (r : Room) (p : Player.t) :
  getPlayer sessionId (players r) = Some p ->
  let r1 := killPlayer sessionId r in
  let r2 :=
    match killerSessionId with
    | Some killerId =>
        if truthy killerId then
          match getPlayer killerId (players r1) with
          | Some _ =>
              broadcast (EvPlayerKilled (Player.id p) killerId)
                        (creditKill sessionId killerId r1)
          | None => r1
          end
        else r1
    | None => r1
    end in
  exists v2 kill,
    getPlayer sessionId (players r2) = Some v2
    /\ Player.alive v2 = false
    /\ Player.segments v2 = Player.segments p
    /\ broadcasts r2 = broadcasts r1 ++ kill
    /\ Forall (fun e => isDeathOf (Player.id p) e = false) kill
    /\ Forall (fun e => isFoodSpawned e = false) kill
    /\ (forall killerId k,
          killerSessionId = Some killerId ->
          killerId <> EmptyString ->
          getPlayer killerId (players r) = Some k ->
          In (EvPlayerKilled (Player.id p) killerId) kill
          /\ exists k',
               getPlayer killerId (players r2) = Some k'
               /\ Player.score k' = (Player.score k + Player.score p / 2)%Z
               /\ Player.kills k' = (Player.kills k + 1)%Z).
Proof.
  intros Hp r1.
  pose proof (killPlayer_victim sessionId r p Hp) as Hv1. fold r1 in Hv1.
  assert (Hplain :
            (forall killerId k,
               killerSessionId = Some killerId ->
               killerId <> EmptyString ->
               getPlayer killerId (players r) = Some k -> False) ->
            exists v2 kill,
              getPlayer sessionId (players r1) = Some v2
              /\ Player.alive v2 = false
              /\ Player.segments v2 = Player.segments p
              /\ broadcasts r1 = broadcasts r1 ++ kill
              /\ Forall (fun e => isDeathOf (Player.id p) e = false) kill
              /\ Forall (fun e => isFoodSpawned e = false) kill
              /\ (forall killerId k,
                    killerSessionId = Some killerId ->
                    killerId <> EmptyString ->
                    getPlayer killerId (players r) = Some k ->
                    In (EvPlayerKilled (Player.id p) killerId) kill
                    /\ exists k',
                         getPlayer killerId (players r1) = Some k'
                         /\ Player.score k'
                            = (Player.score k + Player.score p / 2)%Z
                         /\ Player.kills k' = (Player.kills k + 1)%Z)).
  { intros Hno. exists (Player.set_alive false p), [].
    split; [exact Hv1|].
    split; [reflexivity|]. split; [reflexivity|].
    split; [rewrite app_nil_r; reflexivity|].
    split; [constructor|]. split; [constructor|].
    intros killerId k H1 H2 H3. exfalso. exact (Hno killerId k H1 H2 H3). }
  destruct killerSessionId as [kid|]; simpl.
  2: { apply Hplain. intros ? ? H. discriminate. }
  destruct (truthy kid) eqn:Etr.
  2: { apply Hplain.
       intros killerId k H1 H2 H3. injection H1 as <-.
       apply truthy_true in H2. congruence. }
  destruct (getPlayer kid (players r1)) as [k1|] eqn:Hk1.
  2: { apply Hplain.
       intros killerId k H1 H2 H3. injection H1 as <-.
       destruct (killPlayer_lookup sessionId kid r k H3) as (q & Hq & _).
       fold r1 in Hq. congruence. }
  clear Hplain.
  destruct (creditKill_killer sessionId kid r1 _ k1 Hv1 Hk1)
    as (k' & Hk' & Hsc & Hki & _ & _).
  destruct (creditKill_others sessionId kid sessionId r1 _ Hv1)
    as (v2 & Hv2 & Hal & Hsg & _ & _).
  exists v2, [EvPlayerKilled (Player.id p) kid].
  split; [exact Hv2|].
  split; [rewrite Hal; reflexivity|]. split; [rewrite Hsg; reflexivity|].
  split.
  { simpl. unfold creditKill. rewrite Hv1. reflexivity. }
  split; [repeat constructor|]. split; [repeat constructor|].
  intros killerId k H1 H2 H3. injection H1 as <-.
  split; [left; reflexivity|].
  destruct (killPlayer_lookup sessionId kid r k H3)
    as (q & Hq & Hqs & Hqk & _ & _).
  fold r1 in Hq. rewrite Hk1 in Hq. injection Hq as <-.
  exists k'. split; [exact Hk'|].
  rewrite Hsc, Hki, Hqs, Hqk. split; reflexivity.
Qed.

(** A message object is handled as [onPlayerDied] says, and the handler
    completes. *)
Lemma onMessagePlayerDied_payload (env : Env) (sessionId : string)
  (killerSessionId : option string) (r : Room) :
  onMessagePlayerDied env sessionId (Some killerSessionId) r
  = (onPlayerDied env sessionId killerSessionId r, Completes).
Proof.
  unfold onMessagePlayerDied, onPlayerDied.
  destruct (getPlayer sessionId (players r)) as [p|]; [|reflexivity].
  destruct (negb (Player.alive p)); reflexivity.
Qed.

(** A message without payload from a living sender: the handler kills the
    sender and throws. *)
Lemma onMessagePlayerDied_bare (env : Env) (sessionId : string) (r : Room)
  (p : Player.t) :
  getPlayer sessionId (players r) = Some p ->
  Player.alive p = true ->
  onMessagePlayerDied env sessionId None r
  = (killPlayer sessionId r, ThrowsTypeError).
Proof.
  intros Hp Ha. unfold onMessagePlayerDied. rewrite Hp, Ha. reflexivity.
Qed.

(** Whatever the message, a missing or dead sender leaves the room as it
    is, and the handler completes. *)
Lemma onMessagePlayerDied_guard (env : Env) (sessionId : string)
  (message : option (option string)) (r : Room) :
  (getPlayer sessionId (players r) = None
   \/ exists p,
        getPlayer sessionId (players r) = Some p /\ Player.alive p = false) ->
  onMessagePlayerDied env sessionId message r = (r, Completes).
Proof.
  intros [H|(p & Hp & Ha)]; unfold onMessagePlayerDied.
  - rewrite H. reflexivity.
  - rewrite Hp, Ha. reflexivity.
Qed.

(** C9, amended.  A [playerDied] intent that carries a payload, received
    from a living player, makes the player Dead, broadcasts one death event
    for it and triggers the death drop of [min (floor (segments / 3)) 20]
    foods, and the handler completes.  When the payload carries a non-empty
    killer id that names a player of the room, that player receives
    [floor (victim.score / 2)] points and one kill, and a [playerKilled]
    event with both ids is broadcast.  For a missing or dead sender the
    room does not change, whatever the message. *)
Theorem playerDied_intent (env : Env) (sessionId : string)
  (message : option (option string)) (r : Room) :
  let r' := fst (onMessagePlayerDied env sessionId message r) in
  (forall p killerSessionId,
     getPlayer sessionId (players r) = Some p ->
     Player.alive p = true ->
     message = Some killerSessionId ->
     snd (onMessagePlayerDied env sessionId message r) = Completes
     /\ exists p' rest,
          getPlayer sessionId (players r') = Some p'
          /\ Player.alive p' = false
          /\ broadcasts r'
             = broadcasts r ++ EvPlayerDied (Player.id p) :: rest
          /\ countEvents (isDeathOf (Player.id p)) rest = 0%nat
          /\ countEvents isFoodSpawned rest
             = Nat.min (length (Player.segments p) / 3) 20
          /\ (forall killerId k,
                killerSessionId = Some killerId ->
                killerId <> EmptyString ->
                getPlayer killerId (players r) = Some k ->
                In (EvPlayerKilled (Player.id p) killerId) rest
                /\ exists k',
                     getPlayer killerId (players r') = Some k'
                     /\ Player.score k'
                        = (Player.score k + Player.score p / 2)%Z
                     /\ Player.kills k' = (Player.kills k + 1)%Z))
  /\ (getPlayer sessionId (players r) = None ->
      onMessagePlayerDied env sessionId message r = (r, Completes))
  /\ (forall p,
        getPlayer sessionId (players r) = Some p ->
        Player.alive p = false ->
        onMessagePlayerDied env sessionId message r = (r, Completes)).
Proof.
  intros r'. split; [|split].
  2: { intros H. apply onMessagePlayerDied_guard. left. exact H. }
  2: { intros p Hp Ha. apply onMessagePlayerDied_guard. right.
       exists p. split; assumption. }
  intros p killerSessionId Hp Ha Hm.
  unfold r'. rewrite Hm, onMessagePlayerDied_payload. simpl fst. simpl snd.
  split; [reflexivity|]. clear r' Hm message.
  set (r' := onPlayerDied env sessionId killerSessionId r).
  destruct (killPlayer_broadcasts sessionId r p Hp) as (Hb1 & _ & _).
  destruct (killer_block sessionId killerSessionId r p Hp)
    as (v2 & kill & Hv2 & Hal & Hsg & Hb2 & Hkd & Hkf & Hkiller).
  assert (Hr' : r' = spawnFoodFromDeadPlayer env sessionId
                       match killerSessionId with
                       | Some killerId =>
                           if truthy killerId then
                             match
                               getPlayer killerId
                                 (players (killPlayer sessionId r))
                             with
                             | Some _ =>
                                 broadcast
                                   (EvPlayerKilled (Player.id p) killerId)
                                   (creditKill sessionId killerId
                                      (killPlayer sessionId r))
                             | None => killPlayer sessionId r
                             end
                           else killPlayer sessionId r
                       | None => killPlayer sessionId r
                       end).
  { unfold r', onPlayerDied. rewrite Hp, Ha. reflexivity. }
  destruct (spawnFoodFromDeadPlayer_frame env sessionId _ v2 Hv2)
    as (Hpl & _ & _ & drops & Hbd & Hn & Hfd).
  rewrite <- Hr' in Hpl, Hbd.
  exists v2, (kill ++ drops).
  split; [rewrite Hpl; exact Hv2|].
  split; [exact Hal|].
  split.
  { rewrite Hbd, Hb2, Hb1, <- !app_assoc. reflexivity. }
  split.
  { rewrite countEvents_app, (countEvents_none _ kill Hkd).
    apply countEvents_none, foodSpawned_not_death, Hfd. }
  split.
  { rewrite countEvents_app, (countEvents_none _ kill Hkf).
    rewrite (countEvents_all _ drops Hfd), Hn, Hsg. reflexivity. }
  intros killerId k H1 H2 H3.
  destruct (Hkiller killerId k H1 H2 H3) as (Hin & k' & Hk' & Hs & Hk).
  split; [apply in_or_app; left; exact Hin|].
  exists k'. rewrite Hpl. auto.
Qed.

(** ** The boundary branch *)

Lemma Quiet_refl (r : Room) : Quiet r r.
Proof.
  repeat split. exists []. rewrite app_nil_r. split; [reflexivity|constructor].
Qed.

Lemma Quiet_trans (a b c : Room) : Quiet a b -> Quiet b c -> Quiet a c.
Proof.
  intros (Hw1 & Hh1 & es1 & He1 & Hf1) (Hw2 & Hh2 & es2 & He2 & Hf2).
  split; [congruence|]. split; [congruence|].
  exists (es1 ++ es2). split.
  - rewrite He2, He1, app_assoc. reflexivity.
  - apply Forall_app. split; assumption.
Qed.

Lemma Quiet_broadcast (e : Event) (r : Room) :
  isBoundaryDeath e = false -> Quiet r (broadcast e r).
Proof.
  intros He. repeat split. exists [e]. split; [reflexivity|].
  constructor; [exact He|constructor].
Qed.

Lemma Quiet_mutPlayer (key : string) (f : Player.t -> Player.t) (r : Room) :
  Quiet r (mutPlayer key f r).
Proof.
  repeat split. exists []. simpl. rewrite app_nil_r.
  split; [reflexivity|constructor].
Qed.

Lemma Quiet_killPlayer (key : string) (r : Room) : Quiet r (killPlayer key r).
Proof.
  unfold killPlayer. destruct (getPlayer key (players r)) as [p|].
  - eapply Quiet_trans; [apply Quiet_mutPlayer|].
    apply Quiet_broadcast. reflexivity.
  - apply Quiet_refl.
Qed.

Lemma Quiet_creditKill (victim killer : string) (r : Room) :
  Quiet r (creditKill victim killer r).
Proof.
  unfold creditKill. destruct (getPlayer victim (players r)) as [p|].
  - apply Quiet_mutPlayer.
  - apply Quiet_refl.
Qed.

Lemma Quiet_spawnFoodFromDeadPlayer (env : Env) (key : string) (r : Room) :
  Quiet r (spawnFoodFromDeadPlayer env key r).
Proof.
  destruct (getPlayer key (players r)) as [v|] eqn:Hv.
  - destruct (spawnFoodFromDeadPlayer_frame env key r v Hv)
      as (_ & Hw & Hh & drops & Hb & _ & Hf).
    split; [exact Hw|]. split; [exact Hh|].
    exists drops. split; [exact Hb|].
    apply foodSpawned_not_boundary, Hf.
  - unfold spawnFoodFromDeadPlayer. rewrite Hv. apply Quiet_refl.
Qed.

Lemma Quiet_spawnFood (env : Env) (r : Room) : Quiet r (spawnFood env r).
Proof.
  rewrite spawnFood_room. repeat split.
  eexists. split; [reflexivity|]. repeat constructor.
Qed.

Lemma Quiet_topUp (env : Env) (r : Room) : Quiet r (topUp env r).
Proof.
  unfold topUp. destruct (_ <? _)%nat.
  - apply Quiet_spawnFood.
  - apply Quiet_refl.
Qed.

Lemma Quiet_collisionCallback (env : Env) (key : string)
  (head : SnakeSegment.t) (other : string) (r : Room) :
  Quiet r (collisionCallback env key head other r).
Proof.
  unfold collisionCallback.
  destruct (getPlayer key (players r)) as [p|]; [|apply Quiet_refl].
  destruct (getPlayer other (players r)) as [o|]; [|apply Quiet_refl].
  destruct (_ || _); [apply Quiet_refl|].
  destruct (Player.invulnerable p); [apply Quiet_refl|].
  destruct (scanBody _ _ _); [|apply Quiet_refl].
  eapply Quiet_trans; [apply Quiet_killPlayer|].
  eapply Quiet_trans; [apply Quiet_creditKill|].
  eapply Quiet_trans;
    [apply (Quiet_broadcast (EvPlayerKilled (Player.id p) (Player.id o)));
     reflexivity|].
  apply Quiet_spawnFoodFromDeadPlayer.
Qed.

(** A loop over the players is quiet when its callback is quiet in every
    room of the given size. *)
Lemma Quiet_fold (callback : string -> Room -> Room) (W H : Q) :
  (forall k r,
     worldWidth r = W -> worldHeight r = H -> Quiet r (callback k r)) ->
  forall (keys : list string) (r : Room),
    worldWidth r = W -> worldHeight r = H ->
    Quiet r (fold_left (fun acc key => callback key acc) keys r).
Proof.
  intros Hcb keys. induction keys as [|k keys IH]; intros r Hw Hh; simpl.
  - apply Quiet_refl.
  - pose proof (Hcb k r Hw Hh) as Hq.
    eapply Quiet_trans; [exact Hq|].
    destruct Hq as (Hw' & Hh' & _).
    apply IH; congruence.
Qed.

Lemma outOfWorld_size (head : SnakeSegment.t) (r r' : Room) :
  worldWidth r' = worldWidth r ->
  worldHeight r' = worldHeight r ->
  outOfWorld head r' = outOfWorld head r.
Proof. intros Hw Hh. unfold outOfWorld. rewrite Hw, Hh. reflexivity. Qed.

Lemma outOfWorld_false (head : SnakeSegment.t) (r : Room) :
  0 <= Vector2.x (SnakeSegment.position head) ->
  Vector2.x (SnakeSegment.position head) <= worldWidth r ->
  0 <= Vector2.y (SnakeSegment.position head) ->
  Vector2.y (SnakeSegment.position head) <= worldHeight r ->
  outOfWorld head r = false.
Proof.
  intros H1 H2 H3 H4. unfold outOfWorld.
  apply ltb_false in H1, H2, H3, H4. rewrite H1, H2, H3, H4. reflexivity.
Qed.

(** After [movePlayer] the head of a living player is inside the closed
    world rectangle. *)
Lemma movePlayer_head_inside (env : Env) (r : Room) (p : Player.t)
  (head : SnakeSegment.t) (rest : list SnakeSegment.t) :
  0 < worldWidth r -> 0 < worldHeight r ->
  Player.alive p = true ->
  Player.segments (movePlayer env r p) = head :: rest ->
  0 <= Vector2.x (SnakeSegment.position head)
  /\ Vector2.x (SnakeSegment.position head) <= worldWidth r
  /\ 0 <= Vector2.y (SnakeSegment.position head)
  /\ Vector2.y (SnakeSegment.position head) <= worldHeight r.
Proof.
  intros Hw Hh Ha Hs.
  destruct (Player.segments p) as [|h0 t0] eqn:Hp.
  - unfold movePlayer in Hs. rewrite Ha, Hp in Hs. simpl in Hs.
    rewrite Hp in Hs. discriminate.
  - rewrite (movePlayer_segments env r p h0 t0 Ha Hp) in Hs.
    destruct (followLoop _ _) as [|s l]; simpl in Hs; [discriminate|].
    injection Hs as <- _. simpl.
    destruct (wrapCoordinate_closed
                (Vector2.x (SnakeSegment.position h0)
                 + cosDeg env (Player.angle p) * Player.speed p
                   * (if Player.boosting p then 6 else 3))
                (worldWidth r) Hw).
    destruct (wrapCoordinate_closed
                (Vector2.y (SnakeSegment.position h0)
                 + sinDeg env (Player.angle p) * Player.speed p
                   * (if Player.boosting p then 6 else 3))
                (worldHeight r) Hh).
    auto.
Qed.

Lemma Quiet_checkPlayerCollisions (env : Env) (key : string) (r : Room) :
  (forall p head rest,
     getPlayer key (players r) = Some p ->
     Player.alive p = true ->
     Player.segments p = head :: rest ->
     outOfWorld head r = false) ->
  Quiet r (checkPlayerCollisions env key r).
Proof.
  intros Hin. unfold checkPlayerCollisions.
  destruct (getPlayer key (players r)) as [p|] eqn:Hp; [|apply Quiet_refl].
  destruct (Player.alive p) eqn:Ha; simpl; [|apply Quiet_refl].
  destruct (Player.segments p) as [|head rest] eqn:Hs; [apply Quiet_refl|].
  assert (Hq : Quiet r (forEachPlayer (collisionCallback env key head) r)).
  { unfold forEachPlayer.
    apply (Quiet_fold _ (worldWidth r) (worldHeight r)); [|reflexivity..].
    intros k r0 _ _. apply Quiet_collisionCallback. }
  destruct Hq as (Hw & Hh & Hes).
  rewrite (outOfWorld_size head r _ Hw Hh).
  rewrite (Hin p head rest eq_refl Ha Hs), andb_false_r.
  split; [exact Hw|]. split; [exact Hh|]. exact Hes.
Qed.

Lemma Quiet_gameLoopCallback (env : Env) (key : string) (r : Room) :
  0 < worldWidth r -> 0 < worldHeight r ->
  Quiet r (gameLoopCallback env key r).
Proof.
  intros Hw Hh. unfold gameLoopCallback.
  destruct (getPlayer key (players r)) as [p|] eqn:Hp; [|apply Quiet_refl].
  destruct (Player.alive p) eqn:Ha; simpl; [|apply Quiet_refl].
  eapply Quiet_trans; [apply (Quiet_mutPlayer key (movePlayer env r))|].
  apply Quiet_checkPlayerCollisions.
  intros p' head rest Hp' Ha' Hs'.
  rewrite getPlayer_mutPlayer_eq, Hp in Hp'. simpl in Hp'.
  injection Hp' as <-.
  destruct (movePlayer_head_inside env r p head rest Hw Hh Ha Hs')
    as (H1 & H2 & H3 & H4).
  apply outOfWorld_false; assumption.
Qed.

Lemma Quiet_gameLoop (env : Env) (r : Room) :
  0 < worldWidth r -> 0 < worldHeight r -> Quiet r (gameLoop env r).
Proof.
  intros Hw Hh. unfold gameLoop.
  eapply Quiet_trans; [|apply Quiet_topUp].
  unfold forEachPlayer.
  apply (Quiet_fold _ (worldWidth r) (worldHeight r)); [|reflexivity..].
  intros k r0 Hw0 Hh0. apply Quiet_gameLoopCallback; congruence.
Qed.

(** C8.  With the head wrapped by every movement step, no boundary death is
    ever declared: whatever the boundary flag, the events broadcast by any
    number of ticks contain no boundary death, because after each movement
    step the head of a living player is neither below 0 nor above the
    world dimension on either axis, so that the boundary test is false. *)
Theorem boundary_death_unreachable (env : Env) (r : Room) (n : nat) :
  0 < worldWidth r ->
  0 < worldHeight r ->
  (exists es,
     broadcasts (Nat.iter n (gameLoop env) r) = broadcasts r ++ es
     /\ Forall (fun e => isBoundaryDeath e = false) es)
  /\ (forall p head rest,
        Player.alive p = true ->
        Player.segments (movePlayer env r p) = head :: rest ->
        0 <= Vector2.x (SnakeSegment.position head)
        /\ Vector2.x (SnakeSegment.position head) <= worldWidth r
        /\ 0 <= Vector2.y (SnakeSegment.position head)
        /\ Vector2.y (SnakeSegment.position head) <= worldHeight r
        /\ outOfWorld head r = false).
Proof.
  intros Hw Hh. split.
  - assert (Hq : Quiet r (Nat.iter n (gameLoop env) r)).
    { induction n as [|n IH]; simpl; [apply Quiet_refl|].
      eapply Quiet_trans; [exact IH|].
      destruct IH as (Hw' & Hh' & _).
      apply Quiet_gameLoop; congruence. }
    destruct Hq as (_ & _ & Hes). exact Hes.
  - intros p head rest Ha Hs.
    destruct (movePlayer_head_inside env r p head rest Hw Hh Ha Hs)
      as (H1 & H2 & H3 & H4).
    repeat (split; [assumption|]).
    apply outOfWorld_false; assumption.
Qed.

(** ** Two bodies in range of one head *)

(** C1.  One tick of the sample arena: after its move the head of the
    living, vulnerable snake [A] (score 10, six segments) is 5 units from
    segment 1 of [B] and 5 units from segment 1 of [C].  The [return] on a
    collision leaves the callback of [forEach] only, so the scan goes on
    with [C]: two death events are broadcast for [A], both [B] and [C]
    receive 5 points and one kill, and the death drop runs twice (4 foods
    instead of [min (floor (6 / 3)) 20 = 2]). *)
Theorem double_kill_in_one_tick :
  let r := gameLoop Sample.env Sample.arena in
  let moved := movePlayer Sample.env Sample.arena Sample.A in
  Player.alive Sample.A = true
  /\ Player.invulnerable Sample.A = false
  /\ (exists head b1 c1,
        Player.segments moved !! 0%nat = Some head
        /\ Player.segments Sample.B !! 1%nat = Some b1
        /\ Player.segments Sample.C !! 1%nat = Some c1
        /\ collides Sample.env head b1 = true
        /\ collides Sample.env head c1 = true)
  /\ countEvents (isDeathOf "A") (broadcasts r) = 2%nat
  /\ List.filter (fun e => negb (isFoodSpawned e)) (broadcasts r)
     = [EvPlayerDied "A"; EvPlayerKilled "A" "B";
        EvPlayerDied "A"; EvPlayerKilled "A" "C"]
  /\ option_map Player.score (getPlayer "B" (players r)) = Some 5%Z
  /\ option_map Player.kills (getPlayer "B" (players r)) = Some 1%Z
  /\ option_map Player.score (getPlayer "C" (players r)) = Some 5%Z
  /\ option_map Player.kills (getPlayer "C" (players r)) = Some 1%Z
  /\ countEvents isFoodSpawned (broadcasts r) = 4%nat
  /\ size (foods r) = 4%nat
  /\ Nat.min (length (Player.segments Sample.A) / 3) 20 = 2%nat.
Proof.
  cbv zeta.
  split; [reflexivity|]. split; [reflexivity|].
  split.
  { eexists _, _, _.
    split; [vm_compute; reflexivity|].
    split; [vm_compute; reflexivity|].
    split; [vm_compute; reflexivity|].
    split; vm_compute; reflexivity. }
  repeat split; vm_compute; reflexivity.
Qed.

(** ** Counterexamples *)

(** C3, counterexample.  The living snake [A] of the orchard (score 10, not
    invulnerable) sends a respawn request: its score is zeroed and its
    state is not the one it had. *)
Lemma respawn_resets_living_player :
  getPlayer "A" (players Sample.orchard) = Some Sample.A
  /\ Player.alive Sample.A = true
  /\ Player.score Sample.A = 10%Z
  /\ Player.invulnerable Sample.A = false
  /\ option_map Player.score
       (getPlayer "A" (players (onRespawn Sample.env "A" Sample.orchard)))
     = Some 0%Z
  /\ option_map Player.invulnerable
       (getPlayer "A" (players (onRespawn Sample.env "A" Sample.orchard)))
     = Some true
  /\ getPlayer "A" (players (onRespawn Sample.env "A" Sample.orchard))
     <> Some Sample.A.
Proof.
  repeat (split; [reflexivity|]).
  intros H. apply (f_equal (option_map Player.score)) in H.
  vm_compute in H. discriminate H.
Qed.

(** C4, counterexample.  The snake of ten segments and score 10 boosts from
    an empty accumulator.  After 93 ticks (1488 ms) and after 94 ticks
    (1504 ms) it has lost 2 segments and 2 points, not 3.  A boosting snake
    of six segments is cut to five segments at its first charge and goes on
    boosting. *)
Lemma boost_1500ms_takes_two :
  Player.alive Sample.booster = true
  /\ Player.boosting Sample.booster = true
  /\ Player.boostTime Sample.booster = 0%Z
  /\ length (Player.segments Sample.booster) = 10%nat
  /\ Player.score Sample.booster = 10%Z
  /\ length (Player.segments (Sample.boosted 93)) = 8%nat
  /\ Player.score (Sample.boosted 93) = 8%Z
  /\ length (Player.segments (Sample.boosted 94)) = 8%nat
  /\ Player.score (Sample.boosted 94) = 8%Z
  /\ ~ (length (Player.segments (Sample.boosted 93)) = (10 - 3)%nat
        /\ Player.score (Sample.boosted 93) = (10 - 3)%Z)
  /\ length (Player.segments
               (ticks Sample.env Sample.track 32 Sample.shortBooster))
     = 5%nat
  /\ Player.boosting (ticks Sample.env Sample.track 32 Sample.shortBooster)
     = true.
Proof.
  repeat (split; [vm_compute; reflexivity|]).
  split.
  - intros [H _]. vm_compute in H. discriminate H.
  - split; vm_compute; reflexivity.
Qed.

(** C9, counterexample.  The living snake [A] reports its death in a
    message whose payload names the killer ["Z"], a session that has no
    player in the arena: the handler completes and [A] dies, but no
    [playerKilled] event is broadcast and nobody is credited. *)
Lemma playerDied_unknown_killer :
  let result :=
    onMessagePlayerDied Sample.env "A" (Some (Some "Z")) Sample.arena in
  let r' := fst result in
  getPlayer "A" (players Sample.arena) = Some Sample.A
  /\ Player.alive Sample.A = true
  /\ getPlayer "Z" (players Sample.arena) = None
  /\ snd result = Completes
  /\ option_map Player.alive (getPlayer "A" (players r')) = Some false
  /\ List.filter (fun e => negb (isFoodSpawned e)) (broadcasts r')
     = [EvPlayerDied "A"]
  /\ ~ In (EvPlayerKilled "A" "Z") (broadcasts r')
  /\ getPlayer "B" (players r') = Some Sample.B
  /\ getPlayer "C" (players r') = Some Sample.C.
Proof.
  cbv zeta.
  do 6 (split; [vm_compute; reflexivity|]).
  split.
  - intros H. vm_compute in H.
    repeat (destruct H as [H|H]; [discriminate H|]). exact H.
  - split; vm_compute; reflexivity.
Qed.

(** ** Instances on the sample rooms *)

Lemma follow_the_leader_witness :
  Player.alive Sample.A = true
  /\ (1 <= length (Player.segments Sample.A))%nat
  /\ length (Player.segments (movePlayer Sample.env Sample.arena Sample.A))
     = length (Player.segments Sample.A)
  /\ Player.segments (movePlayer Sample.env Sample.arena Sample.A) !! 5%nat
     = Player.segments Sample.A !! (5 - 1)%nat.
Proof.
  assert (Ha : Player.alive Sample.A = true) by reflexivity.
  assert (Hl : (1 <= length (Player.segments Sample.A))%nat)
    by (vm_compute; lia).
  split; [exact Ha|]. split; [exact Hl|].
  destruct (follow_the_leader Sample.env Sample.arena Sample.A Ha Hl)
    as (Hlen & Hbody & _).
  split; [exact Hlen|].
  apply Hbody; [lia|].
  rewrite Hlen. vm_compute. lia.
Defined.

Lemma boost_cost_schedule_witness :
  Player.alive Sample.booster = true
  /\ Player.boosting Sample.booster = true
  /\ Player.boostTime Sample.booster = 0%Z
  /\ length (Player.segments (ticks Sample.env Sample.track 93 Sample.booster))
     = (length (Player.segments Sample.booster) - 2)%nat
  /\ Player.score (ticks Sample.env Sample.track 93 Sample.booster)
     = Z.max 0 (Player.score Sample.booster - 2)
  /\ length (Player.segments (ticks Sample.env Sample.track 96 Sample.booster))
     = (length (Player.segments Sample.booster) - 3)%nat.
Proof.
  do 3 (split; [reflexivity|]).
  pose proof (boost_cost_schedule Sample.env Sample.track Sample.booster
                eq_refl eq_refl eq_refl) as H.
  cbv zeta in H. destruct H as (H1 & H2 & _).
  assert (H7 : (7 <= length (Player.segments Sample.booster))%nat)
    by (vm_compute; lia).
  assert (H8 : (8 <= length (Player.segments Sample.booster))%nat)
    by (vm_compute; lia).
  destruct (H1 H7 93%nat ltac:(lia)) as (Ha & Hb & _).
  destruct (H2 H8) as (Hc & _).
  split; [exact Ha|]. split; [exact Hb|exact Hc].
Defined.

Lemma boundary_death_unreachable_witness :
  0 < worldWidth Sample.arena
  /\ 0 < worldHeight Sample.arena
  /\ worldBoundaryCollisions Sample.arena = true
  /\ exists es,
       broadcasts (Nat.iter 3 (gameLoop Sample.env) Sample.arena)
       = broadcasts Sample.arena ++ es
       /\ Forall (fun e => isBoundaryDeath e = false) es.
Proof.
  split; [reflexivity|]. split; [reflexivity|]. split; [reflexivity|].
  refine (proj1 (boundary_death_unreachable Sample.env Sample.arena 3 _ _));
    reflexivity.
Defined.

Lemma respawn_frame_witness :
  getPlayer "A" (players Sample.track) = Some Sample.booster
  /\ Player.boosting Sample.booster = true
  /\ exists q,
       getPlayer "A"
         (players (respawnPlayer Sample.env "A"
                     (Nat.iter 2 (gameLoop Sample.env)
                        (killPlayer "A" Sample.track)))) = Some q
       /\ Player.alive q = true
       /\ Player.angle q = Player.angle Sample.booster
       /\ Player.boosting q = Player.boosting Sample.booster
       /\ Player.boostTime q = Player.boostTime Sample.booster.
Proof.
  split; [reflexivity|]. split; [reflexivity|].
  exact (proj1 (proj2 (proj2
           (respawn_frame Sample.env "A" Sample.track Sample.booster
                          eq_refl))) 2%nat).
Defined.

Lemma respawn_from_any_state_witness :
  getPlayer "A" (players Sample.graveyard)
  = Some (Player.set_alive false Sample.A)
  /\ exists p',
       getPlayer "A" (players (onRespawn Sample.env "A" Sample.graveyard))
       = Some p'
       /\ Player.alive p' = true
       /\ Player.invulnerable p' = true
       /\ Player.score p' = 0%Z
       /\ Player.kills p' = 0%Z
       /\ length (Player.segments p') = 5%nat.
Proof.
  split; [reflexivity|].
  destruct (proj1 (respawn_from_any_state Sample.env "A" Sample.graveyard)
              (Player.set_alive false Sample.A) eq_refl)
    as (p' & H1 & H2 & H3 & H4 & H5 & H6 & _).
  exists p'. repeat (split; [assumption|]). assumption.
Defined.


Lemma topUp_one_per_tick_witness :
  (size (foods Sample.meadow) < maxFoods Sample.meadow)%nat
  /\ broadcasts (topUp Sample.env Sample.meadow)
     = broadcasts Sample.meadow
       ++ [spawnedEvent (spawnedFood Sample.env Sample.meadow)]
  /\ (size (foods (topUp Sample.env Sample.meadow))
      <= maxFoods Sample.meadow)%nat.
Proof.
  assert (Hlt : (size (foods Sample.meadow) < maxFoods Sample.meadow)%nat)
    by (vm_compute; lia).
  split; [exact Hlt|].
  destruct (proj1 (proj2 (topUp_one_per_tick Sample.env Sample.meadow)) Hlt)
    as (_ & H2 & _ & _ & H5).
  split; [exact H2|exact H5].
Defined.

Lemma playerDied_intent_witness :
  let result :=
    onMessagePlayerDied Sample.env "A" (Some (Some "B")) Sample.arena in
  getPlayer "A" (players Sample.arena) = Some Sample.A
  /\ Player.alive Sample.A = true
  /\ getPlayer "B" (players Sample.arena) = Some Sample.B
  /\ snd result = Completes
  /\ exists p' rest k',
       getPlayer "A" (players (fst result)) = Some p'
       /\ Player.alive p' = false
       /\ broadcasts (fst result)
          = broadcasts Sample.arena ++ EvPlayerDied "A" :: rest
       /\ countEvents isFoodSpawned rest = 2%nat
       /\ In (EvPlayerKilled "A" "B") rest
       /\ getPlayer "B" (players (fst result)) = Some k'
       /\ Player.score k' = 5%Z
       /\ Player.kills k' = 1%Z.
Proof.
  cbv zeta.
  split; [reflexivity|]. split; [reflexivity|]. split; [reflexivity|].
  destruct (proj1 (playerDied_intent Sample.env "A" (Some (Some "B"))
                     Sample.arena)
              Sample.A (Some "B") eq_refl eq_refl eq_refl)
    as (Hc & p' & rest & H1 & H2 & H3 & _ & H5 & H6).
  destruct (H6 "B" Sample.B eq_refl ltac:(discriminate) eq_refl)
    as (Hin & k' & Hk & Hs & Hki).
  split; [exact Hc|].
  exists p', rest, k'.
  repeat (split; [assumption|]). assumption.
Defined.

(** * Further properties of the room *)

(** ** The wrap, input by input *)

Lemma inject_Z_lt (a b : Z) : inject_Z a < inject_Z b -> (a < b)%Z.
Proof. intros H. rewrite Zlt_Qlt. exact H. Qed.

Lemma rem_zero_iff (value max : Q) :
  0 < max ->
  (JS.rem value max == 0 <-> exists k : Z, value == inject_Z k * max).
Proof.
  intros Hm.
  assert (Hm0 : ~ max == 0) by (intros E; rewrite E in Hm; lra).
  unfold JS.rem. split.
  - intros H. exists (JS.trunc (value / max)). lra.
  - intros [k Hk].
    rewrite (trunc_integer (value / max) k).
    + rewrite Hk. ring.
    + rewrite Hk. field. exact Hm0.
Qed.

(** X1.  From 0 upward the wrap is what its name says: the result lies in
    [[0, max)], it is the input itself below [max], and it differs from
    the input by a whole number of world dimensions. *)
Theorem wrapCoordinate_from_zero (value max : Q) :
  0 < max ->
  0 <= value ->
  0 <= wrapCoordinate value max
  /\ wrapCoordinate value max < max
  /\ (value < max -> wrapCoordinate value max = value)
  /\ exists k : Z, wrapCoordinate value max == value - inject_Z k * max.
Proof.
  intros Hm Hv.
  destruct (wrapCoordinate_nonneg_input value max Hm Hv) as [H0 H1].
  split; [exact H0|]. split; [exact H1|].
  apply ltb_false in Hv.
  split.
  - intros Hlt. unfold wrapCoordinate. rewrite Hv.
    apply geb_false in Hlt. rewrite Hlt. reflexivity.
  - unfold wrapCoordinate. rewrite Hv.
    destruct (JS.geb value max).
    + exists (JS.trunc (value / max)). unfold JS.rem. ring.
    + exists 0%Z. simpl. ring.
Qed.

(** X2.  Below 0 the wrap lands in [(0, max]]: a negative input never wraps
    to 0, and it wraps to [max] itself, the bound that lies outside the
    world, whenever it is a whole multiple of [max]. *)
Theorem wrapCoordinate_below_zero (value max : Q) :
  0 < max ->
  value < 0 ->
  0 < wrapCoordinate value max
  /\ wrapCoordinate value max <= max
  /\ ((exists k : Z, value == inject_Z k * max) ->
      wrapCoordinate value max == max).
Proof.
  intros Hm Hv.
  assert (Hb : JS.ltb value 0 = true) by (apply ltb_true; exact Hv).
  destruct (rem_neg value max Hm) as [H1 H2]; [lra|].
  unfold wrapCoordinate. rewrite Hb.
  split; [lra|]. split; [lra|].
  intros Hk. apply (rem_zero_iff value max Hm) in Hk. lra.
Qed.

(** ** What movement leaves alone *)

Lemma MoveFrame_refl (p : Player.t) : MoveFrame p p.
Proof. unfold MoveFrame. repeat split; try reflexivity; lia. Qed.

Lemma MoveFrame_trans (a b c : Player.t) :
  MoveFrame a b -> MoveFrame b c -> MoveFrame a c.
Proof.
  unfold MoveFrame.
  intros (A1 & A2 & A3 & A4 & A5 & A6 & A7 & A8 & A9 & A10 & A11 & A12)
         (B1 & B2 & B3 & B4 & B5 & B6 & B7 & B8 & B9 & B10 & B11 & B12).
  repeat (split; [congruence|]).
  split; [lia|]. split; [lia|].
  intros H. specialize (A12 H). specialize (B12 ltac:(lia)). lia.
Qed.

Lemma MoveFrame_boostCost (p : Player.t) : MoveFrame p (boostCost p).
Proof.
  unfold MoveFrame.
  assert (Hfields :
            Player.id (boostCost p) = Player.id p
            /\ Player.name (boostCost p) = Player.name p
            /\ Player.color (boostCost p) = Player.color p
            /\ Player.skinId (boostCost p) = Player.skinId p
            /\ Player.angle (boostCost p) = Player.angle p
            /\ Player.speed (boostCost p) = Player.speed p
            /\ Player.kills (boostCost p) = Player.kills p
            /\ Player.alive (boostCost p) = Player.alive p
            /\ Player.invulnerable (boostCost p) = Player.invulnerable p).
  { unfold boostCost.
    repeat match goal with |- context [if ?c then _ else _] => destruct c end;
      repeat split; reflexivity. }
  destruct Hfields as (H1 & H2 & H3 & H4 & H5 & H6 & H7 & H8 & H9).
  repeat (split; [assumption|]).
  assert (Hlen : (length (Player.segments (boostCost p))
                  <= length (Player.segments p))%nat
                 /\ (Nat.min 5 (length (Player.segments p))
                     <= length (Player.segments (boostCost p)))%nat).
  { destruct (boostCost_segments p) as [E|[H5' E]]; rewrite E.
    - lia.
    - rewrite removelast_length. lia. }
  destruct Hlen as [Hl1 Hl2].
  split; [exact Hl1|]. split; [exact Hl2|].
  intros Hs. unfold boostCost.
  repeat match goal with |- context [if ?c then _ else _] => destruct c end;
    simpl; lia.
Qed.

Lemma MoveFrame_movePlayer (env : Env) (r : Room) (p : Player.t) :
  MoveFrame p (movePlayer env r p).
Proof.
  destruct (Player.alive p) eqn:Ha.
  - destruct (Player.segments p) as [|head rest] eqn:Hs.
    + unfold movePlayer. rewrite Ha, Hs. simpl. apply MoveFrame_refl.
    + assert (Hne : Player.segments p <> []) by (rewrite Hs; discriminate).
      destruct (movePlayer_boost_fields env r p Ha Hne)
        as (Ha' & _ & _ & Hsc & Hlen).
      pose proof (MoveFrame_boostCost p)
        as (B1 & B2 & B3 & B4 & B5 & B6 & B7 & B8 & B9 & B10 & B11 & B12).
      unfold MoveFrame. rewrite Hlen, Hsc, Ha', Ha.
      unfold movePlayer. rewrite Ha, Hs. simpl.
      rewrite Hs in B10, B11.
      repeat (split; [assumption|]).
      split; [reflexivity|]. split; [assumption|].
      split; [exact B10|]. split; [exact B11|exact B12].
  - rewrite movePlayer_dead by exact Ha. apply MoveFrame_refl.
Qed.

Lemma MoveFrame_ticks (env : Env) (r : Room) (n : nat) (p : Player.t) :
  MoveFrame p (ticks env r n p).
Proof.
  induction n as [|n IH].
  - apply MoveFrame_refl.
  - rewrite ticks_succ.
    eapply MoveFrame_trans; [exact IH|apply MoveFrame_movePlayer].
Qed.

(** X3.  Whatever the number of ticks, movement keeps the identity, name,
    color, skin, heading angle, speed, kills, alive flag and invulnerable
    flag of a player; its body never grows and is never cut below five
    segments (a shorter body is never cut); a score that is not negative
    stays so and never grows. *)
Theorem movement_frame (env : Env) (r : Room) (n : nat) (p : Player.t) :
  let p' := ticks env r n p in
  Player.id p' = Player.id p
  /\ Player.name p' = Player.name p
  /\ Player.color p' = Player.color p
  /\ Player.skinId p' = Player.skinId p
  /\ Player.angle p' = Player.angle p
  /\ Player.speed p' = Player.speed p
  /\ Player.kills p' = Player.kills p
  /\ Player.alive p' = Player.alive p
  /\ Player.invulnerable p' = Player.invulnerable p
  /\ (length (Player.segments p') <= length (Player.segments p))%nat
  /\ (Nat.min 5 (length (Player.segments p))
      <= length (Player.segments p'))%nat
  /\ ((0 <= Player.score p)%Z ->
      (0 <= Player.score p' <= Player.score p)%Z).
Proof.
  cbv zeta. exact (MoveFrame_ticks env r n p).
Qed.

(** ** Moving without boost costs nothing *)

Lemma idle_tick (env : Env) (r : Room) (p : Player.t) :
  Player.alive p = true ->
  Player.segments p <> [] ->
  Player.boosting p = false ->
  Player.boosting (movePlayer env r p) = false
  /\ Player.boostTime (movePlayer env r p) = 0%Z
  /\ Player.score (movePlayer env r p) = Player.score p
  /\ length (Player.segments (movePlayer env r p))
     = length (Player.segments p).
Proof.
  intros Ha Hne Hb.
  destruct (movePlayer_boost_fields env r p Ha Hne)
    as (_ & Hb' & Ht' & Hs' & Hl').
  rewrite Hb', Ht', Hs', Hl'. unfold boostCost. rewrite Hb. simpl.
  repeat split; assumption.
Qed.

(** X4.  A living player with a body that does not boost pays nothing: after
    any positive number of ticks its accumulator is at 0, and its score and
    body length are the ones it started with. *)
Theorem no_boost_no_cost (env : Env) (r : Room) (n : nat) (p : Player.t) :
  Player.alive p = true ->
  Player.segments p <> [] ->
  Player.boosting p = false ->
  Player.boosting (ticks env r (S n) p) = false
  /\ Player.boostTime (ticks env r (S n) p) = 0%Z
  /\ Player.score (ticks env r (S n) p) = Player.score p
  /\ length (Player.segments (ticks env r (S n) p))
     = length (Player.segments p).
Proof.
  intros Ha Hne Hb.
  induction n as [|n IH].
  - apply idle_tick; assumption.
  - destruct IH as (Hb1 & Ht1 & Hs1 & Hl1).
    rewrite (ticks_succ env r (S n) p).
    destruct (MoveFrame_ticks env r (S n) p)
      as (_ & _ & _ & _ & _ & _ & _ & Ha1 & _).
    rewrite Ha in Ha1.
    assert (Hne1 : Player.segments (ticks env r (S n) p) <> []).
    { intros E. rewrite E in Hl1. destruct (Player.segments p);
        [contradiction|discriminate]. }
    destruct (idle_tick env r (ticks env r (S n) p) Ha1 Hne1 Hb1)
      as (Hb2 & Ht2 & Hs2 & Hl2).
    rewrite Hb2, Ht2, Hs2, Hl2. repeat split; assumption.
Qed.

(** ** Boosting runs dry *)

Lemma boost_drain (env : Env) (r : Room) (d : nat) :
  forall (p : Player.t) (s : Z) (len : nat),
    BoostState p true 0 s len ->
    (0 <= s)%Z ->
    len = (5 + d)%nat ->
    BoostState (ticks env r (32 * d) p) true 0 (Z.max 0 (s - Z.of_nat d)) 5.
Proof.
  induction d as [|d IH]; intros p s len Hp Hs Hlen.
  - subst len. change (ticks env r (32 * 0) p) with p.
    replace (Z.max 0 (s - Z.of_nat 0)) with s by lia. exact Hp.
  - pose proof (boost_period env r p s len Hp ltac:(lia)) as H1.
    pose proof (IH _ _ _ H1 ltac:(lia) ltac:(lia)) as H2.
    rewrite <- ticks_add in H2.
    replace (32 * S d)%nat with (32 * d + 32)%nat by lia.
    replace (Z.max 0 (s - Z.of_nat (S d)))
      with (Z.max 0 (Z.max 0 (s - 1) - Z.of_nat d)) by lia.
    exact H2.
Qed.

(** X5.  Sustained boosting always ends: a living player that boosts from an
    empty accumulator with [5 + d] segments and a score that is not
    negative is cut to exactly five segments after [32 * d] ticks, having
    paid [d] points (floored at 0), and 32 ticks later boosting is switched
    off with the five segments and the score left. *)
Theorem boost_runs_dry (env : Env) (r : Room) (p : Player.t) (d : nat) :
  Player.alive p = true ->
  Player.boosting p = true ->
  Player.boostTime p = 0%Z ->
  (0 <= Player.score p)%Z ->
  length (Player.segments p) = (5 + d)%nat ->
  (Player.boosting (ticks env r (32 * d) p) = true
   /\ length (Player.segments (ticks env r (32 * d) p)) = 5%nat
   /\ Player.score (ticks env r (32 * d) p)
      = Z.max 0 (Player.score p - Z.of_nat d))
  /\ (Player.boosting (ticks env r (32 * d + 32) p) = false
      /\ length (Player.segments (ticks env r (32 * d + 32) p)) = 5%nat
      /\ Player.score (ticks env r (32 * d + 32) p)
         = Z.max 0 (Player.score p - Z.of_nat d)).
Proof.
  intros Ha Hb Ht Hs Hlen.
  assert (Hp : BoostState p true 0 (Player.score p) (5 + d)).
  { repeat split; assumption. }
  pose proof (boost_drain env r d p _ _ Hp Hs eq_refl) as H1.
  pose proof (boost_stop env r _ _ _ H1 ltac:(lia)) as H2.
  rewrite <- ticks_add in H2.
  replace (32 + 32 * d)%nat with (32 * d + 32)%nat in H2 by lia.
  destruct H1 as (_ & B1 & _ & S1 & L1).
  destruct H2 as (_ & B2 & _ & S2 & L2).
  repeat split; assumption.
Qed.

(** ** The invariant of the room *)

Lemma forEach_invariant (Inv : Room -> Prop)
  (callback : string -> Room -> Room) :
  (forall k r, Inv r -> Inv (callback k r)) ->
  forall r, Inv r -> Inv (forEachPlayer callback r).
Proof.
  intros Hcb r. unfold forEachPlayer.
  generalize (map fst (players r)). intros keys. revert r.
  induction keys as [|k keys IH]; intros r H; simpl; [exact H|].
  apply IH, Hcb, H.
Qed.

Lemma getPlayer_alter_cases (f : Player.t -> Player.t) (key k : string)
  (ps : list (string * Player.t)) (p' : Player.t) :
  getPlayer k (alterPlayer f key ps) = Some p' ->
  (k = key /\ exists p, getPlayer key ps = Some p /\ p' = f p)
  \/ (k <> key /\ getPlayer k ps = Some p').
Proof.
  intros H. destruct (String.eqb_spec k key) as [->|Hne].
  - left. split; [reflexivity|].
    rewrite getPlayer_alter_eq in H.
    destruct (getPlayer key ps) as [p|]; [|discriminate].
    exists p. split; [reflexivity|]. simpl in H. congruence.
  - right. split; [exact Hne|].
    rewrite getPlayer_alter_ne in H by exact Hne. exact H.
Qed.

Lemma Healthy_frame (r r' : Room) :
  players r' = players r -> foods r' = foods r -> Healthy r -> Healthy r'.
Proof.
  intros Hp Hf [H1 H2]. split.
  - intros k p. rewrite Hp. apply H1.
  - intros k f. rewrite Hf. apply H2.
Qed.

Lemma Healthy_mutPlayer (key : string) (f : Player.t -> Player.t)
  (r : Room) :
  Healthy r ->
  (forall p,
     getPlayer key (players r) = Some p ->
     SoundPlayer key p -> SoundPlayer key (f p)) ->
  Healthy (mutPlayer key f r).
Proof.
  intros [H1 H2] Hf. split; [|exact H2].
  intros k p' Hk. simpl in Hk.
  destruct (getPlayer_alter_cases f key k _ p' Hk)
    as [(-> & p & Hp & ->)|(Hne & Hp)].
  - apply Hf; [exact Hp|apply H1, Hp].
  - apply H1, Hp.
Qed.

Lemma Healthy_food_insert (r r' : Room) (key : string) (f : Food.t) :
  players r' = players r ->
  foods r' = <[key := f]> (foods r) ->
  SoundFood key f ->
  Healthy r -> Healthy r'.
Proof.
  intros Hp Hf Hs [H1 H2]. split.
  - intros k p. rewrite Hp. apply H1.
  - intros k g. rewrite Hf. rewrite lookup_insert.
    case_decide as E.
    + intros Hg. injection Hg as <-. subst k. exact Hs.
    + apply H2.
Qed.

Lemma Healthy_food_delete (r r' : Room) (key : string) :
  players r' = players r ->
  foods r' = delete key (foods r) ->
  Healthy r -> Healthy r'.
Proof.
  intros Hp Hf [H1 H2]. split.
  - intros k p. rewrite Hp. apply H1.
  - intros k g. rewrite Hf. rewrite lookup_delete.
    case_decide as E; [discriminate|apply H2].
Qed.

Lemma Healthy_spawnFood (env : Env) (r : Room) :
  Healthy r -> Healthy (spawnFood env r).
Proof.
  intros H. rewrite spawnFood_room.
  apply (Healthy_food_insert r _ (Food.id (spawnedFood env r))
           (spawnedFood env r)); [reflexivity|reflexivity| |exact H].
  split; [reflexivity|].
  unfold spawnedFood. simpl. destruct (JS.ltb _ _); auto.
Qed.

Lemma Healthy_topUp (env : Env) (r : Room) :
  Healthy r -> Healthy (topUp env r).
Proof.
  intros H. unfold topUp. destruct (_ <? _)%nat; [|exact H].
  apply Healthy_spawnFood, H.
Qed.

Lemma Healthy_dropLoop (env : Env) (n : nat) (segs : list SnakeSegment.t)
  (r : Room) :
  Healthy r -> Healthy (dropLoop env n segs r).
Proof.
  revert r. induction n as [|n IH]; intros r H; simpl; [exact H|].
  apply IH.
  unfold dropOne.
  match goal with
  | |- Healthy (broadcast (EvFoodSpawned ?i ?x ?y ?v) _) =>
      apply (Healthy_food_insert r _ i (Food.new i x y v));
        [reflexivity|reflexivity| |exact H]
  end.
  split; [reflexivity|left; reflexivity].
Qed.

Lemma Healthy_spawnFoodFromDeadPlayer (env : Env) (key : string) (r : Room) :
  Healthy r -> Healthy (spawnFoodFromDeadPlayer env key r).
Proof.
  intros H. unfold spawnFoodFromDeadPlayer.
  destruct (getPlayer key (players r)); [|exact H].
  apply Healthy_dropLoop, H.
Qed.

Lemma Healthy_broadcast (e : Event) (r : Room) :
  Healthy r -> Healthy (broadcast e r).
Proof. apply Healthy_frame; reflexivity. Qed.

Lemma Healthy_killPlayer (key : string) (r : Room) :
  Healthy r -> Healthy (killPlayer key r).
Proof.
  intros H. unfold killPlayer.
  destruct (getPlayer key (players r)); [|exact H].
  apply Healthy_broadcast, Healthy_mutPlayer; [exact H|].
  intros p _ Hs. exact Hs.
Qed.

Lemma Healthy_creditKill (victim killer : string) (r : Room) :
  Healthy r -> Healthy (creditKill victim killer r).
Proof.
  intros H. unfold creditKill.
  destruct (getPlayer victim (players r)) as [v|] eqn:Hv; [|exact H].
  destruct (proj1 H victim v Hv) as (_ & Hsv & _ & _).
  apply Healthy_mutPlayer; [exact H|].
  intros p _ (Hid & Hsc & Hk & Hl).
  assert (0 <= Player.score v / 2)%Z by (apply Z.div_pos; lia).
  repeat split; simpl; try assumption; lia.
Qed.

Lemma Healthy_collisionCallback (env : Env) (key : string)
  (head : SnakeSegment.t) (other : string) (r : Room) :
  Healthy r -> Healthy (collisionCallback env key head other r).
Proof.
  intros H. unfold collisionCallback.
  destruct (getPlayer key (players r)) as [p|]; [|exact H].
  destruct (getPlayer other (players r)) as [o|]; [|exact H].
  destruct (_ || _); [exact H|].
  destruct (Player.invulnerable p); [exact H|].
  destruct (scanBody _ _ _); [|exact H].
  apply Healthy_spawnFoodFromDeadPlayer, Healthy_broadcast,
        Healthy_creditKill, Healthy_killPlayer, H.
Qed.

Lemma Healthy_checkPlayerCollisions (env : Env) (key : string) (r : Room) :
  Healthy r -> Healthy (checkPlayerCollisions env key r).
Proof.
  intros H. unfold checkPlayerCollisions.
  destruct (getPlayer key (players r)) as [p|]; [|exact H].
  destruct (negb (Player.alive p)); [exact H|].
  destruct (Player.segments p) as [|head rest]; [exact H|].
  assert (H1 : Healthy (forEachPlayer (collisionCallback env key head) r)).
  { apply forEach_invariant; [|exact H].
    intros k r0. apply Healthy_collisionCallback. }
  destruct (_ && _); [|exact H1].
  apply Healthy_spawnFoodFromDeadPlayer, Healthy_broadcast,
        Healthy_killPlayer, H1.
Qed.

Lemma SoundPlayer_movePlayer (env : Env) (r : Room) (key : string)
  (p : Player.t) :
  SoundPlayer key p -> SoundPlayer key (movePlayer env r p).
Proof.
  intros (Hid & Hsc & Hk & Hl).
  destruct (MoveFrame_movePlayer env r p)
    as (M1 & _ & _ & _ & _ & _ & M7 & _ & _ & _ & M11 & M12).
  specialize (M12 Hsc).
  repeat split; try congruence; lia.
Qed.

Lemma Healthy_gameLoopCallback (env : Env) (key : string) (r : Room) :
  Healthy r -> Healthy (gameLoopCallback env key r).
Proof.
  intros H. unfold gameLoopCallback.
  destruct (getPlayer key (players r)) as [p|]; [|exact H].
  destruct (negb (Player.alive p)); [exact H|].
  apply Healthy_checkPlayerCollisions, Healthy_mutPlayer; [exact H|].
  intros q _. apply SoundPlayer_movePlayer.
Qed.

Lemma Healthy_gameLoop (env : Env) (r : Room) :
  Healthy r -> Healthy (gameLoop env r).
Proof.
  intros H. unfold gameLoop. apply Healthy_topUp.
  apply forEach_invariant; [|exact H].
  intros k r0. apply Healthy_gameLoopCallback.
Qed.

Lemma Healthy_onMove (sessionId : string) (angle : Q) (r : Room) :
  Healthy r -> Healthy (onMove sessionId angle r).
Proof.
  intros H. unfold onMove.
  destruct (getPlayer sessionId (players r)) as [p|]; [|exact H].
  destruct (Player.alive p); [|exact H].
  apply Healthy_mutPlayer; [exact H|]. intros q _ Hs. exact Hs.
Qed.

Lemma Healthy_onBoost (sessionId : string) (active : bool) (r : Room) :
  Healthy r -> Healthy (onBoost sessionId active r).
Proof.
  intros H. unfold onBoost.
  destruct (getPlayer sessionId (players r)) as [p|]; [|exact H].
  destruct (Player.alive p); [|exact H].
  destruct (_ && _); (apply Healthy_mutPlayer; [exact H|]);
    intros q _ Hs; exact Hs.
Qed.

Lemma respawnPlayer_foods (env : Env) (sessionId : string) (r : Room) :
  foods (respawnPlayer env sessionId r) = foods r.
Proof.
  unfold respawnPlayer.
  destruct (getPlayer sessionId (players r)); reflexivity.
Qed.

Lemma Healthy_respawnPlayer (env : Env) (sessionId : string) (r : Room) :
  Healthy r -> Healthy (respawnPlayer env sessionId r).
Proof.
  intros [H1 H2]. split.
  - intros k p' Hk.
    destruct (String.eqb_spec k sessionId) as [->|Hne].
    + destruct (getPlayer sessionId (players r)) as [p|] eqn:Hp.
      * rewrite (respawnPlayer_player env sessionId r p Hp) in Hk.
        injection Hk as <-.
        destruct (H1 sessionId p Hp) as (Hid & _).
        repeat split; simpl; try assumption; try lia.
      * unfold respawnPlayer in Hk. rewrite Hp in Hk. congruence.
    + rewrite respawnPlayer_others in Hk by exact Hne. apply H1, Hk.
  - intros k f. rewrite respawnPlayer_foods. apply H2.
Qed.

Lemma SoundPlayer_addSegments (n : nat) (key : string) (p : Player.t) :
  SoundPlayer key p -> SoundPlayer key (Nat.iter n Player.addSegment p).
Proof.
  intros H. induction n as [|n IH]; [exact H|].
  change (Nat.iter (S n) Player.addSegment p)
    with (Player.addSegment (Nat.iter n Player.addSegment p)).
  set (q := Nat.iter n Player.addSegment p) in *.
  destruct IH as (Hid & Hsc & Hk & Hl).
  unfold Player.addSegment.
  destruct (last _); [|repeat split; assumption].
  repeat split; simpl; try assumption.
  rewrite length_app. simpl. lia.
Qed.

Lemma Healthy_onEatFood (env : Env) (sessionId foodId : string) (r : Room) :
  Healthy r -> Healthy (onEatFood env sessionId foodId r).
Proof.
  intros H. unfold onEatFood.
  destruct (getPlayer sessionId (players r)) as [p|]; [|exact H].
  destruct (negb (Player.alive p)); [exact H|].
  destruct (foods r !! foodId) as [food|] eqn:Hf; [|exact H].
  destruct (Player.head p) as [head|]; [|exact H].
  destruct (withinDistance _ _ _ _); [|exact H].
  destruct (proj2 H foodId food Hf) as (_ & Hv).
  apply Healthy_spawnFood.
  match goal with
  | |- Healthy (set_foods (delete ?k (foods ?r0)) ?r0) =>
      apply (Healthy_food_delete r0 _ k); [reflexivity|reflexivity|]
  end.
  apply Healthy_broadcast.
  apply Healthy_mutPlayer.
  - apply Healthy_mutPlayer; [exact H|].
    intros q _ (Hid & Hsc & Hk & Hl).
    repeat split; simpl; try assumption. destruct Hv; lia.
  - intros q _. apply SoundPlayer_addSegments.
Qed.

Lemma Healthy_onPlayerDied (env : Env) (sessionId : string)
  (killerSessionId : option string) (r : Room) :
  Healthy r -> Healthy (onPlayerDied env sessionId killerSessionId r).
Proof.
  intros H. unfold onPlayerDied.
  destruct (getPlayer sessionId (players r)) as [p|]; [|exact H].
  destruct (negb (Player.alive p)); [exact H|].
  apply Healthy_spawnFoodFromDeadPlayer.
  pose proof (Healthy_killPlayer sessionId r H) as H1.
  destruct killerSessionId as [kid|]; [|exact H1].
  destruct (truthy kid); [|exact H1].
  destruct (getPlayer kid _); [|exact H1].
  apply Healthy_broadcast, Healthy_creditKill, H1.
Qed.

Lemma Healthy_onMessagePlayerDied (env : Env) (sessionId : string)
  (message : option (option string)) (r : Room) :
  Healthy r -> Healthy (fst (onMessagePlayerDied env sessionId message r)).
Proof.
  intros H. destruct message as [killerSessionId|].
  - rewrite onMessagePlayerDied_payload. apply Healthy_onPlayerDied, H.
  - unfold onMessagePlayerDied.
    destruct (getPlayer sessionId (players r)) as [p|]; [|exact H].
    destruct (negb (Player.alive p)); [exact H|].
    apply Healthy_killPlayer, H.
Qed.

Lemma getPlayer_delete (key k : string) (ps : list (string * Player.t)) :
  getPlayer k (deletePlayer key ps)
  = if String.eqb k key then None else getPlayer k ps.
Proof.
  induction ps as [|[k' p] rest IH]; simpl.
  - destruct (String.eqb k key); reflexivity.
  - destruct (String.eqb_spec key k') as [<-|Hne]; simpl.
    + rewrite IH. destruct (String.eqb k key); reflexivity.
    + rewrite IH.
      destruct (String.eqb_spec k k') as [->|Hne']; [|reflexivity].
      destruct (String.eqb_spec k' key) as [->|_]; [contradiction|reflexivity].
Qed.

Lemma Healthy_onLeave (sessionId : string) (r : Room) :
  Healthy r -> Healthy (onLeave sessionId r).
Proof.
  intros [H1 H2]. split; [|exact H2].
  intros k p. simpl. rewrite getPlayer_delete.
  destruct (String.eqb k sessionId); [discriminate|apply H1].
Qed.

Lemma Healthy_step (env : Env) (r r' : Room) :
  Step env r r' -> Healthy r -> Healthy r'.
Proof.
  intros [] H.
  - apply Healthy_gameLoop, H.
  - apply Healthy_onMove, H.
  - apply Healthy_onBoost, H.
  - apply Healthy_respawnPlayer, H.
  - apply Healthy_onEatFood, H.
  - apply Healthy_onMessagePlayerDied, H.
  - apply Healthy_onLeave, H.
Qed.

(** X6.  The room keeps its invariant through every callback, hence through any
    sequence of ticks and messages (move, boost, respawn, eatFood,
    playerDied, leave): every player carries its session id as id, no score
    and no kill count is negative, every body has at least five segments,
    every food is stored under its own id and is worth 1 or 5. *)
Theorem room_invariant (env : Env) (r r' : Room) :
  Healthy r -> rtc (Step env) r r' -> Healthy r'.
Proof.
  intros H Hrun. induction Hrun as [|a b c Hab _ IH]; [exact H|].
  apply IH. exact (Healthy_step env a b Hab H).
Qed.

(** ** The cast and the constants of the world *)

Lemma SameCast_refl (r : Room) : SameCast r r.
Proof. repeat split. Qed.

Lemma SameCast_trans (a b c : Room) :
  SameCast a b -> SameCast b c -> SameCast a c.
Proof.
  intros (A1 & A2 & A3 & A4 & A5) (B1 & B2 & B3 & B4 & B5).
  repeat split; congruence.
Qed.

Lemma SameCast_mutPlayer (key : string) (f : Player.t -> Player.t)
  (r : Room) :
  SameCast r (mutPlayer key f r).
Proof. repeat split. simpl. apply keys_alter. Qed.

Lemma SameCast_killPlayer (key : string) (r : Room) :
  SameCast r (killPlayer key r).
Proof.
  unfold killPlayer. destruct (getPlayer key (players r)).
  - repeat split. simpl. apply keys_alter.
  - apply SameCast_refl.
Qed.

Lemma SameCast_creditKill (victim killer : string) (r : Room) :
  SameCast r (creditKill victim killer r).
Proof.
  unfold creditKill. destruct (getPlayer victim (players r)).
  - apply SameCast_mutPlayer.
  - apply SameCast_refl.
Qed.

Lemma SameCast_dropLoop (env : Env) (n : nat) (segs : list SnakeSegment.t)
  (r : Room) :
  SameCast r (dropLoop env n segs r).
Proof.
  revert r. induction n as [|n IH]; intros r; simpl.
  - apply SameCast_refl.
  - eapply SameCast_trans; [|apply IH]. repeat split.
Qed.

Lemma SameCast_spawnFoodFromDeadPlayer (env : Env) (key : string)
  (r : Room) :
  SameCast r (spawnFoodFromDeadPlayer env key r).
Proof.
  unfold spawnFoodFromDeadPlayer. destruct (getPlayer key (players r)).
  - apply SameCast_dropLoop.
  - apply SameCast_refl.
Qed.

Lemma SameCast_spawnFood (env : Env) (r : Room) :
  SameCast r (spawnFood env r).
Proof. rewrite spawnFood_room. repeat split. Qed.

Lemma SameCast_collisionCallback (env : Env) (key : string)
  (head : SnakeSegment.t) (other : string) (r : Room) :
  SameCast r (collisionCallback env key head other r).
Proof.
  unfold collisionCallback.
  destruct (getPlayer key (players r)) as [p|]; [|apply SameCast_refl].
  destruct (getPlayer other (players r)) as [o|]; [|apply SameCast_refl].
  destruct (_ || _); [apply SameCast_refl|].
  destruct (Player.invulnerable p); [apply SameCast_refl|].
  destruct (scanBody _ _ _); [|apply SameCast_refl].
  eapply SameCast_trans; [apply SameCast_killPlayer|].
  eapply SameCast_trans; [apply SameCast_creditKill|].
  eapply SameCast_trans; [|apply SameCast_spawnFoodFromDeadPlayer].
  repeat split.
Qed.

Lemma SameCast_forEach (callback : string -> Room -> Room) :
  (forall k r, SameCast r (callback k r)) ->
  forall r, SameCast r (forEachPlayer callback r).
Proof.
  intros Hcb r.
  apply (forEach_invariant (SameCast r)); [|apply SameCast_refl].
  intros k r0 H. eapply SameCast_trans; [exact H|apply Hcb].
Qed.

Lemma SameCast_checkPlayerCollisions (env : Env) (key : string) (r : Room) :
  SameCast r (checkPlayerCollisions env key r).
Proof.
  unfold checkPlayerCollisions.
  destruct (getPlayer key (players r)) as [p|]; [|apply SameCast_refl].
  destruct (negb (Player.alive p)); [apply SameCast_refl|].
  destruct (Player.segments p) as [|head rest]; [apply SameCast_refl|].
  assert (H1 : SameCast r (forEachPlayer (collisionCallback env key head) r)).
  { apply SameCast_forEach. intros k r0. apply SameCast_collisionCallback. }
  destruct (_ && _); [|exact H1].
  eapply SameCast_trans; [exact H1|].
  eapply SameCast_trans; [apply SameCast_killPlayer|].
  eapply SameCast_trans; [|apply SameCast_spawnFoodFromDeadPlayer].
  repeat split.
Qed.

Lemma SameCast_gameLoopCallback (env : Env) (key : string) (r : Room) :
  SameCast r (gameLoopCallback env key r).
Proof.
  unfold gameLoopCallback.
  destruct (getPlayer key (players r)) as [p|]; [|apply SameCast_refl].
  destruct (negb (Player.alive p)); [apply SameCast_refl|].
  eapply SameCast_trans; [apply (SameCast_mutPlayer key (movePlayer env r))|].
  apply SameCast_checkPlayerCollisions.
Qed.

Lemma SameCast_gameLoop (env : Env) (r : Room) : SameCast r (gameLoop env r).
Proof.
  unfold gameLoop, topUp.
  assert (H1 : SameCast r (forEachPlayer (gameLoopCallback env) r)).
  { apply SameCast_forEach. intros k r0. apply SameCast_gameLoopCallback. }
  destruct (_ <? _)%nat; [|exact H1].
  eapply SameCast_trans; [exact H1|apply SameCast_spawnFood].
Qed.








(** ** Who kills whom in a tick *)

Lemma Emits_refl (P : Event -> Prop) (r : Room) : Emits P r r.
Proof. exists []. rewrite app_nil_r. split; [reflexivity|constructor]. Qed.

Lemma Emits_trans (P : Event -> Prop) (a b c : Room) :
  Emits P a b -> Emits P b c -> Emits P a c.
Proof.
  intros (es1 & He1 & Hf1) (es2 & He2 & Hf2).
  exists (es1 ++ es2). split.
  - rewrite He2, He1, app_assoc. reflexivity.
  - apply Forall_app. split; assumption.
Qed.

Lemma Emits_frame (P : Event -> Prop) (r r' : Room) :
  broadcasts r' = broadcasts r -> Emits P r r'.
Proof.
  intros H. exists []. rewrite app_nil_r. split; [exact H|constructor].
Qed.

Lemma Emits_broadcast (P : Event -> Prop) (e : Event) (r : Room) :
  P e -> Emits P r (broadcast e r).
Proof.
  intros He. exists [e]. split; [reflexivity|].
  constructor; [exact He|constructor].
Qed.

Lemma Emits_killPlayer (key : string) (r : Room) :
  Emits noSelfKill r (killPlayer key r).
Proof.
  unfold killPlayer. destruct (getPlayer key (players r)) as [p|].
  - apply (Emits_broadcast noSelfKill (EvPlayerDied (Player.id p))
             (mutPlayer key (Player.set_alive false) r)).
    exact I.
  - apply Emits_refl.
Qed.

Lemma Emits_creditKill (victim killer : string) (r : Room) :
  Emits noSelfKill r (creditKill victim killer r).
Proof.
  apply Emits_frame. unfold creditKill.
  destruct (getPlayer victim (players r)); reflexivity.
Qed.

Lemma Emits_spawnFoodFromDeadPlayer (env : Env) (key : string) (r : Room) :
  Emits noSelfKill r (spawnFoodFromDeadPlayer env key r).
Proof.
  destruct (getPlayer key (players r)) as [v|] eqn:Hv.
  - destruct (spawnFoodFromDeadPlayer_frame env key r v Hv)
      as (_ & _ & _ & drops & Hb & _ & Hf).
    exists drops. split; [exact Hb|].
    eapply Forall_impl; [exact Hf|].
    intros [] H; simpl in *; try exact I; discriminate.
  - unfold spawnFoodFromDeadPlayer. rewrite Hv. apply Emits_refl.
Qed.

Lemma Emits_topUp (env : Env) (r : Room) : Emits noSelfKill r (topUp env r).
Proof.
  unfold topUp. destruct (_ <? _)%nat; [|apply Emits_refl].
  rewrite spawnFood_room. eexists. split; [reflexivity|].
  constructor; [exact I|constructor].
Qed.

Lemma Emits_collisionCallback (env : Env) (key : string)
  (head : SnakeSegment.t) (other : string) (r : Room) :
  Healthy r ->
  Emits noSelfKill r (collisionCallback env key head other r).
Proof.
  intros [Hpl _]. unfold collisionCallback.
  destruct (getPlayer key (players r)) as [p|] eqn:Hp; [|apply Emits_refl].
  destruct (getPlayer other (players r)) as [o|] eqn:Ho; [|apply Emits_refl].
  destruct (String.eqb other (Player.id p)) eqn:E; simpl;
    [apply Emits_refl|].
  destruct (negb (Player.alive o)); [apply Emits_refl|].
  destruct (Player.invulnerable p); [apply Emits_refl|].
  destruct (scanBody _ _ _); [|apply Emits_refl].
  eapply Emits_trans; [apply Emits_killPlayer|].
  eapply Emits_trans; [apply Emits_creditKill|].
  eapply Emits_trans; [|apply Emits_spawnFoodFromDeadPlayer].
  apply (Emits_broadcast noSelfKill
           (EvPlayerKilled (Player.id p) (Player.id o))).
  simpl. destruct (Hpl other o Ho) as (Hid & _). rewrite Hid.
  intros Heq. rewrite Heq, String.eqb_refl in E. discriminate.
Qed.

Lemma Emits_forEach (callback : string -> Room -> Room) :
  (forall k r, Healthy r -> Healthy (callback k r)) ->
  (forall k r, Healthy r -> Emits noSelfKill r (callback k r)) ->
  forall r, Healthy r -> Emits noSelfKill r (forEachPlayer callback r).
Proof.
  intros Hinv Hcb r H.
  assert (Hboth : Healthy (forEachPlayer callback r)
                  /\ Emits noSelfKill r (forEachPlayer callback r)).
  { apply (forEach_invariant
             (fun r0 => Healthy r0 /\ Emits noSelfKill r r0)).
    - intros k r0 [H0 He]. split; [apply Hinv, H0|].
      eapply Emits_trans; [exact He|apply Hcb, H0].
    - split; [exact H|apply Emits_refl]. }
  apply Hboth.
Qed.

Lemma Emits_checkPlayerCollisions (env : Env) (key : string) (r : Room) :
  Healthy r -> Emits noSelfKill r (checkPlayerCollisions env key r).
Proof.
  intros H. unfold checkPlayerCollisions.
  destruct (getPlayer key (players r)) as [p|]; [|apply Emits_refl].
  destruct (negb (Player.alive p)); [apply Emits_refl|].
  destruct (Player.segments p) as [|head rest]; [apply Emits_refl|].
  assert (H1 : Emits noSelfKill r
                 (forEachPlayer (collisionCallback env key head) r)).
  { apply Emits_forEach; [| |exact H].
    - intros k r0. apply Healthy_collisionCallback.
    - intros k r0. apply Emits_collisionCallback. }
  destruct (_ && _); [|exact H1].
  eapply Emits_trans; [exact H1|].
  eapply Emits_trans; [apply Emits_killPlayer|].
  eapply Emits_trans; [|apply Emits_spawnFoodFromDeadPlayer].
  apply (Emits_broadcast noSelfKill (EvPlayerDiedNoKiller (Player.id p))).
  exact I.
Qed.

Lemma Emits_gameLoopCallback (env : Env) (key : string) (r : Room) :
  Healthy r -> Emits noSelfKill r (gameLoopCallback env key r).
Proof.
  intros H. unfold gameLoopCallback.
  destruct (getPlayer key (players r)) as [p|]; [|apply Emits_refl].
  destruct (negb (Player.alive p)); [apply Emits_refl|].
  eapply Emits_trans;
    [apply (Emits_frame noSelfKill r (mutPlayer key (movePlayer env r) r));
     reflexivity|].
  apply Emits_checkPlayerCollisions, Healthy_mutPlayer; [exact H|].
  intros q _. apply SoundPlayer_movePlayer.
Qed.

Lemma Emits_gameLoop (env : Env) (r : Room) :
  Healthy r -> Emits noSelfKill r (gameLoop env r).
Proof.
  intros H. unfold gameLoop.
  eapply Emits_trans; [|apply Emits_topUp].
  apply Emits_forEach; [| |exact H].
  - intros k r0. apply Healthy_gameLoopCallback.
  - intros k r0. apply Emits_gameLoopCallback.
Qed.

(** X8.  In a room that satisfies its invariant, the ticks never credit a
    player with its own death: whatever the number of ticks, every
    [playerKilled] event they broadcast names a killer different from the
    killed player. *)
Theorem ticks_never_self_kill (env : Env) (r : Room) (n : nat) :
  Healthy r ->
  exists es,
    broadcasts (Nat.iter n (gameLoop env) r) = broadcasts r ++ es
    /\ Forall noSelfKill es.
Proof.
  intros H.
  assert (Hboth : Healthy (Nat.iter n (gameLoop env) r)
                  /\ Emits noSelfKill r (Nat.iter n (gameLoop env) r)).
  { induction n as [|n [IH1 IH2]]; simpl.
    - split; [exact H|apply Emits_refl].
    - split; [apply Healthy_gameLoop, IH1|].
      eapply Emits_trans; [exact IH2|apply Emits_gameLoop, IH1]. }
  apply Hboth.
Qed.

(** ** The shield of an invulnerable player *)

Lemma Shielded_frame (key : string) (r r' : Room) :
  players r' = players r -> Shielded key r -> Shielded key r'.
Proof. intros Hp (q & Hq). exists q. rewrite Hp. exact Hq. Qed.

Lemma Shielded_mutPlayer (key k : string) (f : Player.t -> Player.t)
  (r : Room) :
  (k <> key
   \/ forall q,
        Player.alive q = true ->
        Player.invulnerable q = true ->
        Player.alive (f q) = true /\ Player.invulnerable (f q) = true) ->
  Shielded key r -> Shielded key (mutPlayer k f r).
Proof.
  intros Hf (q & Hq & Ha & Hi).
  destruct (String.eqb_spec key k) as [->|Hne].
  - destruct Hf as [Hk|Hf]; [contradiction|].
    exists (f q). rewrite getPlayer_mutPlayer_eq, Hq.
    split; [reflexivity|]. apply Hf; assumption.
  - exists q. rewrite getPlayer_mutPlayer_ne by exact Hne.
    repeat split; assumption.
Qed.

Lemma Shielded_creditKill (key victim killer : string) (r : Room) :
  Shielded key r -> Shielded key (creditKill victim killer r).
Proof.
  intros H. unfold creditKill.
  destruct (getPlayer victim (players r)); [|exact H].
  apply Shielded_mutPlayer; [|exact H].
  right. intros q Ha Hi. split; assumption.
Qed.

Lemma Shielded_spawnFoodFromDeadPlayer (env : Env) (key k : string)
  (r : Room) :
  Shielded key r -> Shielded key (spawnFoodFromDeadPlayer env k r).
Proof.
  intros H. unfold spawnFoodFromDeadPlayer.
  destruct (getPlayer k (players r)); [|exact H].
  apply (Shielded_frame key r); [apply dropLoop_players|exact H].
Qed.

Lemma Shielded_killPlayer_other (key k : string) (r : Room) :
  k <> key -> Shielded key r -> Shielded key (killPlayer k r).
Proof.
  intros Hne H. unfold killPlayer.
  destruct (getPlayer k (players r)); [|exact H].
  apply (Shielded_frame key (mutPlayer k (Player.set_alive false) r));
    [reflexivity|].
  apply Shielded_mutPlayer; [left; exact Hne|exact H].
Qed.

(** No collision is declared for the head of an invulnerable player. *)
Lemma collisionCallback_invulnerable (env : Env) (key : string)
  (head : SnakeSegment.t) (other : string) (r : Room) (p : Player.t) :
  getPlayer key (players r) = Some p ->
  Player.invulnerable p = true ->
  collisionCallback env key head other r = r.
Proof.
  intros Hp Hi. unfold collisionCallback. rewrite Hp.
  destruct (getPlayer other (players r)); [|reflexivity].
  destruct (_ || _); [reflexivity|]. rewrite Hi. reflexivity.
Qed.

Lemma Shielded_collisionCallback (env : Env) (key k : string)
  (head : SnakeSegment.t) (other : string) (r : Room) :
  Shielded key r -> Shielded key (collisionCallback env k head other r).
Proof.
  intros H.
  destruct (String.eqb_spec k key) as [->|Hne].
  - destruct H as (q & Hq & Ha & Hi).
    rewrite (collisionCallback_invulnerable env key head other r q Hq Hi).
    exists q. repeat split; assumption.
  - unfold collisionCallback.
    destruct (getPlayer k (players r)) as [p|]; [|exact H].
    destruct (getPlayer other (players r)) as [o|]; [|exact H].
    destruct (_ || _); [exact H|].
    destruct (Player.invulnerable p); [exact H|].
    destruct (scanBody _ _ _); [|exact H].
    apply Shielded_spawnFoodFromDeadPlayer.
    apply (Shielded_frame key (creditKill k other (killPlayer k r)));
      [reflexivity|].
    apply Shielded_creditKill, Shielded_killPlayer_other; assumption.
Qed.

Lemma Shielded_checkPlayerCollisions (env : Env) (key k : string)
  (r : Room) :
  (forall p head rest,
     getPlayer k (players r) = Some p ->
     Player.alive p = true ->
     Player.segments p = head :: rest ->
     outOfWorld head r = false) ->
  Shielded key r -> Shielded key (checkPlayerCollisions env k r).
Proof.
  intros Hin H. unfold checkPlayerCollisions.
  destruct (getPlayer k (players r)) as [p|] eqn:Hp; [|exact H].
  destruct (Player.alive p) eqn:Ha; simpl; [|exact H].
  destruct (Player.segments p) as [|head rest] eqn:Hs; [exact H|].
  assert (H1 : Shielded key (forEachPlayer (collisionCallback env k head) r)).
  { apply (forEach_invariant (Shielded key)); [|exact H].
    intros k0 r0. apply Shielded_collisionCallback. }
  assert (Hq : Quiet r (forEachPlayer (collisionCallback env k head) r)).
  { unfold forEachPlayer.
    apply (Quiet_fold _ (worldWidth r) (worldHeight r)); [|reflexivity..].
    intros k0 r0 _ _. apply Quiet_collisionCallback. }
  destruct Hq as (Hw & Hh & _).
  rewrite (outOfWorld_size head r _ Hw Hh).
  rewrite (Hin p head rest eq_refl Ha Hs), andb_false_r.
  exact H1.
Qed.

Lemma Shielded_gameLoopCallback (env : Env) (key k : string) (r : Room) :
  0 < worldWidth r -> 0 < worldHeight r ->
  Shielded key r -> Shielded key (gameLoopCallback env k r).
Proof.
  intros Hw Hh H. unfold gameLoopCallback.
  destruct (getPlayer k (players r)) as [p|] eqn:Hp; [|exact H].
  destruct (Player.alive p) eqn:Ha; simpl; [|exact H].
  apply Shielded_checkPlayerCollisions.
  - intros p' head rest Hp' Ha' Hs'.
    rewrite getPlayer_mutPlayer_eq, Hp in Hp'. simpl in Hp'.
    injection Hp' as <-.
    destruct (movePlayer_head_inside env r p head rest Hw Hh Ha Hs')
      as (H1 & H2 & H3 & H4).
    apply outOfWorld_false; assumption.
  - apply Shielded_mutPlayer; [|exact H].
    right. intros q Hqa Hqi.
    destruct (MoveFrame_movePlayer env r q)
      as (_ & _ & _ & _ & _ & _ & _ & M8 & M9 & _).
    split; congruence.
Qed.

Lemma Shielded_gameLoop (env : Env) (key : string) (r : Room) :
  0 < worldWidth r -> 0 < worldHeight r ->
  Shielded key r ->
  Shielded key (gameLoop env r)
  /\ worldWidth (gameLoop env r) = worldWidth r
  /\ worldHeight (gameLoop env r) = worldHeight r.
Proof.
  intros Hw Hh H.
  destruct (SameCast_gameLoop env r) as (_ & Hw' & Hh' & _).
  split; [|split; assumption].
  unfold gameLoop, topUp.
  assert (H1 : 0 < worldWidth (forEachPlayer (gameLoopCallback env) r)
               /\ 0 < worldHeight (forEachPlayer (gameLoopCallback env) r)
               /\ Shielded key (forEachPlayer (gameLoopCallback env) r)).
  { apply (forEach_invariant
             (fun r0 => 0 < worldWidth r0 /\ 0 < worldHeight r0
                        /\ Shielded key r0)); [|auto].
    intros k r0 (Hw0 & Hh0 & H0).
    destruct (SameCast_gameLoopCallback env k r0) as (_ & E1 & E2 & _).
    rewrite E1, E2. split; [exact Hw0|]. split; [exact Hh0|].
    apply Shielded_gameLoopCallback; assumption. }
  destruct H1 as (_ & _ & H1).
  destruct (_ <? _)%nat; [|exact H1].
  apply (Shielded_frame key (forEachPlayer (gameLoopCallback env) r));
    [reflexivity|exact H1].
Qed.

(** X9.  In a world of positive size, a living player whose invulnerable flag
    is set is alive and invulnerable after any number of ticks: no collision
    is declared for its head, and the deaths of the others do not touch
    it. *)
Theorem invulnerable_survives (env : Env) (key : string) (r : Room)
  (n : nat) (p : Player.t) :
  0 < worldWidth r ->
  0 < worldHeight r ->
  getPlayer key (players r) = Some p ->
  Player.alive p = true ->
  Player.invulnerable p = true ->
  exists p',
    getPlayer key (players (Nat.iter n (gameLoop env) r)) = Some p'
    /\ Player.alive p' = true
    /\ Player.invulnerable p' = true.
Proof.
  intros Hw Hh Hp Ha Hi.
  assert (H : Shielded key r) by (exists p; auto).
  assert (Hall : Shielded key (Nat.iter n (gameLoop env) r)
                 /\ worldWidth (Nat.iter n (gameLoop env) r) = worldWidth r
                 /\ worldHeight (Nat.iter n (gameLoop env) r)
                    = worldHeight r).
  { induction n as [|n (IH & IHw & IHh)]; simpl; [auto|].
    destruct (Shielded_gameLoop env key (Nat.iter n (gameLoop env) r))
      as (S1 & S2 & S3); [congruence|congruence|exact IH|].
    split; [exact S1|]. split; congruence. }
  apply Hall.
Qed.

(** ** A dead player is inert *)






(** ** The death drop, food by food *)

Lemma size_insert_le (m : gmap string Food.t) (k : string) (f : Food.t) :
  (size (<[k := f]> m) <= S (size m))%nat.
Proof. rewrite map_size_insert. destruct (m !! k); simpl; lia. Qed.

Lemma floor_index (u : Q) (n : nat) :
  0 <= u -> u < 1 -> (0 < n)%nat ->
  (Z.to_nat (JS.floor (u * inject_Z (Z.of_nat n))) < n)%nat.
Proof.
  intros H0 H1 Hn. unfold JS.floor.
  set (q := u * inject_Z (Z.of_nat n)).
  assert (Hpos : 0 < inject_Z (Z.of_nat n)).
  { change 0 with (inject_Z 0). rewrite <- Zlt_Qlt. lia. }
  assert (Hq0 : 0 <= q) by (unfold q; nra).
  assert (Hq1 : q < inject_Z (Z.of_nat n)) by (unfold q; nra).
  assert (Hf0 : (0 <= Qfloor q)%Z).
  { change 0%Z with (Qfloor 0). apply Qfloor_resp_le, Hq0. }
  assert (Hf1 : (Qfloor q < Z.of_nat n)%Z).
  { apply inject_Z_lt. pose proof (Qfloor_le q). lra. }
  lia.
Qed.

Lemma dropOne_event (env : Env) (segs : list SnakeSegment.t) (r : Room) :
  unitDraws env ->
  segs <> [] ->
  exists e,
    broadcasts (dropOne env segs r) = broadcasts r ++ [e]
    /\ droppedNear segs e.
Proof.
  intros Hu Hne. unfold dropOne. cbv zeta.
  set (idx := Z.to_nat
                (JS.floor (random env (draws r)
                           * inject_Z (Z.of_nat (length segs))))).
  set (seg := nth idx segs (SnakeSegment.new 0 0)).
  eexists. split; [reflexivity|].
  unfold droppedNear. split; [reflexivity|].
  exists seg. split.
  - apply nth_In. apply floor_index; try apply Hu.
    destruct segs; [contradiction|simpl; lia].
  - destruct (Hu (S (S (draws r)))) as [A0 A1].
    destruct (Hu (S (S (S (draws r))))) as [B0 B1].
    repeat split; lra.
Qed.

Lemma dropLoop_near (env : Env) (n : nat) (segs : list SnakeSegment.t)
  (r : Room) :
  unitDraws env ->
  segs <> [] ->
  exists drops,
    broadcasts (dropLoop env n segs r) = broadcasts r ++ drops
    /\ length drops = n
    /\ Forall (droppedNear segs) drops
    /\ draws (dropLoop env n segs r) = (draws r + 4 * n)%nat
    /\ (size (foods (dropLoop env n segs r)) <= size (foods r) + n)%nat.
Proof.
  intros Hu Hne. revert r. induction n as [|n IH]; intros r; simpl.
  - exists []. rewrite app_nil_r. repeat split; try lia. constructor.
  - destruct (IH (dropOne env segs r)) as (es & He & Hn & Hf & Hd & Hs).
    destruct (dropOne_event env segs r Hu Hne) as (e & Hb & Hnear).
    exists (e :: es). rewrite He, Hb, <- app_assoc. simpl.
    split; [reflexivity|]. split; [lia|].
    split; [constructor; assumption|].
    split.
    + rewrite Hd. simpl. lia.
    + assert (Hone : (size (foods (dropOne env segs r))
                      <= S (size (foods r)))%nat).
      { unfold dropOne. cbv zeta. apply (size_insert_le (foods r)). }
      lia.
Qed.

(** X11.  The death drop of a player, under draws in [[0, 1)]: it broadcasts
    [min (floor (segments / 3)) 20] spawn events, never more than 20, each
    for a food of value 1 that lies within 20 units, on each axis, of a
    segment of the body; it takes four draws per food, adds at most that
    many foods to the pool, and leaves the players as they are. *)
Theorem death_drop_near_body (env : Env) (key : string) (r : Room)
  (v : Player.t) :
  unitDraws env ->
  getPlayer key (players r) = Some v ->
  let r' := spawnFoodFromDeadPlayer env key r in
  exists drops,
    broadcasts r' = broadcasts r ++ drops
    /\ length drops = Nat.min (length (Player.segments v) / 3) 20
    /\ (length drops <= 20)%nat
    /\ Forall (droppedNear (Player.segments v)) drops
    /\ players r' = players r
    /\ draws r' = (draws r + 4 * length drops)%nat
    /\ (size (foods r') <= size (foods r) + length drops)%nat.
Proof.
  intros Hu Hv r'. unfold r', spawnFoodFromDeadPlayer. rewrite Hv.
  destruct (Player.segments v) as [|s segs] eqn:Hs.
  - simpl. exists []. rewrite app_nil_r.
    split; [reflexivity|]. split; [reflexivity|].
    split; [simpl; lia|]. split; [constructor|].
    split; [reflexivity|]. split; simpl; lia.
  - set (body := s :: segs).
    destruct (dropLoop_near env (Nat.min (length body / 3) 20) body r Hu)
      as (es & He & Hn & Hf & Hd & Hsz); [discriminate|].
    exists es. rewrite Hn.
    split; [exact He|]. split; [reflexivity|]. split; [lia|].
    split; [exact Hf|]. split; [apply dropLoop_players|].
    split; assumption.
Qed.

(** ** Filling the pool *)

Lemma initLoop_frame (env : Env) (n : nat) (r : Room) :
  SameCast r (initLoop env n r)
  /\ players (initLoop env n r) = players r
  /\ draws (initLoop env n r) = (draws r + 4 * n)%nat
  /\ (size (foods (initLoop env n r)) <= size (foods r) + n)%nat
  /\ exists es,
       broadcasts (initLoop env n r) = broadcasts r ++ es
       /\ length es = n
       /\ Forall (fun e => isFoodSpawned e = true) es.
Proof.
  revert r. induction n as [|n IH]; intros r; simpl.
  - split; [apply SameCast_refl|]. split; [reflexivity|].
    split; [lia|]. split; [lia|].
    exists []. rewrite app_nil_r. repeat split. constructor.
  - destruct (IH (spawnFood env r)) as (Hc & Hp & Hd & Hs & es & He & Hn & Hf).
    split; [eapply SameCast_trans; [apply SameCast_spawnFood|exact Hc]|].
    split; [rewrite Hp, spawnFood_room; reflexivity|].
    split; [rewrite Hd, spawnFood_room; simpl; lia|].
    split.
    + assert (Hone : (size (foods (spawnFood env r))
                      <= S (size (foods r)))%nat).
      { rewrite spawnFood_room. apply (size_insert_le (foods r)). }
      lia.
    + exists (spawnedEvent (spawnedFood env r) :: es).
      rewrite He, spawnFood_room. simpl. rewrite <- app_assoc. simpl.
      split; [reflexivity|]. split; [lia|].
      constructor; [reflexivity|exact Hf].
Qed.

Lemma initLoop_full (env : Env) (n : nat) (r : Room) :
  NoDup (spawnIds env (draws r) n) ->
  Forall (fun id => foods r !! id = None) (spawnIds env (draws r) n) ->
  size (foods (initLoop env n r)) = (size (foods r) + n)%nat.
Proof.
  revert r. induction n as [|n IH]; intros r Hnd Hfresh; simpl.
  - lia.
  - simpl in Hnd, Hfresh.
    apply NoDup_cons in Hnd. destruct Hnd as [Hnotin Hnd].
    inversion Hfresh as [|id ids Hid Hrest]; subst.
    rewrite IH.
    + rewrite spawnFood_room. simpl.
      rewrite map_size_insert_None by exact Hid. lia.
    + rewrite spawnFood_room. simpl. exact Hnd.
    + rewrite spawnFood_room. simpl.
      apply Forall_forall. intros id Hin.
      rewrite lookup_insert_ne.
      * rewrite Forall_forall in Hrest. apply Hrest, Hin.
      * intros E. apply Hnotin. rewrite E. exact Hin.
Qed.

(** X12.  Creating the room sets the boundary flag and fills the pool: it
    broadcasts exactly [maxFoods] spawn events, never stores more than
    [maxFoods] foods on an empty pool, and keeps the invariant of the room.
    When the ids made on the way are pairwise different the pool holds
    exactly [maxFoods] foods, and the top-up of the next tick spawns
    nothing. *)
Theorem room_is_created_full (env : Env) (fresh : Room) :
  foods fresh = ∅ ->
  let r := onCreate env fresh in
  worldBoundaryCollisions r = true
  /\ players r = players fresh
  /\ maxFoods r = maxFoods fresh
  /\ (exists es,
        broadcasts r = broadcasts fresh ++ es
        /\ length es = maxFoods fresh
        /\ Forall (fun e => isFoodSpawned e = true) es)
  /\ (size (foods r) <= maxFoods fresh)%nat
  /\ (Healthy fresh -> Healthy r)
  /\ (NoDup (spawnIds env (draws fresh) (maxFoods fresh)) ->
      size (foods r) = maxFoods fresh /\ topUp env r = r).
Proof.
  intros Hempty r. unfold r, onCreate, initializeFood.
  set (r0 := set_worldBoundaryCollisions true fresh).
  change (maxFoods r0) with (maxFoods fresh).
  destruct (initLoop_frame env (maxFoods fresh) r0)
    as ((_ & _ & _ & Hm & Hflag) & Hp & _ & Hs & es & He & Hn & Hf).
  assert (Hsize0 : size (foods r0) = 0%nat).
  { change (foods r0) with (foods fresh). rewrite Hempty.
    apply map_size_empty. }
  split; [exact Hflag|]. split; [exact Hp|]. split; [exact Hm|].
  split; [exists es; auto|].
  split; [lia|].
  split.
  - intros H.
    assert (H0 : Healthy r0) by (apply (Healthy_frame fresh); auto).
    clear - H0. revert H0. generalize r0.
    induction (maxFoods fresh) as [|n IH]; intros r1 H1; simpl; [exact H1|].
    apply IH, Healthy_spawnFood, H1.
  - intros Hnd.
    assert (Hfull : size (foods (initLoop env (maxFoods fresh) r0))
                    = maxFoods fresh).
    { rewrite initLoop_full.
      - lia.
      - exact Hnd.
      - apply Forall_forall. intros id _.
        change (foods r0) with (foods fresh). rewrite Hempty.
        apply lookup_empty. }
    split; [exact Hfull|].
    unfold topUp. rewrite Hm, Hfull.
    rewrite Nat.ltb_irrefl. reflexivity.
Qed.

(** ** A food is eaten once *)

Lemma onEatFood_unknown (env : Env) (sessionId foodId : string) (r : Room) :
  foods r !! foodId = None -> onEatFood env sessionId foodId r = r.
Proof.
  intros H. unfold onEatFood. rewrite H.
  destruct (getPlayer sessionId (players r)) as [p|]; [|reflexivity].
  destruct (negb (Player.alive p)); reflexivity.
Qed.

(** X13.  Repeating an [eatFood] message changes nothing more: a message that
    was dropped is dropped again, and after a successful one the food is
    gone (its replacement having another id), so that the same food is
    never eaten twice. *)
Theorem food_is_eaten_once (env : Env) (sessionId foodId : string)
  (r : Room) :
  foodIdAt env (S (S (draws r))) <> foodId ->
  onEatFood env sessionId foodId (onEatFood env sessionId foodId r)
  = onEatFood env sessionId foodId r.
Proof.
  intros Hne.
  assert (Hcases : onEatFood env sessionId foodId r = r
                   \/ foods (onEatFood env sessionId foodId r) !! foodId
                      = None).
  { unfold onEatFood.
    destruct (getPlayer sessionId (players r)) as [p|]; [|left; reflexivity].
    destruct (negb (Player.alive p)); [left; reflexivity|].
    destruct (foods r !! foodId) as [food|]; [|left; reflexivity].
    destruct (Player.head p) as [head|]; [|left; reflexivity].
    destruct (withinDistance _ _ _ _); [|left; reflexivity].
    right. rewrite spawnFood_room. simpl.
    rewrite lookup_insert_ne by exact Hne. apply lookup_delete_eq. }
  destruct Hcases as [E|E].
  - rewrite E. exact E.
  - apply onEatFood_unknown, E.
Qed.

(** ** Reporting a death *)

Lemma onPlayerDied_kills (env : Env) (sessionId : string)
  (killerSessionId : option string) (r : Room) (p : Player.t) :
  getPlayer sessionId (players r) = Some p ->
  Player.alive p = true ->
  exists p' kill,
    getPlayer sessionId
      (players (onPlayerDied env sessionId killerSessionId r)) = Some p'
    /\ Player.alive p' = false
    /\ Player.segments p' = Player.segments p
    /\ (forall e, In e kill ->
          In e (broadcasts (onPlayerDied env sessionId killerSessionId r)))
    /\ forall killerId k,
         killerSessionId = Some killerId ->
         killerId <> EmptyString ->
         getPlayer killerId (players r) = Some k ->
         In (EvPlayerKilled (Player.id p) killerId) kill
         /\ exists k',
              getPlayer killerId
                (players (onPlayerDied env sessionId killerSessionId r))
              = Some k'
              /\ Player.score k' = (Player.score k + Player.score p / 2)%Z
              /\ Player.kills k' = (Player.kills k + 1)%Z.
Proof.
  intros Hp Ha.
  destruct (killer_block sessionId killerSessionId r p Hp)
    as (v2 & kill & Hv2 & Hal & Hsg & Hb2 & _ & _ & Hkiller).
  assert (Hr' : onPlayerDied env sessionId killerSessionId r
                = spawnFoodFromDeadPlayer env sessionId
                    match killerSessionId with
                    | Some killerId =>
                        if truthy killerId then
                          match
                            getPlayer killerId
                              (players (killPlayer sessionId r))
                          with
                          | Some _ =>
                              broadcast
                                (EvPlayerKilled (Player.id p) killerId)
                                (creditKill sessionId killerId
                                   (killPlayer sessionId r))
                          | None => killPlayer sessionId r
                          end
                        else killPlayer sessionId r
                    | None => killPlayer sessionId r
                    end).
  { unfold onPlayerDied. rewrite Hp, Ha. reflexivity. }
  destruct (spawnFoodFromDeadPlayer_frame env sessionId _ v2 Hv2)
    as (Hpl & _ & _ & drops & Hbd & _ & _).
  rewrite <- Hr' in Hpl, Hbd.
  exists v2, kill. rewrite Hpl.
  split; [exact Hv2|]. split; [exact Hal|]. split; [exact Hsg|].
  split.
  - intros e He. rewrite Hbd, Hb2.
    apply in_or_app. left. apply in_or_app. right. exact He.
  - exact Hkiller.
Qed.


(** X15.  The killer named by a [playerDied] message is not checked against the
    sender: a living player that names its own session dies and is itself
    credited, its score growing by [floor (score / 2)] and its kills by
    one, and a [playerKilled] event with its id on both sides is
    broadcast. *)
Theorem self_named_killer_is_credited (env : Env) (sessionId : string)
  (r : Room) (p : Player.t) :
  getPlayer sessionId (players r) = Some p ->
  Player.alive p = true ->
  sessionId <> EmptyString ->
  let r' := onPlayerDied env sessionId (Some sessionId) r in
  exists p',
    getPlayer sessionId (players r') = Some p'
    /\ Player.alive p' = false
    /\ Player.score p' = (Player.score p + Player.score p / 2)%Z
    /\ Player.kills p' = (Player.kills p + 1)%Z
    /\ In (EvPlayerKilled (Player.id p) sessionId) (broadcasts r').
Proof.
  intros Hp Ha Hne r'.
  destruct (onPlayerDied_kills env sessionId (Some sessionId) r p Hp Ha)
    as (p' & kill & Hp' & Ha' & _ & Hin & Hkiller).
  destruct (Hkiller sessionId p eq_refl Hne Hp) as (He & k' & Hk' & Hs & Hk).
  fold r' in Hp', Hk', Hin.
  rewrite Hp' in Hk'. injection Hk' as <-.
  exists p'. repeat split; try assumption. apply Hin, He.
Qed.

(** X24.  A [playerDied] message without payload from a living sender: the
    handler kills the sender and broadcasts its death, then throws on
    reading the killer id, before the killer block and before the death
    drop.  The sender is Dead, every other player is as before, the death
    event is the only one, and no food is spawned, whatever the length of
    the body. *)
Theorem playerDied_without_payload (env : Env) (sessionId : string)
  (r : Room) (p : Player.t) :
  getPlayer sessionId (players r) = Some p ->
  Player.alive p = true ->
  let result := onMessagePlayerDied env sessionId None r in
  snd result = ThrowsTypeError
  /\ getPlayer sessionId (players (fst result))
     = Some (Player.set_alive false p)
  /\ (forall k,
        k <> sessionId ->
        getPlayer k (players (fst result)) = getPlayer k (players r))
  /\ broadcasts (fst result) = broadcasts r ++ [EvPlayerDied (Player.id p)]
  /\ foods (fst result) = foods r
  /\ draws (fst result) = draws r.
Proof.
  intros Hp Ha result. unfold result.
  rewrite (onMessagePlayerDied_bare env sessionId r p Hp Ha).
  simpl fst. simpl snd.
  split; [reflexivity|].
  split; [apply killPlayer_victim, Hp|].
  split; [intros k Hk; apply killPlayer_others, Hk|].
  rewrite (killPlayer_found sessionId r p Hp).
  repeat split; reflexivity.
Qed.

(** ** The killer lookup *)

Lemma scanKill_true (env : Env) (headPosition : Vector2.t)
  (body : list SnakeSegment.t) :
  scanKill env headPosition body = true
  <-> exists s, In s body /\ withinKillRadius env headPosition s = true.
Proof.
  induction body as [|s body IH]; simpl.
  - split; [discriminate|intros (s & [] & _)].
  - destruct (withinKillRadius env headPosition s) eqn:E.
    + split; [|reflexivity]. intros _. exists s. auto.
    + rewrite IH. split.
      * intros (s' & Hin & Hs'). exists s'. auto.
      * intros (s' & [<-|Hin] & Hs'); [congruence|]. exists s'. auto.
Qed.

Lemma scanBody_true (env : Env) (head : SnakeSegment.t)
  (body : list SnakeSegment.t) :
  scanBody env head body = true
  <-> exists s, In s body /\ collides env head s = true.
Proof.
  induction body as [|s body IH]; simpl.
  - split; [discriminate|intros (s & [] & _)].
  - destruct (collides env head s) eqn:E.
    + split; [|reflexivity]. intros _. exists s. auto.
    + rewrite IH. split.
      * intros (s' & Hin & Hs'). exists s'. auto.
      * intros (s' & [<-|Hin] & Hs'); [congruence|]. exists s'. auto.
Qed.

(** The radius of the lookup (18) contains the radius of the tick (14). *)
Lemma collides_withinKillRadius (env : Env) (head s : SnakeSegment.t) :
  collides env head s = true ->
  withinKillRadius env (SnakeSegment.position head) s = true.
Proof.
  unfold collides, withinKillRadius. rewrite !ltb_true. intros H. lra.
Qed.

Lemma findKiller_Some (env : Env) (headPosition : Vector2.t)
  (dead k : string)
  (entries : list (string * Player.t)) :
  findKiller env headPosition dead entries = Some k ->
  k <> dead
  /\ exists pre q post,
       entries = pre ++ (k, q) :: post
       /\ (forall k' q',
             In (k', q') pre ->
             k' = dead
             \/ scanKill env headPosition (skipn 1 (Player.segments q'))
                = false)
       /\ scanKill env headPosition (skipn 1 (Player.segments q)) = true.
Proof.
  induction entries as [|[k0 q0] rest IH]; simpl; [discriminate|].
  destruct (String.eqb_spec k0 dead) as [->|Hne].
  - intros H. destruct (IH H) as (Hk & pre & q & post & -> & Hpre & Hq).
    split; [exact Hk|].
    exists ((dead, q0) :: pre), q, post.
    split; [reflexivity|]. split; [|exact Hq].
    intros k' q' [E|Hin]; [injection E as <- <-; left; reflexivity|].
    apply Hpre, Hin.
  - destruct (scanKill env headPosition (skipn 1 (Player.segments q0))) eqn:E.
    + intros H. injection H as <-.
      split; [exact Hne|].
      exists [], q0, rest. split; [reflexivity|]. split; [|exact E].
      intros k' q' [].
    + intros H. destruct (IH H) as (Hk & pre & q & post & -> & Hpre & Hq).
      split; [exact Hk|].
      exists ((k0, q0) :: pre), q, post.
      split; [reflexivity|]. split; [|exact Hq].
      intros k' q' [E'|Hin]; [injection E' as <- <-; right; exact E|].
      apply Hpre, Hin.
Qed.

Lemma findKiller_None (env : Env) (headPosition : Vector2.t)
  (dead : string)
  (entries : list (string * Player.t)) :
  findKiller env headPosition dead entries = None
  <-> forall k q,
        In (k, q) entries ->
        k <> dead ->
        scanKill env headPosition (skipn 1 (Player.segments q)) = false.
Proof.
  induction entries as [|[k0 q0] rest IH]; simpl.
  - split; [intros _ k q []|reflexivity].
  - destruct (String.eqb_spec k0 dead) as [->|Hne].
    + rewrite IH. split.
      * intros H k q [E|Hin] Hk; [injection E as <- <-; contradiction|].
        apply (H k q Hin Hk).
      * intros H k q Hin. apply H. right. exact Hin.
    + destruct (scanKill env headPosition (skipn 1 (Player.segments q0))) eqn:E.
      * split; [discriminate|].
        intros H. specialize (H k0 q0 (or_introl eq_refl) Hne). congruence.
      * rewrite IH. split.
        -- intros H k q [E'|Hin] Hk; [injection E' as <- <-; exact E|].
           apply (H k q Hin Hk).
        -- intros H k q Hin. apply H. right. exact Hin.
Qed.

(** X16.  [getKillerSessionId] returns no killer for a session without player
    and throws for a player without segments.  Otherwise it returns the
    first session in the order of the room, other than the dead one, that
    has a segment of index 1 or more whose computed distance to the dead
    head is below 18, be its player alive or not; it returns no killer
    exactly when no other session has such a segment. *)
Theorem killer_lookup (env : Env) (deadPlayerSessionId : string)
  (r : Room) :
  (getPlayer deadPlayerSessionId (players r) = None ->
   getKillerSessionId env deadPlayerSessionId r = Returns None)
  /\ (forall p,
        getPlayer deadPlayerSessionId (players r) = Some p ->
        Player.segments p = [] ->
        getKillerSessionId env deadPlayerSessionId r = Throws)
  /\ (forall p head rest,
        getPlayer deadPlayerSessionId (players r) = Some p ->
        Player.segments p = head :: rest ->
        exists result,
          getKillerSessionId env deadPlayerSessionId r = Returns result
          /\ (forall k,
                result = Some k ->
                k <> deadPlayerSessionId
                /\ exists pre q post,
                     players r = pre ++ (k, q) :: post
                     /\ (forall k' q',
                           In (k', q') pre ->
                           k' = deadPlayerSessionId
                           \/ forall s,
                                In s (skipn 1 (Player.segments q')) ->
                                withinKillRadius env
                                  (SnakeSegment.position head) s = false)
                     /\ exists s,
                          In s (skipn 1 (Player.segments q))
                          /\ withinKillRadius env
                               (SnakeSegment.position head) s = true)
          /\ (result = None
              <-> forall k q s,
                    In (k, q) (players r) ->
                    k <> deadPlayerSessionId ->
                    In s (skipn 1 (Player.segments q)) ->
                    withinKillRadius env (SnakeSegment.position head) s
                    = false)).
Proof.
  split; [|split].
  - intros H. unfold getKillerSessionId. rewrite H. reflexivity.
  - intros p Hp Hs. unfold getKillerSessionId. rewrite Hp, Hs. reflexivity.
  - intros p head rest Hp Hs.
    unfold getKillerSessionId. rewrite Hp, Hs.
    eexists. split; [reflexivity|]. split.
    + intros k Hk.
      destruct (findKiller_Some _ _ _ _ _ Hk)
        as (Hne & pre & q & post & He & Hpre & Hq).
      split; [exact Hne|].
      exists pre, q, post. split; [exact He|]. split.
      * intros k' q' Hin. destruct (Hpre k' q' Hin) as [E|E]; [left; exact E|].
        right. intros s Hs'.
        destruct (withinKillRadius env (SnakeSegment.position head) s) eqn:Ew;
          [|reflexivity].
        assert (scanKill env (SnakeSegment.position head)
                  (skipn 1 (Player.segments q')) = true)
          by (apply scanKill_true; exists s; auto).
        congruence.
      * apply scanKill_true, Hq.
    + rewrite findKiller_None. split.
      * intros H k q s Hin Hk Hs'.
        specialize (H k q Hin Hk).
        destruct (withinKillRadius env (SnakeSegment.position head) s) eqn:Ew;
          [|reflexivity].
        assert (scanKill env (SnakeSegment.position head)
                  (skipn 1 (Player.segments q)) = true)
          by (apply scanKill_true; exists s; auto).
        congruence.
      * intros H k q Hin Hk.
        destruct (scanKill env (SnakeSegment.position head)
                    (skipn 1 (Player.segments q))) eqn:E; [|reflexivity].
        apply scanKill_true in E. destruct E as (s & Hs' & Hw).
        rewrite (H k q s Hin Hk Hs') in Hw. discriminate.
Qed.

(** X17.  The lookup covers what the tick detects: whenever the scan of
    [checkPlayerCollisions] finds a segment of another session within 14
    units of the head of a player, [getKillerSessionId] returns a killer
    for that player.  (Both compare the same computed distance, one with
    14 and the other with 18.) *)
Theorem killer_lookup_covers_collisions (env : Env) (key k : string)
  (r : Room)
  (p o : Player.t) (head : SnakeSegment.t) (rest : list SnakeSegment.t) :
  getPlayer key (players r) = Some p ->
  Player.segments p = head :: rest ->
  In (k, o) (players r) ->
  k <> key ->
  scanBody env head (skipn 1 (Player.segments o)) = true ->
  exists killer,
    getKillerSessionId env key r = Returns (Some killer) /\ killer <> key.
Proof.
  intros Hp Hs Hin Hk Hscan.
  unfold getKillerSessionId. rewrite Hp, Hs.
  destruct (findKiller env (SnakeSegment.position head) key (players r))
    as [killer|] eqn:E.
  - exists killer. split; [reflexivity|].
    apply (findKiller_Some _ _ _ _ _ E).
  - exfalso.
    rewrite findKiller_None in E. specialize (E k o Hin Hk).
    apply scanBody_true in Hscan. destruct Hscan as (s & Hs' & Hc).
    apply collides_withinKillRadius in Hc.
    assert (scanKill env (SnakeSegment.position head)
              (skipn 1 (Player.segments o)) = true)
      by (apply scanKill_true; exists s; auto).
    congruence.
Qed.

(** ** Joining and leaving *)

Lemma getPlayer_set_eq (key : string) (p : Player.t)
  (ps : list (string * Player.t)) :
  getPlayer key (setPlayer key p ps) = Some p.
Proof.
  induction ps as [|[k q] rest IH]; simpl.
  - rewrite String.eqb_refl. reflexivity.
  - destruct (String.eqb key k) eqn:E; simpl; rewrite E; auto.
Qed.

Lemma getPlayer_set_ne (key k : string) (p : Player.t)
  (ps : list (string * Player.t)) :
  k <> key -> getPlayer k (setPlayer key p ps) = getPlayer k ps.
Proof.
  intros Hne. induction ps as [|[k' q] rest IH]; simpl.
  - destruct (String.eqb_spec k key); [contradiction|reflexivity].
  - destruct (String.eqb_spec key k') as [<-|Hne']; simpl.
    + destruct (String.eqb_spec k key); [contradiction|reflexivity].
    + destruct (String.eqb k k'); auto.
Qed.

Lemma keys_set_fresh (key : string) (p : Player.t)
  (ps : list (string * Player.t)) :
  getPlayer key ps = None ->
  map fst (setPlayer key p ps) = map fst ps ++ [key].
Proof.
  induction ps as [|[k q] rest IH]; simpl; [reflexivity|].
  destruct (String.eqb key k); [discriminate|].
  intros H. simpl. rewrite (IH H). reflexivity.
Qed.

Lemma keys_set_present (key : string) (p q : Player.t)
  (ps : list (string * Player.t)) :
  getPlayer key ps = Some q ->
  map fst (setPlayer key p ps) = map fst ps.
Proof.
  induction ps as [|[k q'] rest IH]; simpl; [discriminate|].
  destruct (String.eqb key k); [reflexivity|].
  intros H. simpl. rewrite (IH H). reflexivity.
Qed.

Lemma deletePlayer_absent (key : string) (ps : list (string * Player.t)) :
  getPlayer key ps = None -> deletePlayer key ps = ps.
Proof.
  induction ps as [|[k q] rest IH]; simpl; [reflexivity|].
  destruct (String.eqb key k); [discriminate|].
  intros H. rewrite (IH H). reflexivity.
Qed.

Lemma delete_set_fresh (key : string) (p : Player.t)
  (ps : list (string * Player.t)) :
  getPlayer key ps = None -> deletePlayer key (setPlayer key p ps) = ps.
Proof.
  induction ps as [|[k q] rest IH]; simpl.
  - rewrite String.eqb_refl. reflexivity.
  - destruct (String.eqb key k) eqn:E; [discriminate|].
    intros H. simpl. rewrite E, (IH H). reflexivity.
Qed.

(** X18.  A join stores the constructed player, with its skin id, under the
    session id and leaves the other players, the foods and the broadcast
    log alone; the joiner is sent its id, spawn position and color, and
    exactly the foods of the room.  A new session comes last in the
    iteration order, and its leave gives back the list of players as it
    was; a session already present keeps its place. *)
Theorem join_and_leave (env : Env)
  (construct : string -> string -> Q -> Q -> option string -> Player.t)
  (sessionId : string) (name : option string) (skinId : option Z)
  (r : Room) :
  let joined := fst (onJoin env construct sessionId name skinId r) in
  let sent := snd (onJoin env construct sessionId name skinId r) in
  let skin := match skinId with Some s => s | None => 0%Z end in
  let position := fst (getRandomPosition env r) in
  getPlayer sessionId (players joined)
  = Some (set_skinId skin
            (construct sessionId (joinName sessionId name)
               (Vector2.x position) (Vector2.y position) (colorOf skin)))
  /\ (forall k,
        k <> sessionId ->
        getPlayer k (players joined) = getPlayer k (players r))
  /\ foods joined = foods r
  /\ broadcasts joined = broadcasts r
  /\ (exists initial,
        sent = [MsgWelcome sessionId position (colorOf skin);
                MsgInitialFoods initial]
        /\ forall k f, (k, f) ∈ initial <-> foods r !! k = Some f)
  /\ (getPlayer sessionId (players r) = None ->
      map fst (players joined) = map fst (players r) ++ [sessionId]
      /\ players (onLeave sessionId joined) = players r)
  /\ (forall q,
        getPlayer sessionId (players r) = Some q ->
        map fst (players joined) = map fst (players r)).
Proof.
  cbv zeta. unfold onJoin. simpl.
  split; [apply getPlayer_set_eq|].
  split; [intros k Hne; apply getPlayer_set_ne, Hne|].
  split; [reflexivity|]. split; [reflexivity|].
  split.
  { eexists. split; [reflexivity|].
    intros k f. apply elem_of_map_to_list. }
  split.
  - intros H. split; [apply keys_set_fresh, H|apply delete_set_fresh, H].
  - intros q H. apply (keys_set_present _ _ q), H.
Qed.

(** ** The color of a skin *)

Lemma rem_8_nonneg (s : Z) : (0 <= s)%Z -> (0 <= Z.rem s 8 < 8)%Z.
Proof. intros H. apply Z.rem_bound_pos; lia. Qed.

(** X19.  The color of a joining player is taken from the palette of eight by the
    remainder of its skin id: a skin id that is not negative always gets
    one of the eight colors, and skins eight apart get the same one; a
    multiple of eight gets the first color; a negative skin id that is not
    a multiple of eight gets no color at all. *)
Theorem skin_color (skinId : Z) :
  ((0 <= skinId)%Z ->
   exists c,
     colorOf skinId = Some c
     /\ In c colors
     /\ colorOf (skinId + 8) = colorOf skinId)
  /\ (Z.rem skinId 8 = 0%Z -> colorOf skinId = Some "#FF5733")
  /\ ((skinId < 0)%Z -> Z.rem skinId 8 <> 0%Z -> colorOf skinId = None).
Proof.
  split; [|split].
  - intros H.
    pose proof (rem_8_nonneg skinId H) as Hb.
    assert (Hper : Z.rem (skinId + 8) 8 = Z.rem skinId 8).
    { rewrite !Z.rem_mod_nonneg by lia.
      replace (skinId + 8)%Z with (skinId + 1 * 8)%Z by lia.
      apply Z.mod_add. lia. }
    unfold colorOf. change (Z.of_nat (length colors)) with 8%Z.
    rewrite Hper.
    assert (E : (Z.rem skinId 8 <? 0)%Z = false) by (apply Z.ltb_ge; lia).
    rewrite E.
    destruct (lookup_lt_is_Some_2 colors (Z.to_nat (Z.rem skinId 8)))
      as [c Hc]; [simpl; lia|].
    exists c. split; [exact Hc|]. split; [|reflexivity].
    apply list_elem_of_In, list_elem_of_lookup. eauto.
  - intros H. unfold colorOf. change (Z.of_nat (length colors)) with 8%Z.
    rewrite H. reflexivity.
  - intros Hneg Hnz. unfold colorOf.
    change (Z.of_nat (length colors)) with 8%Z.
    assert (Hle : (Z.rem skinId 8 <= 0)%Z) by (apply Z.rem_nonpos; lia).
    assert (E : (Z.rem skinId 8 <? 0)%Z = true) by (apply Z.ltb_lt; lia).
    rewrite E. reflexivity.
Qed.

(** ** One body in range of one head *)

Lemma fold_noop (callback : string -> Room -> Room) (keys : list string)
  (r : Room) :
  (forall k, In k keys -> callback k r = r) ->
  fold_left (fun acc k => callback k acc) keys r = r.
Proof.
  induction keys as [|k keys IH]; intros H; simpl; [reflexivity|].
  rewrite (H k (or_introl eq_refl)). apply IH.
  intros k' Hin. apply H. right. exact Hin.
Qed.

Lemma getPlayer_In_keys (key : string) (ps : list (string * Player.t)) :
  In key (map fst ps) -> exists p, getPlayer key ps = Some p.
Proof.
  induction ps as [|[k q] rest IH]; simpl; [intros []|].
  destruct (String.eqb_spec key k) as [->|Hne].
  - intros _. exists q. reflexivity.
  - intros [E|Hin]; [congruence|]. apply IH, Hin.
Qed.

Lemma spawnFoodFromDeadPlayer_players (env : Env) (key : string) (r : Room) :
  players (spawnFoodFromDeadPlayer env key r) = players r.
Proof.
  unfold spawnFoodFromDeadPlayer.
  destruct (getPlayer key (players r)); [apply dropLoop_players|reflexivity].
Qed.

Lemma collisionOutcome_lookup (env : Env) (key killer : string)
  (killed killerId : string) (r : Room) (p : Player.t) :
  getPlayer key (players r) = Some p ->
  killer <> key ->
  getPlayer key (players (collisionOutcome env key killer killed killerId r))
  = Some (Player.set_alive false p)
  /\ forall k,
       k <> key -> k <> killer ->
       getPlayer k
         (players (collisionOutcome env key killer killed killerId r))
       = getPlayer k (players r).
Proof.
  intros Hp Hne. unfold collisionOutcome.
  rewrite spawnFoodFromDeadPlayer_players. simpl.
  pose proof (killPlayer_victim key r p Hp) as Hv.
  unfold creditKill. rewrite Hv. split.
  - rewrite getPlayer_mutPlayer_ne by (intros E; apply Hne; auto).
    exact Hv.
  - intros k Hk1 Hk2.
    rewrite getPlayer_mutPlayer_ne by exact Hk2.
    apply killPlayer_others, Hk1.
Qed.

(** The callback on a session that is the player itself, dead, or out of
    range does nothing. *)
Lemma collisionCallback_noop (env : Env) (key : string)
  (head : SnakeSegment.t) (other : string) (r : Room) (p : Player.t) :
  getPlayer key (players r) = Some p ->
  (other = Player.id p
   \/ forall o,
        getPlayer other (players r) = Some o ->
        Player.alive o = false
        \/ scanBody env head (skipn 1 (Player.segments o)) = false) ->
  collisionCallback env key head other r = r.
Proof.
  intros Hp Hcase. unfold collisionCallback. rewrite Hp.
  destruct (getPlayer other (players r)) as [o|]; [|reflexivity].
  destruct Hcase as [->|Hq].
  - rewrite String.eqb_refl. reflexivity.
  - destruct (Hq o eq_refl) as [Ha|Hs].
    + rewrite Ha, orb_true_r. reflexivity.
    + rewrite Hs.
      destruct (_ || _); [reflexivity|].
      destruct (Player.invulnerable p); reflexivity.
Qed.

Lemma collisionCallback_hit (env : Env) (key : string)
  (head : SnakeSegment.t) (other : string) (r : Room) (p o : Player.t) :
  getPlayer key (players r) = Some p ->
  getPlayer other (players r) = Some o ->
  other <> Player.id p ->
  Player.alive o = true ->
  Player.invulnerable p = false ->
  scanBody env head (skipn 1 (Player.segments o)) = true ->
  collisionCallback env key head other r
  = collisionOutcome env key other (Player.id p) (Player.id o) r.
Proof.
  intros Hp Ho Hne Ha Hi Hs. unfold collisionCallback.
  rewrite Hp, Ho, Ha, Hi, Hs.
  destruct (String.eqb_spec other (Player.id p)); [contradiction|].
  reflexivity.
Qed.

Lemma forEach_single_hit (env : Env) (key killer : string)
  (head : SnakeSegment.t) (r : Room) (p o : Player.t) :
  NoDup (map fst (players r)) ->
  getPlayer key (players r) = Some p ->
  Player.id p = key ->
  Player.invulnerable p = false ->
  getPlayer killer (players r) = Some o ->
  killer <> key ->
  Player.alive o = true ->
  scanBody env head (skipn 1 (Player.segments o)) = true ->
  (forall k q,
     getPlayer k (players r) = Some q ->
     k <> key -> k <> killer ->
     Player.alive q = false
     \/ scanBody env head (skipn 1 (Player.segments q)) = false) ->
  forEachPlayer (collisionCallback env key head) r
  = collisionOutcome env key killer key (Player.id o) r.
Proof.
  intros Hnd Hp Hid Hinv Ho Hne Hao Hscan Hothers.
  set (r1 := collisionOutcome env key killer key (Player.id o) r).
  destruct (collisionOutcome_lookup env key killer key (Player.id o) r p
              Hp Hne) as (Hp1 & Hsame).
  fold r1 in Hp1, Hsame.
  (* the callback does nothing on the other sessions, before and after *)
  assert (Hquiet : forall k,
            k <> killer ->
            collisionCallback env key head k r = r
            /\ collisionCallback env key head k r1 = r1).
  { intros k Hk. destruct (String.eqb_spec k key) as [->|Hkk].
    - split.
      + apply (collisionCallback_noop env key head key r p Hp).
        left. symmetry. exact Hid.
      + apply (collisionCallback_noop env key head key r1 _ Hp1).
        left. simpl. symmetry. exact Hid.
    - split.
      + apply (collisionCallback_noop env key head k r p Hp).
        right. intros q Hq. apply (Hothers k q Hq Hkk Hk).
      + apply (collisionCallback_noop env key head k r1 _ Hp1).
        right. intros q Hq. rewrite (Hsame k Hkk Hk) in Hq.
        apply (Hothers k q Hq Hkk Hk). }
  (* the killer occurs once in the order of the room *)
  assert (Hin : In killer (map fst (players r))).
  { clear - Ho. induction (players r) as [|[k q] rest IH]; simpl in *;
      [discriminate|].
    destruct (String.eqb_spec killer k) as [->|_]; [left; reflexivity|].
    right. apply IH, Ho. }
  apply in_split in Hin. destruct Hin as (pre & post & Hkeys).
  unfold forEachPlayer. rewrite Hkeys in *.
  apply NoDup_app in Hnd. destruct Hnd as (_ & Hdisj & Hpost).
  apply NoDup_cons in Hpost. destruct Hpost as (Hnotpost & _).
  rewrite fold_left_app. simpl.
  rewrite (fold_noop (collisionCallback env key head) pre r).
  2: { intros k Hk. apply Hquiet.
       intros ->. apply (Hdisj killer).
       - apply list_elem_of_In. exact Hk.
       - left. }
  rewrite (collisionCallback_hit env key head killer r p o Hp Ho);
    try assumption; [|rewrite Hid; exact Hne].
  rewrite Hid. fold r1.
  apply fold_noop. intros k Hk. apply Hquiet.
  intros ->. apply Hnotpost. apply list_elem_of_In. exact Hk.
Qed.

(** X20.  When the head of a living, vulnerable player is in range of the body
    of exactly one other living player (the scan of [checkPlayerCollisions]
    finds a segment for that player and for no other living one; ids being
    the keys, each session once in the room, the head inside the world),
    the collision check
    kills the player once, credits that one killer and drops the food
    once: one death event, one [playerKilled] event, then
    [min (floor (segments / 3)) 20] spawn events; the killer gains
    [floor (victim.score / 2)] points and one kill. *)
Theorem single_collision (env : Env) (key killer : string) (r : Room)
  (p o : Player.t) (head : SnakeSegment.t) (rest : list SnakeSegment.t) :
  NoDup (map fst (players r)) ->
  getPlayer key (players r) = Some p ->
  Player.id p = key ->
  Player.alive p = true ->
  Player.invulnerable p = false ->
  Player.segments p = head :: rest ->
  outOfWorld head r = false ->
  getPlayer killer (players r) = Some o ->
  killer <> key ->
  Player.alive o = true ->
  scanBody env head (skipn 1 (Player.segments o)) = true ->
  (forall k q,
     getPlayer k (players r) = Some q ->
     k <> key -> k <> killer ->
     Player.alive q = false
     \/ scanBody env head (skipn 1 (Player.segments q)) = false) ->
  let r' := checkPlayerCollisions env key r in
  r' = collisionOutcome env key killer key (Player.id o) r
  /\ getPlayer key (players r') = Some (Player.set_alive false p)
  /\ (exists o',
        getPlayer killer (players r') = Some o'
        /\ Player.score o' = (Player.score o + Player.score p / 2)%Z
        /\ Player.kills o' = (Player.kills o + 1)%Z)
  /\ (exists drops,
        broadcasts r'
        = broadcasts r
          ++ [EvPlayerDied key; EvPlayerKilled key (Player.id o)] ++ drops
        /\ length drops = Nat.min (length (Player.segments p) / 3) 20
        /\ Forall (fun e => isFoodSpawned e = true) drops)
  /\ countEvents (isDeathOf key) (broadcasts r')
     = S (countEvents (isDeathOf key) (broadcasts r)).
Proof.
  intros Hnd Hp Hid Ha Hinv Hs Hout Ho Hne Hao Hscan Hothers r'.
  assert (Hr' : r' = collisionOutcome env key killer key (Player.id o) r).
  { unfold r', checkPlayerCollisions. rewrite Hp, Ha, Hs. simpl negb.
    cbv iota.
    rewrite (forEach_single_hit env key killer head r p o); try assumption.
    assert (Hsize : outOfWorld head
                      (collisionOutcome env key killer key (Player.id o) r)
                    = outOfWorld head r).
    { apply outOfWorld_size.
      - apply (SameCast_trans r (creditKill key killer (killPlayer key r)));
          [eapply SameCast_trans;
           [apply SameCast_killPlayer|apply SameCast_creditKill]|].
        unfold collisionOutcome.
        eapply SameCast_trans; [|apply SameCast_spawnFoodFromDeadPlayer].
        repeat split.
      - apply (SameCast_trans r (creditKill key killer (killPlayer key r)));
          [eapply SameCast_trans;
           [apply SameCast_killPlayer|apply SameCast_creditKill]|].
        unfold collisionOutcome.
        eapply SameCast_trans; [|apply SameCast_spawnFoodFromDeadPlayer].
        repeat split. }
    rewrite Hsize, Hout, andb_false_r. reflexivity. }
  split; [exact Hr'|].
  destruct (collisionOutcome_lookup env key killer key (Player.id o) r p
              Hp Hne) as (Hp1 & _).
  rewrite <- Hr' in Hp1.
  split; [exact Hp1|].
  pose proof (killPlayer_victim key r p Hp) as Hv.
  destruct (killPlayer_lookup key killer r o Ho)
    as (o1 & Ho1 & Hs1 & Hk1 & _ & _).
  destruct (creditKill_killer key killer (killPlayer key r) _ o1 Hv Ho1)
    as (o' & Ho' & Hsc & Hki & _ & _).
  assert (Hpl : players r'
                = players (creditKill key killer (killPlayer key r))).
  { rewrite Hr'. unfold collisionOutcome.
    rewrite spawnFoodFromDeadPlayer_players. reflexivity. }
  split.
  { exists o'. rewrite Hpl. split; [exact Ho'|].
    rewrite Hsc, Hki, Hs1, Hk1. split; reflexivity. }
  assert (Hvic : getPlayer key
                   (players (broadcast (EvPlayerKilled key (Player.id o))
                               (creditKill key killer (killPlayer key r))))
                 = Some (Player.set_alive false p)).
  { rewrite <- Hp1, Hpl. reflexivity. }
  destruct (spawnFoodFromDeadPlayer_frame env key _ _ Hvic)
    as (_ & _ & _ & drops & Hb & Hn & Hf).
  assert (Hlog : broadcasts r'
                 = broadcasts r
                   ++ [EvPlayerDied key; EvPlayerKilled key (Player.id o)]
                   ++ drops).
  { rewrite Hr'. unfold collisionOutcome. rewrite Hb. simpl.
    assert (Hc : broadcasts (creditKill key killer (killPlayer key r))
                 = broadcasts (killPlayer key r)).
    { unfold creditKill. rewrite Hv. reflexivity. }
    rewrite Hc.
    destruct (killPlayer_broadcasts key r p Hp) as (Hk & _ & _).
    rewrite Hk, Hid, <- !app_assoc. reflexivity. }
  split.
  { exists drops. split; [exact Hlog|]. split; [exact Hn|exact Hf]. }
  rewrite Hlog, !countEvents_app.
  rewrite (countEvents_none _ drops (foodSpawned_not_death key drops Hf)).
  unfold countEvents at 2. simpl. rewrite String.eqb_refl. simpl. lia.
Qed.

(** ** Foods leave the pool only by being eaten *)

















(** ** Where a respawn lands *)

(** X22.  For draws in [[0, 1)] and a world of positive size, the head of a
    respawned player lies inside the world; its other four segments lie on
    the same horizontal line, 20 units apart to the left of the head and
    not wrapped, so that the body reaches at most 80 units beyond the left
    edge of the world and nowhere else outside it. *)
Theorem respawn_lands_inside (env : Env) (sessionId : string) (r : Room)
  (p : Player.t) :
  unitDraws env ->
  0 < worldWidth r ->
  0 < worldHeight r ->
  getPlayer sessionId (players r) = Some p ->
  exists p',
    getPlayer sessionId (players (onRespawn env sessionId r)) = Some p'
    /\ forall i segment,
         Player.segments p' !! i = Some segment ->
         (i < 5)%nat
         /\ (i = 0%nat ->
             0 <= Vector2.x (SnakeSegment.position segment))
         /\ - (80) <= Vector2.x (SnakeSegment.position segment)
         /\ Vector2.x (SnakeSegment.position segment) < worldWidth r
         /\ 0 <= Vector2.y (SnakeSegment.position segment)
         /\ Vector2.y (SnakeSegment.position segment) < worldHeight r.
Proof.
  intros Hu Hw Hh Hp.
  exists (respawned (fst (getRandomPosition env r)) p).
  split; [apply (respawnPlayer_player env sessionId r p Hp)|].
  destruct (Hu (draws r)) as [X0 X1].
  destruct (Hu (S (draws r))) as [Y0 Y1].
  destruct (unit_draw_scaled _ _ X0 X1 Hw) as [Hx0 Hx1].
  destruct (unit_draw_scaled _ _ Y0 Y1 Hh) as [Hy0 Hy1].
  intros i segment Hi. simpl in Hi.
  do 5 (destruct i as [|i];
        [injection Hi as <-; simpl;
         repeat match goal with
                | |- context [inject_Z (Z.of_nat ?n)] =>
                    let v := eval vm_compute in (inject_Z (Z.of_nat n)) in
                    change (inject_Z (Z.of_nat n)) with v
                end;
         split; [lia|];
         split; [first [intros E; discriminate E|intros _; lra]|];
         repeat split; lra|]).
  discriminate.
Qed.

(** ** A message touches the player of its session *)



(** ** Instances of the further properties *)

Lemma Healthy_of_list (r : Room) :
  Forall (fun kp => SoundPlayer (fst kp) (snd kp)) (players r) ->
  (forall key f, foods r !! key = Some f -> SoundFood key f) ->
  Healthy r.
Proof.
  intros Hall Hfoods. split; [|exact Hfoods].
  induction Hall as [|[k q] rest Hq _ IH]; intros key p; simpl.
  - discriminate.
  - destruct (String.eqb_spec key k) as [->|_].
    + intros E. injection E as <-. exact Hq.
    + apply IH.
Qed.

Lemma arena_healthy : Healthy Sample.arena.
Proof.
  apply Healthy_of_list.
  - repeat constructor; simpl; lia.
  - intros key f H. change (foods Sample.arena) with (∅ : gmap string Food.t) in H.
    rewrite lookup_empty in H. discriminate.
Qed.

Lemma sample_unit_draws : unitDraws Sample.env.
Proof. intros n. split; vm_compute; [discriminate|reflexivity]. Qed.

Lemma wrapCoordinate_from_zero_witness :
  0 < 1000 /\ 0 <= 1004
  /\ 0 <= wrapCoordinate 1004 1000 /\ wrapCoordinate 1004 1000 < 1000.
Proof.
  assert (Hm : 0 < 1000) by reflexivity.
  assert (Hv : 0 <= 1004) by (vm_compute; discriminate).
  split; [exact Hm|]. split; [exact Hv|].
  destruct (wrapCoordinate_from_zero 1004 1000 Hm Hv) as (H1 & H2 & _).
  split; assumption.
Defined.

Lemma wrapCoordinate_below_zero_witness :
  0 < 1000 /\ - (2000) < 0
  /\ - (2000) == inject_Z (-2) * 1000
  /\ 0 < wrapCoordinate (- (2000)) 1000
  /\ wrapCoordinate (- (2000)) 1000 == 1000.
Proof.
  assert (Hm : 0 < 1000) by reflexivity.
  assert (Hv : - (2000) < 0) by reflexivity.
  assert (Hk : - (2000) == inject_Z (-2) * 1000) by reflexivity.
  split; [exact Hm|]. split; [exact Hv|]. split; [exact Hk|].
  destruct (wrapCoordinate_below_zero (- (2000)) 1000 Hm Hv)
    as (H1 & _ & H3).
  split; [exact H1|].
  apply H3. exists (-2)%Z. exact Hk.
Defined.

Lemma movement_frame_witness :
  (0 <= Player.score Sample.booster)%Z
  /\ (0 <= Player.score (ticks Sample.env Sample.track 40 Sample.booster)
      <= Player.score Sample.booster)%Z
  /\ (Nat.min 5 (length (Player.segments Sample.booster))
      <= length (Player.segments
                   (ticks Sample.env Sample.track 40 Sample.booster)))%nat.
Proof.
  assert (Hs : (0 <= Player.score Sample.booster)%Z) by (simpl; lia).
  split; [exact Hs|].
  pose proof (movement_frame Sample.env Sample.track 40 Sample.booster) as H.
  cbv zeta in H.
  destruct H as (_ & _ & _ & _ & _ & _ & _ & _ & _ & _ & H11 & H12).
  split; [exact (H12 Hs)|exact H11].
Defined.

Lemma no_boost_no_cost_witness :
  Player.alive Sample.A = true
  /\ Player.boosting Sample.A = false
  /\ Player.score (ticks Sample.env Sample.arena 10 Sample.A)
     = Player.score Sample.A
  /\ length (Player.segments (ticks Sample.env Sample.arena 10 Sample.A))
     = length (Player.segments Sample.A).
Proof.
  split; [reflexivity|]. split; [reflexivity|].
  destruct (no_boost_no_cost Sample.env Sample.arena 9 Sample.A
              eq_refl ltac:(discriminate) eq_refl)
    as (_ & _ & H3 & H4).
  split; assumption.
Defined.

Lemma boost_runs_dry_witness :
  Player.boosting Sample.booster = true
  /\ length (Player.segments Sample.booster) = (5 + 5)%nat
  /\ Player.boosting (ticks Sample.env Sample.track (32 * 5 + 32)
                        Sample.booster) = false
  /\ length (Player.segments
               (ticks Sample.env Sample.track (32 * 5 + 32) Sample.booster))
     = 5%nat.
Proof.
  split; [reflexivity|]. split; [reflexivity|].
  destruct (boost_runs_dry Sample.env Sample.track Sample.booster 5
              eq_refl eq_refl eq_refl ltac:(simpl; lia) eq_refl)
    as (_ & H1 & H2 & _).
  split; assumption.
Defined.

Lemma room_invariant_witness :
  Healthy Sample.arena
  /\ Healthy
       (fst (onMessagePlayerDied Sample.env "C" None
               (fst (onMessagePlayerDied Sample.env "B" (Some (Some "C"))
                       (gameLoop Sample.env Sample.arena))))).
Proof.
  split; [exact arena_healthy|].
  apply (room_invariant Sample.env Sample.arena); [exact arena_healthy|].
  eapply rtc_l; [apply StepTick|].
  eapply rtc_l; [apply (StepPlayerDied Sample.env "B" (Some (Some "C")))|].
  eapply rtc_l; [apply (StepPlayerDied Sample.env "C" None)|].
  apply rtc_refl.
Defined.


Lemma ticks_never_self_kill_witness :
  Healthy Sample.arena
  /\ exists es,
       broadcasts (Nat.iter 2 (gameLoop Sample.env) Sample.arena)
       = broadcasts Sample.arena ++ es
       /\ Forall noSelfKill es.
Proof.
  split; [exact arena_healthy|].
  exact (ticks_never_self_kill Sample.env Sample.arena 2 arena_healthy).
Defined.

Lemma invulnerable_survives_witness :
  0 < worldWidth Demo.shielded
  /\ 0 < worldHeight Demo.shielded
  /\ exists p',
       getPlayer "A" (players (Nat.iter 3 (gameLoop Sample.env)
                                 Demo.shielded)) = Some p'
       /\ Player.alive p' = true
       /\ Player.invulnerable p' = true.
Proof.
  split; [reflexivity|]. split; [reflexivity|].
  apply (invulnerable_survives Sample.env "A" Demo.shielded 3
           (Player.set_invulnerable true
              (Sample.snake "A" 10 (Sample.body 103 100 6))));
    reflexivity.
Defined.


Lemma death_drop_near_body_witness :
  unitDraws Sample.env
  /\ getPlayer "A" (players Sample.arena) = Some Sample.A
  /\ exists drops,
       broadcasts (spawnFoodFromDeadPlayer Sample.env "A" Sample.arena)
       = broadcasts Sample.arena ++ drops
       /\ length drops = 2%nat
       /\ Forall (droppedNear (Player.segments Sample.A)) drops.
Proof.
  split; [exact sample_unit_draws|]. split; [reflexivity|].
  destruct (death_drop_near_body Sample.env "A" Sample.arena Sample.A
              sample_unit_draws eq_refl)
    as (drops & H1 & H2 & _ & H4 & _).
  exists drops. split; [exact H1|]. split; [exact H2|exact H4].
Defined.

Lemma room_is_created_full_witness :
  foods Demo.blank = ∅
  /\ NoDup (spawnIds Sample.env (draws Demo.blank) (maxFoods Demo.blank))
  /\ worldBoundaryCollisions (onCreate Sample.env Demo.blank) = true
  /\ size (foods (onCreate Sample.env Demo.blank)) = 3%nat
  /\ topUp Sample.env (onCreate Sample.env Demo.blank)
     = onCreate Sample.env Demo.blank.
Proof.
  assert (Hnd : NoDup (spawnIds Sample.env (draws Demo.blank)
                         (maxFoods Demo.blank))).
  { apply (bool_decide_unpack _). vm_compute. exact I. }
  split; [reflexivity|]. split; [exact Hnd|].
  pose proof (room_is_created_full Sample.env Demo.blank eq_refl) as H.
  cbv zeta in H. destruct H as (H1 & _ & _ & _ & _ & _ & H7).
  destruct (H7 Hnd) as (H8 & H9).
  split; [exact H1|]. split; [exact H8|exact H9].
Defined.

Lemma food_is_eaten_once_witness :
  foodIdAt Sample.env (S (S (draws Sample.orchard))) <> "apple"
  /\ foods Sample.orchard !! "apple" = Some Sample.apple
  /\ onEatFood Sample.env "A" "apple"
       (onEatFood Sample.env "A" "apple" Sample.orchard)
     = onEatFood Sample.env "A" "apple" Sample.orchard.
Proof.
  assert (Hne : foodIdAt Sample.env (S (S (draws Sample.orchard)))
                <> "apple")
    by (vm_compute; discriminate).
  split; [exact Hne|]. split; [vm_compute; reflexivity|].
  exact (food_is_eaten_once Sample.env "A" "apple" Sample.orchard Hne).
Defined.

Lemma self_named_killer_is_credited_witness :
  getPlayer "A" (players Sample.arena) = Some Sample.A
  /\ Player.score Sample.A = 10%Z
  /\ exists p',
       getPlayer "A"
         (players (onPlayerDied Sample.env "A" (Some "A") Sample.arena))
       = Some p'
       /\ Player.alive p' = false
       /\ Player.score p' = 15%Z
       /\ Player.kills p' = 1%Z.
Proof.
  split; [reflexivity|]. split; [reflexivity|].
  destruct (self_named_killer_is_credited Sample.env "A" Sample.arena
              Sample.A eq_refl eq_refl ltac:(discriminate))
    as (p' & H1 & H2 & H3 & H4 & _).
  exists p'. split; [exact H1|]. split; [exact H2|].
  split; [exact H3|exact H4].
Defined.

Lemma killer_lookup_witness :
  getPlayer "A" (players Demo.clash)
  = Some (Sample.snake "A" 10 (Sample.body 103 100 6))
  /\ exists result,
       getKillerSessionId Sample.env "A" Demo.clash = Returns result
       /\ (forall k, result = Some k -> k <> "A").
Proof.
  split; [reflexivity|].
  destruct (proj2 (proj2 (killer_lookup Sample.env "A" Demo.clash))
              (Sample.snake "A" 10 (Sample.body 103 100 6))
              (SnakeSegment.new 103 100) (Sample.body 83 100 5)
              eq_refl)
    as (result & H1 & H2 & _).
  - vm_compute. reflexivity.
  - exists result. split; [exact H1|].
    intros k Hk. apply (H2 k Hk).
Defined.

Lemma killer_lookup_covers_collisions_witness :
  In ("B", Sample.B) (players Demo.clash)
  /\ scanBody Sample.env (SnakeSegment.new 103 100)
       (skipn 1 (Player.segments Sample.B)) = true
  /\ exists killer,
       getKillerSessionId Sample.env "A" Demo.clash = Returns (Some killer)
       /\ killer <> "A".
Proof.
  assert (Hin : In ("B", Sample.B) (players Demo.clash))
    by (right; left; reflexivity).
  assert (Hscan : scanBody Sample.env (SnakeSegment.new 103 100)
                    (skipn 1 (Player.segments Sample.B)) = true)
    by (vm_compute; reflexivity).
  split; [exact Hin|]. split; [exact Hscan|].
  apply (killer_lookup_covers_collisions Sample.env "A" "B" Demo.clash
           (Sample.snake "A" 10 (Sample.body 103 100 6)) Sample.B
           (SnakeSegment.new 103 100) (Sample.body 83 100 5)).
  - reflexivity.
  - vm_compute. reflexivity.
  - exact Hin.
  - discriminate.
  - exact Hscan.
Defined.

Lemma join_and_leave_witness :
  getPlayer "D" (players Sample.arena) = None
  /\ map fst (players (fst (onJoin Sample.env Demo.construct "D" None
                              (Some 9%Z) Sample.arena)))
     = map fst (players Sample.arena) ++ ["D"]
  /\ players (onLeave "D"
                (fst (onJoin Sample.env Demo.construct "D" None
                        (Some 9%Z) Sample.arena)))
     = players Sample.arena.
Proof.
  split; [reflexivity|].
  pose proof (join_and_leave Sample.env Demo.construct "D" None (Some 9%Z)
                Sample.arena) as H.
  cbv zeta in H. destruct H as (_ & _ & _ & _ & _ & H6 & _).
  exact (H6 eq_refl).
Defined.

Lemma skin_color_witness :
  (0 <= 9)%Z
  /\ (exists c, colorOf 9 = Some c /\ In c colors
                /\ colorOf (9 + 8) = colorOf 9)
  /\ (-3 < 0)%Z
  /\ colorOf (-3) = None.
Proof.
  assert (H9 : (0 <= 9)%Z) by lia.
  assert (H3 : (-3 < 0)%Z) by lia.
  split; [exact H9|].
  destruct (skin_color 9) as (Ha & _).
  split; [exact (Ha H9)|].
  split; [exact H3|].
  destruct (skin_color (-3)) as (_ & _ & Hc).
  apply Hc; [exact H3|]. vm_compute. discriminate.
Defined.

Lemma getPlayer_Some_In (key : string) (ps : list (string * Player.t))
  (p : Player.t) :
  getPlayer key ps = Some p -> In key (map fst ps).
Proof.
  induction ps as [|[k q] rest IH]; simpl; [discriminate|].
  destruct (String.eqb_spec key k) as [->|_]; [left; reflexivity|].
  intros H. right. apply IH, H.
Qed.

Lemma single_collision_witness :
  NoDup (map fst (players Demo.duel))
  /\ getPlayer "B" (players Demo.duel) = Some Sample.B
  /\ scanBody Sample.env (SnakeSegment.new 103 100)
       (skipn 1 (Player.segments Sample.B)) = true
  /\ countEvents (isDeathOf "A")
       (broadcasts (checkPlayerCollisions Sample.env "A" Demo.duel))
     = S (countEvents (isDeathOf "A") (broadcasts Demo.duel))
  /\ exists o',
       getPlayer "B"
         (players (checkPlayerCollisions Sample.env "A" Demo.duel))
       = Some o'
       /\ Player.score o' = (Player.score Sample.B + 10 / 2)%Z
       /\ Player.kills o' = (Player.kills Sample.B + 1)%Z.
Proof.
  assert (Hnd : NoDup (map fst (players Demo.duel))).
  { apply (bool_decide_unpack _). vm_compute. exact I. }
  assert (Hscan : scanBody Sample.env (SnakeSegment.new 103 100)
                    (skipn 1 (Player.segments Sample.B)) = true)
    by (vm_compute; reflexivity).
  split; [exact Hnd|]. split; [reflexivity|]. split; [exact Hscan|].
  pose proof (single_collision Sample.env "A" "B" Demo.duel
                (Sample.snake "A" 10 (Sample.body 103 100 6)) Sample.B
                (SnakeSegment.new 103 100) (Sample.body 83 100 5)
                Hnd eq_refl eq_refl eq_refl eq_refl) as H.
  assert (Hseg : Player.segments
                   (Sample.snake "A" 10 (Sample.body 103 100 6))
                 = SnakeSegment.new 103 100 :: Sample.body 83 100 5)
    by (vm_compute; reflexivity).
  assert (Hout : outOfWorld (SnakeSegment.new 103 100) Demo.duel = false)
    by (vm_compute; reflexivity).
  assert (Hne : "B" <> "A") by discriminate.
  assert (Hothers : forall k q,
            getPlayer k (players Demo.duel) = Some q ->
            k <> "A" -> k <> "B" ->
            Player.alive q = false
            \/ scanBody Sample.env (SnakeSegment.new 103 100)
                 (skipn 1 (Player.segments q)) = false).
  { intros k q Hq HA HB. exfalso.
    apply getPlayer_Some_In in Hq. simpl in Hq.
    destruct Hq as [E|[E|[]]]; congruence. }
  specialize (H Hseg Hout eq_refl Hne eq_refl Hscan Hothers).
  cbv zeta in H. destruct H as (_ & _ & Hkiller & _ & Hcount).
  split; [exact Hcount|exact Hkiller].
Defined.


Lemma respawn_lands_inside_witness :
  unitDraws Sample.env
  /\ 0 < worldWidth Sample.graveyard
  /\ 0 < worldHeight Sample.graveyard
  /\ exists p',
       getPlayer "A" (players (onRespawn Sample.env "A" Sample.graveyard))
       = Some p'
       /\ forall i segment,
            Player.segments p' !! i = Some segment ->
            - (80) <= Vector2.x (SnakeSegment.position segment)
            /\ Vector2.x (SnakeSegment.position segment)
               < worldWidth Sample.graveyard.
Proof.
  split; [exact sample_unit_draws|].
  split; [reflexivity|]. split; [reflexivity|].
  destruct (respawn_lands_inside Sample.env "A" Sample.graveyard
              (Player.set_alive false Sample.A) sample_unit_draws
              eq_refl eq_refl eq_refl)
    as (p' & Hp' & Hall).
  exists p'. split; [exact Hp'|].
  intros i segment Hi.
  destruct (Hall i segment Hi) as (_ & _ & H3 & H4 & _).
  split; assumption.
Defined.


Lemma playerDied_without_payload_witness :
  let result := onMessagePlayerDied Sample.env "A" None Sample.arena in
  getPlayer "A" (players Sample.arena) = Some Sample.A
  /\ Player.alive Sample.A = true
  /\ Nat.min (length (Player.segments Sample.A) / 3) 20 = 2%nat
  /\ snd result = ThrowsTypeError
  /\ broadcasts (fst result) = [EvPlayerDied "A"]
  /\ foods (fst result) = foods Sample.arena.
Proof.
  cbv zeta.
  split; [reflexivity|]. split; [reflexivity|]. split; [reflexivity|].
  destruct (playerDied_without_payload Sample.env "A" Sample.arena Sample.A
              eq_refl eq_refl)
    as (H1 & _ & _ & H4 & H5 & _).
  split; [exact H1|]. split; [exact H4|exact H5].
Defined.
